(** * Certificate status core of pvxs: a shallow embedding

    The development follows the sources of the secure PVAccess runtime:
    - [certstatus.h]: the status enums, [StatusDate], [OCSPStatus],
      [CertificateStatus], [CertStatus::getIssuerId] and
      [CertStatus::makeStatusURI];
    - [certstatusmanager.cpp]: [CertStatusManager::parse],
      [verifyOCSPResponse], [getStatusPvFromCert], [shouldMonitor];
    - [tools/cert.cpp]: [main] of the certificate tool and, further down in
      the same file, the TLS verification hook [ossl_verify];
    - [pvacms.h]: the SQL text of the two sweep queries.

    C++ values are modelled as follows: [std::string] and the contents of a
    [std::ostringstream] are lists of characters, [uint64_t] is [N],
    [time_t] and [int] are [Z], octet strings are lists of [byte],
    a thrown exception is the [Throw] case of [result], and the per-context
    peer status cache ([std::map] keyed by serial number) is a [gmap]. *)

From Stdlib Require Import ZArith NArith List String Ascii Bool Lia.
From Stdlib Require Import Strings.Byte.
From stdpp Require Import base gmap.

Import ListNotations.
Local Open Scope list_scope.

(** ** Strings *)

Definition std_string := list ascii.

Definition lit (s : string) : std_string := list_ascii_of_string s.

(** ** Exceptions

    Every exception class declared in [certstatus.h] derives from
    [std::runtime_error]; the constructors below name the classes, their
    message is dropped. *)

Inductive exn : Type :=
  | std_runtime_error
  | OCSPParseException
  | CertStatusException
  | CertStatusNoExtensionException
  | CertStatusSubscriptionException.

Inductive result (A : Type) : Type :=
  | Ok (a : A)
  | Throw (e : exn).

Arguments Ok {A} a.
Arguments Throw {A} e.

Definition bind {A B : Type} (m : result A) (k : A -> result B) : result B :=
  match m with
  | Ok a => k a
  | Throw e => Throw e
  end.

Notation "'do' x <- m ; k" := (bind m (fun x => k))
  (at level 10, x name, m at level 100, k at level 200).

Definition is_ok {A : Type} (m : result A) : bool :=
  match m with Ok _ => true | Throw _ => false end.

(** ** Output streams

    The part of [std::ostream] formatting that the sources use: the stream
    keeps the characters written so far, the numeric base ([std::hex] or the
    default decimal), the fill character and the field width; the width is
    consumed by the next formatted insertion. *)

Module ostream.

Record t : Type := mk {
  buf : std_string;
  base : N;
  width : nat;
  fill : ascii
}.

(** A freshly constructed stream ([SB()], [std::stringstream ss]). *)
Definition init : t := {| buf := []; base := 10; width := 0; fill := " "%char |}.

Definition hex (os : t) : t :=
  {| buf := buf os; base := 16; width := width os; fill := fill os |}.

Definition setw (w : nat) (os : t) : t :=
  {| buf := buf os; base := base os; width := w; fill := fill os |}.

Definition setfill (c : ascii) (os : t) : t :=
  {| buf := buf os; base := base os; width := width os; fill := c |}.

Definition digits : std_string := lit "0123456789abcdef".

Definition digit_char (d : N) : ascii := nth (N.to_nat d) digits "0"%char.

(** Digits of [n], most significant first, prepended to [acc]. *)
Fixpoint put_digits (fuel : nat) (b n : N) (acc : std_string) : std_string :=
  match fuel with
  | O => acc
  | S fuel' =>
      let acc' := digit_char (n mod b) :: acc in
      if (n / b =? 0)%N then acc' else put_digits fuel' b (n / b) acc'
  end.

Definition num_put (b n : N) : std_string :=
  put_digits (S (N.to_nat (N.log2 n))) b n [].

(** Right adjustment, the default: fill characters go to the left. *)
Definition pad (w : nat) (c : ascii) (s : std_string) : std_string :=
  repeat c (w - length s) ++ s.

(** [os << s] for a string or character literal. *)
Definition put_string (s : std_string) (os : t) : t :=
  {| buf := buf os ++ pad (width os) (fill os) s;
     base := base os; width := 0; fill := fill os |}.

(** [os << n] for a non-negative integer. *)
Definition put_unsigned (n : N) (os : t) : t :=
  put_string (num_put (base os) n) os.

Definition str (os : t) : std_string := buf os.

(** [ss.tellp()] of a string stream that was only appended to. *)
Definition tellp (os : t) : Z := Z.of_nat (length (buf os)).

End ostream.

Notation "os '<<s' s" := (ostream.put_string s os) (at level 50, left associativity).
Notation "os '<<u' n" := (ostream.put_unsigned n os) (at level 50, left associativity).
Notation "os '<<m' f" := (f os) (at level 50, left associativity, only parsing).

(** ** Certificates

    The view of an [X509] certificate that the status code reads: the
    octets of the Subject Key Identifier extension, the value of the custom
    status-PV extension ([NID_PvaCertStatusURI]), and the serial number. *)

Record X509 : Type := {
  subject_key_identifier : option (list byte);
  pva_cert_status_uri : option std_string;
  serial_number : N
}.

Definition GET_MONITOR_CERT_STATUS_ROOT : std_string := lit "CERT:STATUS".

(** [CertStatus::getIssuerId]: the loop over the SKI octets. *)
Fixpoint getIssuerId_loop (data : list byte) (ss : ostream.t) : ostream.t :=
  match data with
  | [] => ss
  | b :: rest =>
      if (ostream.tellp ss <? 8)%Z
      then getIssuerId_loop rest
             (ss <<m ostream.hex <<m ostream.setw 2 <<m ostream.setfill "0"%char
                 <<u Byte.to_N b)
      else ss
  end.

Definition getIssuerId (ca_cert : X509) : result std_string :=
  match subject_key_identifier ca_cert with
  | None => Throw std_runtime_error
  | Some skid => Ok (ostream.str (getIssuerId_loop skid ostream.init))
  end.

(** [CertStatus::makeStatusURI]. *)
Definition makeStatusURI (issuer_id : std_string) (serial : N) : std_string :=
  ostream.str
    (ostream.init <<s GET_MONITOR_CERT_STATUS_ROOT <<s lit ":" <<s issuer_id <<s lit ":"
       <<m ostream.setw 16 <<m ostream.setfill "0"%char <<u serial).

(** ** Reading numbers back

    The inverse of the digit rendering, used to state what a rendered
    number denotes. *)

Fixpoint index_of (c : ascii) (ds : std_string) (i : N) : option N :=
  match ds with
  | [] => None
  | d :: ds' => if Ascii.eqb d c then Some i else index_of c ds' (i + 1)%N
  end.

Definition digit_value (b : N) (c : ascii) : option N :=
  match index_of c ostream.digits 0%N with
  | Some i => if (i <? b)%N then Some i else None
  | None => None
  end.

Fixpoint read_digits (b : N) (s : std_string) (acc : N) : option N :=
  match s with
  | [] => Some acc
  | c :: s' =>
      match digit_value b c with
      | Some d => read_digits b s' (acc * b + d)%N
      | None => None
      end
  end.

Definition read_number (b : N) (s : std_string) : option N :=
  match s with
  | [] => None
  | _ => read_digits b s 0%N
  end.

Definition is_decimal_digit (c : ascii) : Prop := digit_value 10 c <> None.

(** Lowercase hexadecimal rendering of an octet string, two characters per
    octet: the reading of "the hex SKI" in the documentation of
    [getIssuerId]. *)
Definition hex_of_octet (b : byte) : std_string :=
  [ostream.digit_char (Byte.to_N b / 16); ostream.digit_char (Byte.to_N b mod 16)].

Definition hex_of_octets (l : list byte) : std_string := flat_map hex_of_octet l.

(** The status-PV name as the specification words it: the serial as exactly
    sixteen hexadecimal digits. *)
Definition hex16 (serial : N) : std_string :=
  ostream.pad 16 "0"%char (ostream.num_put 16 serial).

Definition spec_status_pv_name (issuer_id : std_string) (serial : N) : std_string :=
  lit "CERT:STATUS:" ++ issuer_id ++ lit ":" ++ hex16 serial.

(** ** Status enums

    [certstatus_t] and [ocspcertstatus_t] are generated from the X-macro
    lists [CERT_STATUS_LIST] and [OCSP_CERT_STATUS_LIST]; the second takes
    its values from OpenSSL's [V_OCSP_CERTSTATUS_*]. [PVACertStatus] and
    [OCSPCertStatus] pair the enum value [i] with its name [s], and compare
    by [i]. *)

Inductive certstatus_t : Type :=
  | UNKNOWN | PENDING_APPROVAL | PENDING | VALID | EXPIRED | REVOKED.

Inductive ocspcertstatus_t : Type :=
  | OCSP_CERTSTATUS_GOOD | OCSP_CERTSTATUS_REVOKED | OCSP_CERTSTATUS_UNKNOWN.

Definition certstatus_i (s : certstatus_t) : Z :=
  match s with
  | UNKNOWN => 0 | PENDING_APPROVAL => 1 | PENDING => 2
  | VALID => 3 | EXPIRED => 4 | REVOKED => 5
  end.

Definition ocspcertstatus_i (s : ocspcertstatus_t) : Z :=
  match s with
  | OCSP_CERTSTATUS_GOOD => 0
  | OCSP_CERTSTATUS_REVOKED => 1
  | OCSP_CERTSTATUS_UNKNOWN => 2
  end.

Definition CERT_STATE (s : certstatus_t) : std_string :=
  match s with
  | UNKNOWN => lit "UNKNOWN" | PENDING_APPROVAL => lit "PENDING_APPROVAL"
  | PENDING => lit "PENDING" | VALID => lit "VALID"
  | EXPIRED => lit "EXPIRED" | REVOKED => lit "REVOKED"
  end.

Definition OCSP_CERT_STATE (s : ocspcertstatus_t) : std_string :=
  match s with
  | OCSP_CERTSTATUS_GOOD => lit "OCSP_CERTSTATUS_GOOD"
  | OCSP_CERTSTATUS_REVOKED => lit "OCSP_CERTSTATUS_REVOKED"
  | OCSP_CERTSTATUS_UNKNOWN => lit "OCSP_CERTSTATUS_UNKNOWN"
  end.

(** The array [CERT_STATES] that the macro [CERT_STATE(index)] builds and
    indexes. The index is not compared with the length of the array: an
    index outside it reads past the array, which the language leaves
    undefined; [None] stands for that read. *)
Definition CERT_STATES : list std_string :=
  [lit "UNKNOWN"; lit "PENDING_APPROVAL"; lit "PENDING"; lit "VALID"; lit "EXPIRED";
   lit "REVOKED"].

Definition CERT_STATE_at (index : Z) : option std_string :=
  if (index <? 0)%Z then None else nth_error CERT_STATES (Z.to_nat index).

(** The enumerator with a given value, if there is one. *)
Definition certstatus_of_index (index : Z) : option certstatus_t :=
  if (index =? 0)%Z then Some UNKNOWN
  else if (index =? 1)%Z then Some PENDING_APPROVAL
  else if (index =? 2)%Z then Some PENDING
  else if (index =? 3)%Z then Some VALID
  else if (index =? 4)%Z then Some EXPIRED
  else if (index =? 5)%Z then Some REVOKED
  else None.

(** A call returns or throws, or its behaviour is undefined. *)
Inductive behaviour (A : Type) : Type :=
  | Behaves (r : result A)
  | UndefinedBehaviour.

Arguments Behaves {A} r.
Arguments UndefinedBehaviour {A}.

(** [PVACertStatus::operator==(certstatus_t)] and
    [OCSPCertStatus::operator==(ocspcertstatus_t)]. *)
Definition pva_eq (a b : certstatus_t) : bool := (certstatus_i a =? certstatus_i b)%Z.
Definition ocsp_eq (a b : ocspcertstatus_t) : bool :=
  (ocspcertstatus_i a =? ocspcertstatus_i b)%Z.

(** ** Dates *)

Definition time_t := Z.

Record tm : Type := {
  tm_sec : Z; tm_min : Z; tm_hour : Z; tm_mday : Z; tm_mon : Z; tm_year : Z
}.

Definition kMonthStartDays : list Z :=
  [0; 31; 59; 90; 120; 151; 181; 212; 243; 273; 304; 334]%Z.

(** [StatusDate::tmToTimeTUTC]. C++ integer division and remainder truncate
    towards zero; [tm_mon] indexes [kMonthStartDays], and is in 0..11 for any
    [tm] filled by [ASN1_TIME_to_tm] or [std::get_time]. *)
Definition tmToTimeTUTC (x : tm) : time_t :=
  let year := (1900 + tm_year x)%Z in
  let days := ((year - 1970) * 365 + Z.quot (year - 1969) 4
               - Z.quot (year - 1901) 100 + Z.quot (year - 1601) 400)%Z in
  let days := (days + nth (Z.to_nat (tm_mon x)) kMonthStartDays 0)%Z in
  let days :=
    if (tm_mon x >? 1)%Z
       && ((Z.rem year 4 =? 0)%Z
           && (negb (Z.rem year 100 =? 0)%Z || (Z.rem year 400 =? 0)%Z))
    then (days + 1)%Z else days in
  let days := (days + (tm_mday x - 1))%Z in
  (((days * 24 + tm_hour x) * 60 + tm_min x) * 60 + tm_sec x)%Z.

(** An [ASN1_TIME] is represented by what [ASN1_TIME_to_tm] makes of it:
    the broken-down time, or [None] when the conversion fails. A pointer to
    one that may be null is an [option ASN1_TIME]. *)
Definition ASN1_TIME := option tm.

(** [StatusDate]: the time [t]; the string [s] is [strftime] of [t] with
    [CERT_TIME_FORMAT] and is not read by any modelled function. *)
Record StatusDate : Type := { t : time_t }.

(** [StatusDate::operator==]. *)
Definition date_eq (a b : StatusDate) : bool := (t a =? t b)%Z.

(** [StatusDate::asn1TimeToTimeT]. *)
Definition asn1TimeToTimeT (time : option ASN1_TIME) : result time_t :=
  match time with
  | None => Ok 0%Z
  | Some None => Throw std_runtime_error
  | Some (Some x) => Ok (tmToTimeTUTC x)
  end.

(** The [StatusDate] constructor from an [ASN1_TIME] pointer. *)
Definition StatusDate_of_asn1 (time : option ASN1_TIME) : result StatusDate :=
  do x <- asn1TimeToTimeT time; Ok {| t := x |}.

(** [StatusDate::toTimeT] and [StatusDate(const std::string&)]; [get_time]
    stands for [std::get_time] with [CERT_TIME_FORMAT], [None] when the
    stream fails. *)
Definition toTimeT (get_time : std_string -> option tm) (time_string : std_string)
  : result time_t :=
  match time_string with
  | [] => Ok 0%Z
  | _ => match get_time time_string with
         | None => Throw OCSPParseException
         | Some x => Ok (tmToTimeTUTC x)
         end
  end.

Definition StatusDate_of_string (get_time : std_string -> option tm)
    (time_string : std_string) : result StatusDate :=
  do x <- toTimeT get_time time_string; Ok {| t := x |}.

(** ** Status objects *)

(** [ParsedOCSPStatus]: what [CertStatusManager::parse] returns. *)
Record ParsedOCSPStatus : Type := {
  parsed_serial : N;
  parsed_ocsp_status : ocspcertstatus_t;
  parsed_status_date : StatusDate;
  parsed_status_valid_until_date : StatusDate;
  parsed_revocation_date : StatusDate
}.

Record OCSPStatus : Type := {
  ocsp_bytes : list byte;
  ocsp_status : ocspcertstatus_t;
  status_date : StatusDate;
  status_valid_until_date : StatusDate;
  revocation_date : StatusDate
}.

(** [CertificateStatus] derives from [OCSPStatus] and adds the PVA status. *)
Record CertificateStatus : Type := {
  ocsp :> OCSPStatus;
  status : certstatus_t
}.

(** [OCSPStatus::isValid] and [OCSPStatus::isGood]; [now] is the value of
    [std::time(nullptr)] read by the call. *)
Definition isValid (s : OCSPStatus) (now : time_t) : bool :=
  (t (status_valid_until_date s) >? now)%Z.

Definition isGood (s : OCSPStatus) (now : time_t) : bool :=
  isValid s now && ocsp_eq (ocsp_status s) OCSP_CERTSTATUS_GOOD.

(** [CertificateStatus::selfConsistent]. *)
Definition selfConsistent (c : CertificateStatus) : bool :=
  (ocsp_eq (ocsp_status c) OCSP_CERTSTATUS_UNKNOWN
   && negb (pva_eq (status c) VALID || pva_eq (status c) REVOKED))
  || (ocsp_eq (ocsp_status c) OCSP_CERTSTATUS_REVOKED && pva_eq (status c) REVOKED)
  || (ocsp_eq (ocsp_status c) OCSP_CERTSTATUS_GOOD && pva_eq (status c) VALID).

(** [CertificateStatus::dateConsistent]. *)
Definition dateConsistent (c : CertificateStatus)
    (status_date_value status_valid_until_date_value revocation_date_value : StatusDate)
  : bool :=
  date_eq (status_date c) status_date_value
  && date_eq (status_valid_until_date c) status_valid_until_date_value
  && date_eq (revocation_date c) revocation_date_value.

(** The status PV value, with the fields of [CertStatus::getStatusPrototype].
    [status_value_index] is the integer received in the field
    [status.value.index], which the constructor reads [as<certstatus_t>]
    without comparing it with the enumerators: a peer can send any value. *)
Record Value : Type := {
  status_value_index : Z;
  serial : N;
  state : std_string;
  ocsp_status_value_index : ocspcertstatus_t;
  ocsp_state : std_string;
  ocsp_status_date : std_string;
  ocsp_certified_until : std_string;
  ocsp_revocation_date : std_string;
  ocsp_response : list byte
}.

Section FromValue.

(** The constructor [OCSPStatus(ocsp_bytes)] runs [OCSPStatus::init()],
    which is declared in [certstatus.h] and defined elsewhere: it is a
    parameter here, as is the library's [std::get_time]. *)
Variable OCSPStatus_init : list byte -> result OCSPStatus.
Variable get_time : std_string -> option tm.

(** [CertificateStatus(status, ocsp_bytes)], with the value of [status] as
    it was received. The base [OCSPStatus(ocsp_bytes)] is constructed first;
    then the member [status], whose constructor [PVACertStatus(status)]
    takes the name of the status from [CERT_STATE(status)]. *)
Definition CertificateStatus_of_bytes (index : Z) (bytes : list byte)
  : behaviour CertificateStatus :=
  match OCSPStatus_init bytes with
  | Throw e => Behaves (Throw e)
  | Ok o =>
      match CERT_STATE_at index, certstatus_of_index index with
      | Some _, Some st => Behaves (Ok {| ocsp := o; status := st |})
      | _, _ => UndefinedBehaviour
      end
  end.

(** The body of [CertificateStatus(const Value&)], after the delegation.
    The operands of [||] are evaluated left to right: the three date strings
    are converted only when [selfConsistent()] holds. *)
Definition check_Value (status_value : Value) (c : CertificateStatus)
  : result CertificateStatus :=
  match ocsp_bytes c with
  | [] => Ok c
  | _ =>
      if negb (selfConsistent c) then Throw OCSPParseException
      else
        do d1 <- StatusDate_of_string get_time (ocsp_status_date status_value);
        do d2 <- StatusDate_of_string get_time (ocsp_certified_until status_value);
        do d3 <- StatusDate_of_string get_time (ocsp_revocation_date status_value);
        if negb (dateConsistent c d1 d2 d3) then Throw OCSPParseException
        else Ok c
  end.

(** [CertificateStatus(const Value&)]. *)
Definition CertificateStatus_of_Value (status_value : Value)
  : behaviour CertificateStatus :=
  match CertificateStatus_of_bytes (status_value_index status_value)
                                   (ocsp_response status_value) with
  | Behaves (Ok c) => Behaves (check_Value status_value c)
  | Behaves (Throw e) => Behaves (Throw e)
  | UndefinedBehaviour => UndefinedBehaviour
  end.

End FromValue.

(** [CertificateStatus(pva_status, status_valid_until_date, revocation_date)],
    the constructor used on the issuing side; [now] is [time(nullptr)]. *)
Definition CertificateStatus_of_pva (pva_status : certstatus_t)
    (valid_until revocation : time_t) (now : time_t) : CertificateStatus :=
  {| ocsp := {| ocsp_bytes := [];
                ocsp_status :=
                  if pva_eq pva_status REVOKED then OCSP_CERTSTATUS_REVOKED
                  else if pva_eq pva_status VALID then OCSP_CERTSTATUS_GOOD
                  else OCSP_CERTSTATUS_UNKNOWN;
                status_date := {| t := now |};
                status_valid_until_date := {| t := valid_until |};
                revocation_date := {| t := revocation |} |};
     status := pva_status |}.

(** ** OCSP responses

    The decoded form of an OCSP response, as OpenSSL's accessors present
    it. [revocationTime] belongs to the [revoked] alternative of the
    certificate status; [OCSP_single_get0_status] hands it out only when
    the status is [OCSP_CERTSTATUS_REVOKED]. *)

Record OCSP_SINGLERESP : Type := {
  certId_serialNumber : list byte;
  certStatus : ocspcertstatus_t;
  revocationTime : option ASN1_TIME;
  thisUpdate : option ASN1_TIME;
  nextUpdate : option ASN1_TIME
}.

Record OCSP_BASICRESP : Type := {
  responses : list OCSP_SINGLERESP;
  signer : option X509;
  certs : option (list X509)
}.

Record OCSP_RESPONSE : Type := {
  response_status : Z;
  basic : option OCSP_BASICRESP
}.

Definition OCSP_RESPONSE_STATUS_SUCCESSFUL : Z := 0.
Definition X509_V_OK : Z := 0.

(** The contents of an [X509_STORE] as the verification sees them. *)
Record X509_STORE : Type := {
  default_paths : bool;
  locations : list std_string;
  store_certs : list X509
}.

(** What the code calls and does not define: OpenSSL, and two functions of
    pvxs that are not among the sources ([ossl::ensureTrusted], which throws
    when the chain is not trusted, and [CertStatusFactory::ASN1ToUint64]).
    Allocation functions answer whether they returned an object; the others
    answer the [int] OpenSSL returns. *)
Record Library : Type := {
  BIO_new_mem_buf : list byte -> bool;
  d2i_OCSP_RESPONSE_bio : list byte -> option OCSP_RESPONSE;
  X509_check_issued : X509 -> X509 -> Z;
  ensureTrusted : X509 -> option (list X509) -> bool;
  X509_STORE_new : bool;
  X509_STORE_set_default_paths : Z;
  X509_STORE_load_locations : std_string -> Z;
  X509_STORE_CTX_new : bool;
  X509_STORE_CTX_init : X509_STORE -> X509 -> option (list X509) -> Z;
  X509_STORE_add_cert : X509_STORE -> X509 -> Z;
  OCSP_basic_verify : OCSP_BASICRESP -> option (list X509) -> X509_STORE -> Z;
  OCSP_check_validity : option ASN1_TIME -> option ASN1_TIME -> Z -> Z -> time_t -> Z;
  ASN1ToUint64 : list byte -> N
}.

Section Parse.

Variable lib : Library.

(** [CertStatusManager::getOCSPResponse]. *)
Definition getOCSPResponse (bytes : list byte) : result OCSP_RESPONSE :=
  if negb (BIO_new_mem_buf lib bytes) then Throw OCSPParseException
  else match d2i_OCSP_RESPONSE_bio lib bytes with
       | None => Throw OCSPParseException
       | Some r => Ok r
       end.

(** The loop of [verifyOCSPResponse] that adds the chain to the store; a
    failed addition is logged and the loop goes on. *)
Fixpoint add_chain (store : X509_STORE) (chain : list X509) : X509_STORE :=
  match chain with
  | [] => store
  | c :: rest =>
      if (X509_STORE_add_cert lib store c =? 1)%Z
      then add_chain {| default_paths := default_paths store;
                        locations := locations store;
                        store_certs := store_certs store ++ [c] |} rest
      else add_chain store rest
  end.

(** [CertStatusManager::verifyOCSPResponse]. *)
Definition verifyOCSPResponse (basic_response : OCSP_BASICRESP)
    (allow_self_signed_ca : bool) (custom_ca_dir : std_string) : result bool :=
  match signer basic_response with
  | None => Throw OCSPParseException
  | Some ca_cert =>
      let ca_chain := certs basic_response in
      if (negb allow_self_signed_ca
          || negb (X509_check_issued lib ca_cert ca_cert =? X509_V_OK)%Z)
         && negb (ensureTrusted lib ca_cert ca_chain)
      then Throw OCSPParseException
      else if negb (X509_STORE_new lib) then Throw OCSPParseException
      else if negb (X509_STORE_set_default_paths lib =? 1)%Z then Throw OCSPParseException
      else
        let store := {| default_paths := true; locations := []; store_certs := [] |} in
        do store <-
          match custom_ca_dir with
          | [] => Ok store
          | _ => if negb (X509_STORE_load_locations lib custom_ca_dir =? 1)%Z
                 then Throw OCSPParseException
                 else Ok {| default_paths := true; locations := [custom_ca_dir];
                            store_certs := [] |}
          end;
        if negb (X509_STORE_CTX_new lib) then Throw OCSPParseException
        else if negb (X509_STORE_CTX_init lib store ca_cert ca_chain =? 1)%Z
        then Throw OCSPParseException
        else if negb (X509_STORE_add_cert lib store ca_cert =? 1)%Z
        then Throw OCSPParseException
        else
          let store := {| default_paths := default_paths store;
                          locations := locations store;
                          store_certs := store_certs store ++ [ca_cert] |} in
          let store := match ca_chain with
                       | Some chain => add_chain store chain
                       | None => store
                       end in
          if (OCSP_basic_verify lib basic_response ca_chain store <=? 0)%Z
          then Throw OCSPParseException
          else Ok true
  end.

(** [CertStatusManager::parse]; [now] is the time that
    [OCSP_check_validity] reads. The value of [OCSP_check_validity] is
    not used by the caller. *)
Definition parse (bytes : list byte) (allow_self_signed_ca : bool)
    (custom_ca_dir : std_string) (now : time_t) : result ParsedOCSPStatus :=
  do ocsp_response <- getOCSPResponse bytes;
  if negb (response_status ocsp_response =? OCSP_RESPONSE_STATUS_SUCCESSFUL)%Z
  then Throw OCSPParseException
  else
    match basic ocsp_response with
    | None => Throw OCSPParseException
    | Some basic_response =>
        do _ <- verifyOCSPResponse basic_response allow_self_signed_ca custom_ca_dir;
        match responses basic_response with
        | [] => Throw OCSPParseException
        | single_response :: _ =>
            let serial := certId_serialNumber single_response in
            let ocsp_status := certStatus single_response in
            let revocation_time :=
              if ocsp_eq ocsp_status OCSP_CERTSTATUS_REVOKED
              then revocationTime single_response else None in
            let this_update := thisUpdate single_response in
            let next_update := nextUpdate single_response in
            let _ := OCSP_check_validity lib this_update next_update 0 5 now in
            if ocsp_eq ocsp_status OCSP_CERTSTATUS_REVOKED
               && match revocation_time with None => true | Some _ => false end
            then Throw OCSPParseException
            else
              do d1 <- StatusDate_of_asn1 this_update;
              do d2 <- StatusDate_of_asn1 next_update;
              do d3 <- StatusDate_of_asn1 revocation_time;
              Ok {| parsed_serial := ASN1ToUint64 lib serial;
                    parsed_ocsp_status := ocsp_status;
                    parsed_status_date := d1;
                    parsed_status_valid_until_date := d2;
                    parsed_revocation_date := d3 |}
        end
    end.

End Parse.

(** ** The status-PV extension of a certificate *)

(** [CertStatusManager::getExtension]: the extension with
    [NID_PvaCertStatusURI], represented by its octets; the later checks of
    [getStatusPvFromCert] on the data pointer and the length cannot fail on
    an extension that was found. *)
Definition getExtension (certificate : X509) : result std_string :=
  match pva_cert_status_uri certificate with
  | None => Throw CertStatusNoExtensionException
  | Some ext => Ok ext
  end.

(** [CertStatusManager::shouldMonitor]: [X509_get_ext_by_NID(..) >= 0]. *)
Definition shouldMonitor (certificate : X509) : bool :=
  match pva_cert_status_uri certificate with
  | None => false
  | Some _ => true
  end.

(** [CertStatusManager::statusMonitoringRequired]. *)
Definition statusMonitoringRequired (certificate : X509) : bool :=
  match getExtension certificate with
  | Ok _ => true
  | Throw _ => false
  end.

(** [CertStatusManager::getStatusPvFromCert]. *)
Definition getStatusPvFromCert (certificate : X509) : result std_string :=
  do extension <- getExtension certificate; Ok extension.

(** ** The TLS verification hook *)

(** The per-context [CertStatusExData]: the flag and the cache of peer
    statuses, a [std::map] keyed by certificate serial number. *)
Record CertStatusExData : Type := {
  status_check_enabled : bool;
  peer_statuses : gmap N CertificateStatus
}.

(** Modelled from the spec: [CertStatusExData::getCachedPeerStatus] and the
    two-argument [setCachedPeerStatus] are declared in a header that is not
    among the sources. The specification has the cache entry looked up per
    serial; the documentation of the overload in [openssl.cpp] says that the
    setter stores the status for the serial number and returns the status
    that was set. *)
Definition getCachedPeerStatus (ex : CertStatusExData) (cert_ptr : X509)
  : option CertificateStatus :=
  peer_statuses ex !! serial_number cert_ptr.

Definition setCachedPeerStatus (ex : CertStatusExData) (cert_ptr : X509)
    (s : CertificateStatus) : CertificateStatus * CertStatusExData :=
  (s, {| status_check_enabled := status_check_enabled ex;
         peer_statuses := <[serial_number cert_ptr := s]> (peer_statuses ex) |}).

Record X509_STORE_CTX : Type := {
  current_cert : X509;
  error : Z
}.

Definition X509_V_ERR_DEPTH_ZERO_SELF_SIGNED_CERT : Z := 18.
Definition X509_V_ERR_SELF_SIGNED_CERT_IN_CHAIN : Z := 19.
Definition X509_V_ERR_UNABLE_TO_GET_ISSUER_CERT_LOCALLY : Z := 20.

(** How a call of the hook ends: it returns an [int] to the TLS library, or
    it ends the process with [exit]. *)
Inductive outcome : Type :=
  | Return (r : Z)
  | Exit (code : Z).

Section Verify.

(** [CertStatusManager::getPVAStatus(uri)]: a GET of the status PV over a
    client context and the construction of the status from the value
    received; an exception stands for any failure of the two. *)
Variable getPVAStatus_uri : std_string -> result CertificateStatus.

(** [CertStatusManager::getStatus(cert)]. *)
Definition getStatus (cert : X509) : result CertificateStatus :=
  do uri <- getStatusPvFromCert cert; getPVAStatus_uri uri.

(** [ossl_verify]. [now_valid] and [now_good] are the times read by the
    calls of [isValid] and of [isGood]. The result carries the extension
    data after the call. *)
Definition ossl_verify (preverify_ok : Z) (x509_ctx : X509_STORE_CTX)
    (pva_ex_data : CertStatusExData) (now_valid now_good : time_t)
  : outcome * CertStatusExData :=
  let cert_ptr := current_cert x509_ctx in
  if negb (preverify_ok =? 0)%Z then
    if negb (statusMonitoringRequired cert_ptr) then (Return preverify_ok, pva_ex_data)
    else if status_check_enabled pva_ex_data then
      let peer_status := getCachedPeerStatus pva_ex_data cert_ptr in
      let attempt : result (CertificateStatus * CertStatusExData) :=
        match peer_status with
        | Some s =>
            if isValid s now_valid then Ok (s, pva_ex_data)
            else do s' <- getStatus cert_ptr;
                 Ok (setCachedPeerStatus pva_ex_data cert_ptr s')
        | None =>
            do s' <- getStatus cert_ptr;
            Ok (setCachedPeerStatus pva_ex_data cert_ptr s')
        end in
      match attempt with
      | Ok (s, ex') =>
          if negb (isGood s now_good) then (Return 0%Z, ex')
          else (Return preverify_ok, ex')
      | Throw CertStatusNoExtensionException => (Exit 1%Z, pva_ex_data)
      | Throw _ => (Return 0%Z, pva_ex_data)
      end
    else (Return preverify_ok, pva_ex_data)
  else
    let err := error x509_ctx in
    if (err =? X509_V_ERR_UNABLE_TO_GET_ISSUER_CERT_LOCALLY)%Z
       || (err =? X509_V_ERR_DEPTH_ZERO_SELF_SIGNED_CERT)%Z
       || (err =? X509_V_ERR_SELF_SIGNED_CERT_IN_CHAIN)%Z
    then (Return preverify_ok, pva_ex_data)
    else (Return preverify_ok, pva_ex_data).

End Verify.

(** ** The sweep queries of the certificate database *)

Module pvacms.

(** A row of the table [certs] created by [SQL_CREATE_DB_FILE]. *)
Record row : Type := {
  serial : N;
  skid : std_string;
  CN : std_string;
  O : std_string;
  OU : std_string;
  C : std_string;
  not_before : Z;
  not_after : Z;
  status : Z;
  status_date : Z
}.

(** [SQL_CERT_TO_VALID]; [now] is [strftime('%s', 'now')]. The text of the
    macro ends in a blank after its [WHERE] condition, for a further
    condition on the row that the caller appends (the statuses from which
    the move is made, [getValidStatusesClause]); the code that appends it is
    not among the sources, and the condition is the parameter [clause]. *)
Definition SQL_CERT_TO_VALID (clause : row -> bool) (now : Z) (certs : list row)
  : list N :=
  map serial
    (List.filter
       (fun r => (not_before r <=? now)%Z && (not_after r >? now)%Z && clause r) certs).

(** [SQL_CERT_TO_EXPIRED], with the condition appended to it. *)
Definition SQL_CERT_TO_EXPIRED (clause : row -> bool) (now : Z) (certs : list row)
  : list N :=
  map serial (List.filter (fun r => (not_after r <=? now)%Z && clause r) certs).

(** A condition on the status column: the status is one of [statuses]. *)
Definition status_in (statuses : list Z) (r : row) : bool :=
  existsb (fun st => (status r =? st)%Z) statuses.

End pvacms.

(** ** The certificate tool *)

Module tool.

Inductive CertAction : Type := STATUS | APPROVE | DENY | REVOKE.

Inductive format_t : Type := Delta | Tree.

(** [stringToFormat]; [None] stands for the [std::invalid_argument] it
    throws. *)
Definition stringToFormat (formatStr : std_string) : option format_t :=
  if List.list_eq_dec Ascii.ascii_dec formatStr (lit "delta") then Some Delta
  else if List.list_eq_dec Ascii.ascii_dec formatStr (lit "tree") then Some Tree
  else None.

(** The variables that the command line parser fills. *)
Record Options : Type := {
  help : bool;
  verbose : bool;
  debug : bool;
  password_flag : bool;
  show_version : bool;
  cert_file : std_string;
  format_str : std_string;
  issuer_serial_string : std_string;
  approve : bool;
  revoke : bool;
  deny : bool
}.

(** How [done.wait(timeout)] ends: the event is signalled by the result
    callback of the operation, or by the SIGINT handler, or the timeout
    passes. *)
Inductive wait_outcome : Type := Completed | Interrupted | TimedOut.

(** What a run of the tool meets outside [main]: the verdict of
    [CLI11_PARSE] (the parsed options, or the exit code that the parser
    library returns on a parse error), whether building the client context
    throws, what reading the certificate file gives, whether starting the
    operation throws, and how the wait ends. *)
Record Run : Type := {
  argc : Z;
  parsed : Z + Options;
  build_throws : bool;
  cert_from_file : result std_string;
  exec_throws : bool;
  wait : wait_outcome
}.

Definition is_empty (s : std_string) : bool :=
  match s with [] => true | _ => false end.

(** [main]: the value returned, or passed to [exit]. *)
Definition main (r : Run) : Z :=
  match parsed r with
  | inl code => code
  | inr o =>
      if help o then 0%Z
      else if show_version o then (if (argc r >? 2)%Z then 1%Z else 0%Z)
      else if password_flag o && is_empty (cert_file o) then 1%Z
      else if negb (is_empty (cert_file o)) && (approve o || revoke o || deny o) then 2%Z
      else
        match (if negb (is_empty (format_str o)) then stringToFormat (format_str o)
               else Some Delta) with
        | None => 6%Z
        | Some format =>
            let action := if deny o then DENY
                          else if revoke o then REVOKE
                          else if approve o then APPROVE
                          else STATUS in
            if build_throws r then 6%Z
            else
              let cert_id : result std_string :=
                if negb (is_empty (cert_file o)) then cert_from_file r
                else Ok (lit "CERT:STATUS:" ++ issuer_serial_string o) in
              match cert_id with
              | Throw _ => 3%Z
              | Ok cert_id =>
                  if exec_throws r then 3%Z
                  else
                    let waited := match wait r with TimedOut => false | _ => true end in
                    if negb waited then 4%Z
                    else if is_empty (issuer_serial_string o) then 0%Z
                    else 5%Z
              end
        end
  end.

End tool.

(** ** Statements of the specification, and sample data *)

(** The three consistency invariants of a published status. *)
Definition consistent (c : CertificateStatus) : Prop :=
  (ocsp_status c = OCSP_CERTSTATUS_GOOD <-> status c = VALID)
  /\ (ocsp_status c = OCSP_CERTSTATUS_REVOKED <-> status c = REVOKED)
  /\ (ocsp_status c = OCSP_CERTSTATUS_UNKNOWN -> status c <> VALID /\ status c <> REVOKED).

(** The expiry rule as the specification words it: a record that meets the
    condition on the status is selected for the move to EXPIRED exactly when
    [now > not_after]. *)
Definition spec_expiry_rule : Prop :=
  forall (clause : pvacms.row -> bool) (now : Z) (certs : list pvacms.row) (s : N),
    In s (pvacms.SQL_CERT_TO_EXPIRED clause now certs)
    <-> exists r, In r certs /\ pvacms.serial r = s /\ clause r = true
                  /\ (now > pvacms.not_after r)%Z.

(** The issuer id as the specification words it: for a certificate with a
    Subject Key Identifier, eight hexadecimal characters. *)
Definition spec_issuer_id_rule : Prop :=
  forall (ca_cert : X509) (skid : list byte),
    subject_key_identifier ca_cert = Some skid ->
    exists id : std_string,
      getIssuerId ca_cert = Ok id
      /\ length id = 8%nat
      /\ Forall (fun c => In c (lit "0123456789abcdef")) id.

(** A library that differs from [lib] in the answer of
    [OCSP_check_validity] only. *)
Definition with_check_validity (lib : Library)
    (chk : option ASN1_TIME -> option ASN1_TIME -> Z -> Z -> time_t -> Z) : Library :=
  {| BIO_new_mem_buf := BIO_new_mem_buf lib;
     d2i_OCSP_RESPONSE_bio := d2i_OCSP_RESPONSE_bio lib;
     X509_check_issued := X509_check_issued lib;
     ensureTrusted := ensureTrusted lib;
     X509_STORE_new := X509_STORE_new lib;
     X509_STORE_set_default_paths := X509_STORE_set_default_paths lib;
     X509_STORE_load_locations := X509_STORE_load_locations lib;
     X509_STORE_CTX_new := X509_STORE_CTX_new lib;
     X509_STORE_CTX_init := X509_STORE_CTX_init lib;
     X509_STORE_add_cert := X509_STORE_add_cert lib;
     OCSP_basic_verify := OCSP_basic_verify lib;
     OCSP_check_validity := chk;
     ASN1ToUint64 := ASN1ToUint64 lib |}.

Module sample.

Local Open Scope Z_scope.

Definition jan_1_2020 (hour min : Z) : tm :=
  {| tm_sec := 0; tm_min := min; tm_hour := hour; tm_mday := 1; tm_mon := 0;
     tm_year := 120 |}.

Definition date_text_1 : std_string := lit "Wed Jan 01 00:00:00 2020 UTC".
Definition date_text_2 : std_string := lit "Wed Jan 01 00:30:00 2020 UTC".

(** A [std::get_time] that knows the two date texts above. *)
Definition get_time (s : std_string) : option tm :=
  if List.list_eq_dec Ascii.ascii_dec s date_text_1 then Some (jan_1_2020 0 0)
  else if List.list_eq_dec Ascii.ascii_dec s date_text_2 then Some (jan_1_2020 0 30)
  else None.

(** An [OCSPStatus::init] that finds a GOOD status, certified from
    00:00 to 00:30 on 1 January 2020, in any token. *)
Definition init_good (bytes : list byte) : result OCSPStatus :=
  Ok {| ocsp_bytes := bytes;
        ocsp_status := OCSP_CERTSTATUS_GOOD;
        status_date := {| t := 1577836800 |};
        status_valid_until_date := {| t := 1577838600 |};
        revocation_date := {| t := 0 |} |}.

Definition token : list byte := [x30; x82; x01; x00].

(** A status PV value with the index [index] in its [status] field. *)
Definition value_at (index : Z) (name : std_string) : Value :=
  {| status_value_index := index;
     serial := 255%N;
     state := name;
     ocsp_status_value_index := OCSP_CERTSTATUS_GOOD;
     ocsp_state := OCSP_CERT_STATE OCSP_CERTSTATUS_GOOD;
     ocsp_status_date := date_text_1;
     ocsp_certified_until := date_text_2;
     ocsp_revocation_date := [];
     ocsp_response := token |}.

Definition value (st : certstatus_t) : Value :=
  {| status_value_index := certstatus_i st;
     serial := 255%N;
     state := CERT_STATE st;
     ocsp_status_value_index := OCSP_CERTSTATUS_GOOD;
     ocsp_state := OCSP_CERT_STATE OCSP_CERTSTATUS_GOOD;
     ocsp_status_date := date_text_1;
     ocsp_certified_until := date_text_2;
     ocsp_revocation_date := [];
     ocsp_response := token |}.

(** OpenSSL's [OCSP_check_validity(thisupd, nextupd, nsec, maxsec)], after
    its manual page: [thisupd] must not be more than [nsec] seconds in the
    future nor, when [maxsec] is not negative, more than [maxsec] seconds
    in the past; [nextupd], when present, must not be more than [nsec]
    seconds in the past nor precede [thisupd]. It answers 1 or 0. *)
Definition check_validity (thisupd nextupd : option ASN1_TIME) (nsec maxsec : Z)
    (now : time_t) : Z :=
  match thisupd with
  | Some (Some x) =>
      let tu := tmToTimeTUTC x in
      let ret := if (tu >? now + nsec) || ((maxsec >=? 0) && (tu <? now - maxsec))
                 then 0 else 1 in
      match nextupd with
      | None => ret
      | Some None => 0
      | Some (Some y) =>
          let nu := tmToTimeTUTC y in
          if (nu <? now - nsec) || (nu <? tu) then 0 else ret
      end
  | _ => 0
  end.

Definition ca_cert : X509 :=
  {| subject_key_identifier := Some [x27; x97; x5e; x6b; x01; xff];
     pva_cert_status_uri := None;
     serial_number := 1%N |}.

(** A library in which every allocation and every check succeeds, the
    decoder finds [resp] in any token, and the validity check is
    [check_validity]. *)
Definition lib (resp : OCSP_RESPONSE) : Library :=
  {| BIO_new_mem_buf := fun _ => true;
     d2i_OCSP_RESPONSE_bio := fun _ => Some resp;
     X509_check_issued := fun _ _ => 0;
     ensureTrusted := fun _ _ => true;
     X509_STORE_new := true;
     X509_STORE_set_default_paths := 1;
     X509_STORE_load_locations := fun _ => 1;
     X509_STORE_CTX_new := true;
     X509_STORE_CTX_init := fun _ _ _ => 1;
     X509_STORE_add_cert := fun _ _ => 1;
     OCSP_basic_verify := fun _ _ _ => 1;
     OCSP_check_validity := check_validity;
     ASN1ToUint64 :=
       fun bs => fold_left (fun acc b => ((acc * 256 + Byte.to_N b) mod 2 ^ 64)%N) bs 0%N |}.

Definition response (st : ocspcertstatus_t) (rev : option ASN1_TIME) : OCSP_RESPONSE :=
  {| response_status := 0;
     basic := Some {| responses :=
                        [ {| certId_serialNumber := [x00; xff];
                             certStatus := st;
                             revocationTime := rev;
                             thisUpdate := Some (Some (jan_1_2020 0 0));
                             nextUpdate := Some (Some (jan_1_2020 0 30)) |} ];
                      signer := Some ca_cert;
                      certs := Some [ca_cert] |} |}.

(** 1 January 2030, 00:00:00 UTC. *)
Definition year_2030 : time_t := 1893456000.

Definition peer_cert : X509 :=
  {| subject_key_identifier := Some [x5a; x01; x02; x03];
     pva_cert_status_uri := Some (lit "CERT:STATUS:27975e6b:0000000000000255");
     serial_number := 255%N |}.

Definition plain_cert : X509 :=
  {| subject_key_identifier := Some [x5a; x01; x02; x03];
     pva_cert_status_uri := None;
     serial_number := 254%N |}.

(** A status certified until [valid_until]. *)
Definition peer_status (o : ocspcertstatus_t) (st : certstatus_t) (valid_until : time_t)
  : CertificateStatus :=
  {| ocsp := {| ocsp_bytes := token; ocsp_status := o;
                status_date := {| t := 1577836800 |};
                status_valid_until_date := {| t := valid_until |};
                revocation_date := {| t := 0 |} |};
     status := st |}.

(** A GOOD status certified until shortly after the start of 2030. *)
Definition good_peer : CertificateStatus :=
  peer_status OCSP_CERTSTATUS_GOOD VALID 1893457000.

Definition ex_data (cache : gmap N CertificateStatus) : CertStatusExData :=
  {| status_check_enabled := true; peer_statuses := cache |}.

Definition ctx (cert : X509) (err : Z) : X509_STORE_CTX :=
  {| current_cert := cert; error := err |}.

(** A GET that fails, and a GET that answers with [s]. *)
Definition get_fails (uri : std_string) : result CertificateStatus :=
  Throw std_runtime_error.
Definition get_answers (s : CertificateStatus) (uri : std_string)
  : result CertificateStatus := Ok s.

(** [pvxcert 27975e6b:7246297371190731775], answered by the CMS. *)
Definition status_query : tool.Run :=
  {| tool.argc := 2;
     tool.parsed :=
       inr {| tool.help := false; tool.verbose := false; tool.debug := false;
              tool.password_flag := false; tool.show_version := false;
              tool.cert_file := []; tool.format_str := [];
              tool.issuer_serial_string := lit "27975e6b:7246297371190731775";
              tool.approve := false; tool.revoke := false; tool.deny := false |};
     tool.build_throws := false;
     tool.cert_from_file := Throw std_runtime_error;
     tool.exec_throws := false;
     tool.wait := tool.Completed |}.

(** [pvxcert -f client.p12], interrupted with SIGINT before an answer. *)
Definition file_query_interrupted : tool.Run :=
  {| tool.argc := 3;
     tool.parsed :=
       inr {| tool.help := false; tool.verbose := false; tool.debug := false;
              tool.password_flag := false; tool.show_version := false;
              tool.cert_file := lit "client.p12"; tool.format_str := [];
              tool.issuer_serial_string := [];
              tool.approve := false; tool.revoke := false; tool.deny := false |};
     tool.build_throws := false;
     tool.cert_from_file := Ok (lit "CERT:STATUS:27975e6b:0000000000000255");
     tool.exec_throws := false;
     tool.wait := tool.Interrupted |}.

Definition row_100 : pvacms.row :=
  {| pvacms.serial := 255%N; pvacms.skid := lit "27975e6b"; pvacms.CN := lit "alice";
     pvacms.O := lit "epics"; pvacms.OU := []; pvacms.C := lit "US";
     pvacms.not_before := 10; pvacms.not_after := 100;
     pvacms.status := certstatus_i VALID; pvacms.status_date := 10 |}.

End sample.

(** * Further code *)

(** ** The civil calendar

    The Gregorian rules, to state what [tmToTimeTUTC] computes. Months are
    numbered from 0 as in [std::tm]. *)

Definition is_leap (year : Z) : bool :=
  (year mod 4 =? 0)%Z && (negb (year mod 100 =? 0)%Z || (year mod 400 =? 0)%Z).

Definition days_in_month (year mon : Z) : Z :=
  if (mon =? 1)%Z then (if is_leap year then 29 else 28)%Z
  else if (mon =? 3)%Z || (mon =? 5)%Z || (mon =? 8)%Z || (mon =? 10)%Z then 30%Z
  else 31%Z.

(** The range of a C [int], in which [tmToTimeTUTC] computes the year and
    the days up to the start of the year. *)
Definition int_range (z : Z) : Prop := (- 2 ^ 31 <= z < 2 ^ 31)%Z.

(** The values that [tmToTimeTUTC] computes as [int]s, one after the other:
    the year and the partial sums of the days up to its start. *)
Definition int_steps (x : tm) : list Z :=
  let year := (1900 + tm_year x)%Z in
  [ year;
    ((year - 1970) * 365)%Z;
    ((year - 1970) * 365 + Z.quot (year - 1969) 4)%Z;
    ((year - 1970) * 365 + Z.quot (year - 1969) 4 - Z.quot (year - 1901) 100)%Z;
    ((year - 1970) * 365 + Z.quot (year - 1969) 4 - Z.quot (year - 1901) 100
     + Z.quot (year - 1601) 400)%Z ].

(** A broken-down time that names a day and a time of day of the calendar,
    from 1970 to 9999: the years that the four digits of [CERT_TIME_FORMAT]
    and of an [ASN1_TIME] can name. *)
Definition civil (x : tm) : Prop :=
  (70 <= tm_year x <= 8099)%Z
  /\ (0 <= tm_mon x <= 11)%Z
  /\ (1 <= tm_mday x <= days_in_month (1900 + tm_year x) (tm_mon x))%Z
  /\ (0 <= tm_hour x <= 23)%Z /\ (0 <= tm_min x <= 59)%Z /\ (0 <= tm_sec x <= 59)%Z.

(** The same time of day on the following day. *)
Definition next_day (x : tm) : tm :=
  if (tm_mday x <? days_in_month (1900 + tm_year x) (tm_mon x))%Z then
    {| tm_sec := tm_sec x; tm_min := tm_min x; tm_hour := tm_hour x;
       tm_mday := tm_mday x + 1; tm_mon := tm_mon x; tm_year := tm_year x |}
  else if (tm_mon x <? 11)%Z then
    {| tm_sec := tm_sec x; tm_min := tm_min x; tm_hour := tm_hour x;
       tm_mday := 1; tm_mon := tm_mon x + 1; tm_year := tm_year x |}
  else
    {| tm_sec := tm_sec x; tm_min := tm_min x; tm_hour := tm_hour x;
       tm_mday := 1; tm_mon := 0; tm_year := tm_year x + 1 |}.

(** The time one second later. *)
Definition next_second (x : tm) : tm :=
  if (tm_sec x <? 59)%Z then
    {| tm_sec := tm_sec x + 1; tm_min := tm_min x; tm_hour := tm_hour x;
       tm_mday := tm_mday x; tm_mon := tm_mon x; tm_year := tm_year x |}
  else if (tm_min x <? 59)%Z then
    {| tm_sec := 0; tm_min := tm_min x + 1; tm_hour := tm_hour x;
       tm_mday := tm_mday x; tm_mon := tm_mon x; tm_year := tm_year x |}
  else if (tm_hour x <? 23)%Z then
    {| tm_sec := 0; tm_min := 0; tm_hour := tm_hour x + 1;
       tm_mday := tm_mday x; tm_mon := tm_mon x; tm_year := tm_year x |}
  else
    next_day {| tm_sec := 0; tm_min := 0; tm_hour := 0;
                tm_mday := tm_mday x; tm_mon := tm_mon x; tm_year := tm_year x |}.

Definition epoch : tm :=
  {| tm_sec := 0; tm_min := 0; tm_hour := 0; tm_mday := 1; tm_mon := 0; tm_year := 70 |}.

(** ** The other statements of the certificate database

    [SQL_CREATE_CERT] and [SQL_CERT_STATUS] are complete statements.
    [SQL_CERT_SET_STATUS] ends in a blank after its [WHERE] condition, for a
    further condition on the row that the caller may append
    ([getValidStatusesClause]); that condition is the parameter [clause]. *)

Module pvacms_sql.

Import pvacms.

(** [SQL_CREATE_CERT]. *)
Definition SQL_CREATE_CERT (r : row) (certs : list row) : list row := certs ++ [r].

(** [SQL_CERT_STATUS]: the columns [status] and [status_date] of the rows
    with the serial. *)
Definition SQL_CERT_STATUS (s : N) (certs : list row) : list (Z * Z) :=
  map (fun r => (status r, status_date r)) (List.filter (fun r => (serial r =? s)%N) certs).

(** [SQL_CERT_SET_STATUS]. *)
Definition SQL_CERT_SET_STATUS (clause : row -> bool) (new_status : Z) (s : N)
    (certs : list row) : list row :=
  map (fun r =>
         if (serial r =? s)%N && clause r
         then {| serial := serial r; skid := skid r; CN := CN r; O := O r; OU := OU r;
                 C := C r; not_before := not_before r; not_after := not_after r;
                 status := new_status; status_date := status_date r |}
         else r)
      certs.

End pvacms_sql.

(** ** The callback of a status subscription

    The function given to [CertStatusManager::subscribe] by
    [CertStatusExData::subscribeToCertStatus]: it runs under the lock of the
    extension data and calls [fn] afterwards when the goodness has changed. *)

(** Modelled from the spec: the overloads of [getCachedPeerStatus] and
    [setCachedPeerStatus] that take the serial number are declared in a
    header that is not among the sources; as for the overloads on a
    certificate, the entry is looked up and stored per serial, and the
    setter returns the status that was set. *)
Definition getCachedPeerStatus_serial (ex : CertStatusExData) (serial_number : N)
  : option CertificateStatus :=
  peer_statuses ex !! serial_number.

Definition setCachedPeerStatus_serial (ex : CertStatusExData) (serial_number : N)
    (s : CertificateStatus) : CertificateStatus * CertStatusExData :=
  (s, {| status_check_enabled := status_check_enabled ex;
         peer_statuses := <[serial_number := s]> (peer_statuses ex) |}).

(** The callback. [t_was] and [t_is] are the times read by the two calls of
    [isGood]. The result is the extension data afterwards and the argument
    of the call of [fn], if [fn] is called. *)
Definition status_callback (ex : CertStatusExData) (serial_number : N)
    (status : CertificateStatus) (t_was t_is : time_t) : CertStatusExData * option bool :=
  let previous_status := getCachedPeerStatus_serial ex serial_number in
  let was_good := match previous_status with
                  | Some p => isGood p t_was
                  | None => false
                  end in
  let '(current_status, ex') := setCachedPeerStatus_serial ex serial_number status in
  let is_good := isGood current_status t_is in
  (ex', if Bool.eqb is_good was_good then None else Some is_good).

(** The run [r] with another end of the wait. *)
Definition with_wait (r : tool.Run) (w : tool.wait_outcome) : tool.Run :=
  {| tool.argc := tool.argc r; tool.parsed := tool.parsed r;
     tool.build_throws := tool.build_throws r;
     tool.cert_from_file := tool.cert_from_file r;
     tool.exec_throws := tool.exec_throws r;
     tool.wait := w |}.

(** ** Setting up a TLS context

    [verifyKeyUsage], [extractCAs], [checkP12File], the three functions
    that read a PKCS#12 file, and [ossl_setup_common]. *)

Module tls.

(** [SSLError] derives from [std::runtime_error]. *)
Inductive tls_exn : Type := runtime_error | SSLError.

(** How a call ends: it returns, it throws, or an [assert] fails. *)
Inductive M (A : Type) : Type :=
  | Done (a : A)
  | Raise (e : tls_exn)
  | Abort.

Arguments Done {A} a.
Arguments Raise {A} e.
Arguments Abort {A}.

Definition mbind {A B : Type} (m : M A) (k : A -> M B) : M B :=
  match m with
  | Done a => k a
  | Raise e => Raise e
  | Abort => Abort
  end.

Notation "'run' x <- m ; k" := (mbind m (fun x => k))
  (at level 10, x name, m at level 100, k at level 200).

(** Constants of OpenSSL. *)
Definition EXFLAG_CA : Z := 0x10.
Definition EXFLAG_SI : Z := 0x20.
Definition EXFLAG_SS : Z := 0x2000.
Definition XKU_SSL_SERVER : Z := 0x1.
Definition XKU_SSL_CLIENT : Z := 0x2.
Definition SSL_VERIFY_PEER : Z := 0x01.
Definition SSL_VERIFY_FAIL_IF_NO_PEER_CERT : Z := 0x02.
Definition SSL_VERIFY_CLIENT_ONCE : Z := 0x04.
Definition TLS1_3_VERSION : Z := 0x0304.

Definition ossl_verify_depth : Z := 5.

Definition EVP_PKEY := list byte.
Definition PKCS12 := list byte.

(** The [SSL_CTX] as the setup leaves it: the protocol versions, the
    certificate and the key in use, the trust store, the chain, the
    certificate and the status-check flag kept in the extension data, and
    the mode and depth given to [SSL_CTX_set_verify] with [ossl_verify], if
    it was called. *)
Record SSL_CTX : Type := {
  min_proto_version : Z;
  max_proto_version : Z;
  certificate : option X509;
  private_key : option EVP_PKEY;
  trusted : list X509;
  chain : list X509;
  ex_status_check_enabled : bool;
  ex_cert : option X509;
  verify : option (Z * Z)
}.

Record SSLContext : Type := {
  ctx : SSL_CTX;
  status_check_disabled : bool;
  stapling_disabled : bool;
  has_cert : bool;
  cert_is_valid : bool
}.

Inductive ClientCertRequired : Type := Default | Optional | Require.

(** The members of [impl::ConfigCommon] that the setup reads;
    [isTlsConfigured] is the value of the method of that name. *)
Record ConfigCommon : Type := {
  tls_disable_status_check : bool;
  tls_disable_stapling : bool;
  tls_disabled : bool;
  isTlsConfigured : bool;
  tls_cert_filename : std_string;
  tls_cert_password : std_string;
  tls_private_key_filename : std_string;
  tls_private_key_password : std_string;
  tls_client_cert_required : ClientCertRequired
}.

(** What the setup calls and does not define. A file that [fopen] cannot
    open has no contents; [PKCS12_parse] gives the key, the certificate and
    the other certificates of the bag, or fails; the functions on an
    [SSL_CTX] answer the [int] that OpenSSL returns. *)
Record Library : Type := {
  X509_get_extension_flags : X509 -> Z;
  X509_get_extended_key_usage : X509 -> Z;
  X509_check_ca : X509 -> Z;
  fopen : std_string -> option (list byte);
  d2i_PKCS12_fp : list byte -> option PKCS12;
  PKCS12_parse : PKCS12 -> std_string -> option (option EVP_PKEY * option X509 * list X509);
  SSL_CTX_new_ex : bool;
  SSL_CTX_set_ex_data : Z;
  SSL_CTX_use_certificate : SSL_CTX -> X509 -> Z;
  SSL_CTX_use_PrivateKey : SSL_CTX -> EVP_PKEY -> Z;
  X509_STORE_add_cert : list X509 -> X509 -> Z;
  SSL_CTX_add0_chain_cert : SSL_CTX -> X509 -> Z;
  SSL_CTX_check_private_key : SSL_CTX -> Z;
  SSL_CTX_build_cert_chain : SSL_CTX -> Z
}.

Definition std_string_eqb (a b : std_string) : bool :=
  if List.list_eq_dec Ascii.ascii_dec a b then true else false.

Section Setup.

Variable lib : Library.

(** [ssl::kForClient] and [ssl::kForServer], constants of a header that is
    not among the sources. *)
Variable kForClient kForServer : Z.

(** [verifyKeyUsage]. *)
Definition verifyKeyUsage (cert : X509) (ssl_client : bool) : M unit :=
  let flags := X509_get_extension_flags lib cert in
  let kusage := X509_get_extended_key_usage lib cert in
  if negb (Z.land flags EXFLAG_CA =? 0)%Z then Raise runtime_error
  else if (ssl_client && (Z.land kusage XKU_SSL_CLIENT =? 0)%Z)
          || (negb ssl_client && (Z.land kusage XKU_SSL_SERVER =? 0)%Z)
  then Raise runtime_error
  else Done tt.

Definition add_trusted (c : SSL_CTX) (ca : X509) : SSL_CTX :=
  {| min_proto_version := min_proto_version c; max_proto_version := max_proto_version c;
     certificate := certificate c; private_key := private_key c;
     trusted := trusted c ++ [ca]; chain := chain c;
     ex_status_check_enabled := ex_status_check_enabled c; ex_cert := ex_cert c;
     verify := verify c |}.

Definition add_chain_cert (c : SSL_CTX) (ca : X509) : SSL_CTX :=
  {| min_proto_version := min_proto_version c; max_proto_version := max_proto_version c;
     certificate := certificate c; private_key := private_key c;
     trusted := trusted c; chain := chain c ++ [ca];
     ex_status_check_enabled := ex_status_check_enabled c; ex_cert := ex_cert c;
     verify := verify c |}.

(** [extractCAs]: the loop, from index [i] on. *)
Fixpoint extractCAs_from (i : nat) (CAs : list X509) (c : SSL_CTX) : M SSL_CTX :=
  match CAs with
  | [] => Done c
  | ca :: rest =>
      let canSign := X509_check_ca lib ca in
      let flags := X509_get_extension_flags lib ca in
      if (canSign =? 0)%Z && negb (Nat.eqb i 0) then Raise runtime_error
      else
        run c1 <-
          (if negb (Z.land flags EXFLAG_SS =? 0)%Z then
             if (Z.land flags EXFLAG_SI =? 0)%Z then Abort
             else if (X509_STORE_add_cert lib (trusted c) ca =? 0)%Z then Raise SSLError
             else Done (add_trusted c ca)
           else Done c);
        if (SSL_CTX_add0_chain_cert lib c1 ca =? 0)%Z then Raise SSLError
        else extractCAs_from (S i) rest (add_chain_cert c1 ca)
  end.

Definition extractCAs (c : SSL_CTX) (CAs : list X509) : M SSL_CTX :=
  extractCAs_from 0 CAs c.

(** [checkP12File]; [fp] is the file opened, if it could be. The result
    is the PKCS#12 object read when the function returns [true], and
    nothing when it returns [false]. *)
Definition checkP12File (fp : option (list byte)) (usage : Z) : M (option PKCS12) :=
  match (match fp with Some f => d2i_PKCS12_fp lib f | None => None end) with
  | Some p12 => Done (Some p12)
  | None =>
      if (usage =? kForClient)%Z then Done None
      else Raise runtime_error
  end.

(** The three references that [getKeyAndCertFromP12File] fills. *)
Definition outs : Type := (option EVP_PKEY * option X509 * list X509)%type.

(** [getKeyAndCertFromP12File]. *)
Definition getKeyAndCertFromP12File (filename password : std_string) (ssl_client : bool)
    (out : outs) (get_key get_cert : bool) : M (bool * outs) :=
  let '(key, cert, CAs) := out in
  let fp := fopen lib filename in
  run chk <- checkP12File fp (if ssl_client then kForClient else kForServer);
  match chk with
  | None => Done (false, out)
  | Some p12 =>
      match PKCS12_parse lib p12 password with
      | None => Raise SSLError
      | Some (k, c, cas) =>
          if get_key && get_cert then Done (true, (k, c, cas))
          else if get_key then Done (true, (k, cert, CAs))
          else Done (true, (key, c, cas))
      end
  end.

(** [getKeyFromP12File]. *)
Definition getKeyFromP12File (filename password : std_string) (ssl_client : bool)
    (key : option EVP_PKEY) : M (bool * option EVP_PKEY) :=
  run r <- getKeyAndCertFromP12File filename password ssl_client (key, None, []) true false;
  let '(ok, (k, _, _)) := r in Done (ok, k).

(** [getCertFromP12File]. *)
Definition getCertFromP12File (filename password : std_string) (ssl_client : bool)
    (cert : option X509) (CAs : list X509) : M (bool * (option X509 * list X509)) :=
  run r <- getKeyAndCertFromP12File filename password ssl_client (None, cert, CAs) false true;
  let '(ok, (_, c, cas)) := r in Done (ok, (c, cas)).

(** The context that [ossl_setup_common] starts from, after
    [SSL_CTX_new_ex], [SSL_CTX_set_ex_data] and the two calls that set the
    protocol versions. [SSLContext] and [CertStatusExData] are declared in
    a header that is not among the sources: a default-constructed
    [SSLContext] is taken to have [has_cert] and [cert_is_valid] false, and
    the constructor of [CertStatusExData] to store its argument as
    [status_check_enabled]. *)
Definition fresh_context (conf : ConfigCommon) : SSLContext :=
  {| ctx := {| min_proto_version := TLS1_3_VERSION; max_proto_version := 0;
               certificate := None; private_key := None; trusted := []; chain := [];
               ex_status_check_enabled := negb (tls_disable_status_check conf);
               ex_cert := None; verify := None |};
     status_check_disabled := tls_disable_status_check conf;
     stapling_disabled := tls_disable_stapling conf;
     has_cert := false;
     cert_is_valid := false |}.

Definition with_ctx (t : SSLContext) (c : SSL_CTX) : SSLContext :=
  {| ctx := c; status_check_disabled := status_check_disabled t;
     stapling_disabled := stapling_disabled t; has_cert := has_cert t;
     cert_is_valid := cert_is_valid t |}.

Definition set_certificate (c : SSL_CTX) (x : X509) : SSL_CTX :=
  {| min_proto_version := min_proto_version c; max_proto_version := max_proto_version c;
     certificate := Some x; private_key := private_key c;
     trusted := trusted c; chain := chain c;
     ex_status_check_enabled := ex_status_check_enabled c; ex_cert := ex_cert c;
     verify := verify c |}.

Definition set_private_key (c : SSL_CTX) (k : EVP_PKEY) : SSL_CTX :=
  {| min_proto_version := min_proto_version c; max_proto_version := max_proto_version c;
     certificate := certificate c; private_key := Some k;
     trusted := trusted c; chain := chain c;
     ex_status_check_enabled := ex_status_check_enabled c; ex_cert := ex_cert c;
     verify := verify c |}.

Definition set_ex_cert (c : SSL_CTX) (x : X509) : SSL_CTX :=
  {| min_proto_version := min_proto_version c; max_proto_version := max_proto_version c;
     certificate := certificate c; private_key := private_key c;
     trusted := trusted c; chain := chain c;
     ex_status_check_enabled := ex_status_check_enabled c; ex_cert := Some x;
     verify := verify c |}.

Definition set_verify (c : SSL_CTX) (mode depth : Z) : SSL_CTX :=
  {| min_proto_version := min_proto_version c; max_proto_version := max_proto_version c;
     certificate := certificate c; private_key := private_key c;
     trusted := trusted c; chain := chain c;
     ex_status_check_enabled := ex_status_check_enabled c; ex_cert := ex_cert c;
     verify := Some (mode, depth) |}.

(** The last block of [ossl_setup_common]: the verification mode, the hook
    and the depth. *)
Definition install_verify (ssl_client : bool) (conf : ConfigCommon) (t : SSLContext)
  : SSLContext :=
  let mode := Z.lor SSL_VERIFY_PEER SSL_VERIFY_CLIENT_ONCE in
  let mode :=
    if negb ssl_client
       && match tls_client_cert_required conf with Require => true | _ => false end
    then Z.lor mode SSL_VERIFY_FAIL_IF_NO_PEER_CERT else mode in
  with_ctx t (set_verify (ctx t) mode ossl_verify_depth).

(** The part of [ossl_setup_common] that runs once the key, the
    certificate and the other certificates have been read. *)
Definition use_key_and_cert (ssl_client : bool) (t : SSLContext)
    (key : option EVP_PKEY) (cert : option X509) (CAs : list X509) : M SSLContext :=
  run _ <- match cert with
           | Some x => verifyKeyUsage x ssl_client
           | None => Done tt
           end;
  run c1 <- match cert with
            | Some x => if (SSL_CTX_use_certificate lib (ctx t) x =? 0)%Z then Raise SSLError
                        else Done (set_certificate (ctx t) x)
            | None => Done (ctx t)
            end;
  run c2 <- match key with
            | Some k => if (SSL_CTX_use_PrivateKey lib c1 k =? 0)%Z then Raise SSLError
                        else Done (set_private_key c1 k)
            | None => Done c1
            end;
  run c3 <- extractCAs c2 CAs;
  if match key with
     | Some _ => (SSL_CTX_check_private_key lib c3 =? 0)%Z
     | None => false
     end
  then Raise SSLError
  else
    match cert with
    | Some x =>
        let c4 := set_ex_cert c3 x in
        if (SSL_CTX_build_cert_chain lib c4 =? 0)%Z then Raise SSLError
        else Done {| ctx := c4; status_check_disabled := status_check_disabled t;
                     stapling_disabled := stapling_disabled t; has_cert := true;
                     cert_is_valid := if status_check_disabled t then true
                                      else cert_is_valid t |}
    | None => Done (with_ctx t c3)
    end.

(** [ossl_setup_common]. *)
Definition ossl_setup_common (ssl_client : bool) (conf : ConfigCommon) : M SSLContext :=
  if negb (SSL_CTX_new_ex lib) then Raise SSLError
  else if (SSL_CTX_set_ex_data lib =? 0)%Z then Raise SSLError
  else
    let tls_context := fresh_context conf in
    if ssl_client && tls_disabled conf then Done tls_context
    else if isTlsConfigured conf then
      let filename := tls_cert_filename conf in
      let password := tls_cert_password conf in
      let key_filename := match tls_private_key_filename conf with
                          | [] => filename
                          | f => f
                          end in
      let key_password := match tls_private_key_password conf with
                          | [] => password
                          | p => p
                          end in
      run loaded <-
        (if std_string_eqb key_filename filename then
           run r <- getKeyAndCertFromP12File filename password ssl_client
                      (None, None, []) true true;
           Done r
         else
           run rk <- getKeyFromP12File key_filename key_password ssl_client None;
           let '(okk, key) := rk in
           if negb okk then Done (false, (key, None, []))
           else
             run rc <- getCertFromP12File filename password ssl_client None [];
             let '(okc, (cert, CAs)) := rc in
             Done (okc, (key, cert, CAs)));
      let '(ok, (key, cert, CAs)) := loaded in
      if negb ok then Done tls_context
      else
        run t1 <- use_key_and_cert ssl_client tls_context key cert CAs;
        Done (install_verify ssl_client conf t1)
    else Done (install_verify ssl_client conf tls_context).

(** The fields of the [SSL_CTX] that [extractCAs] does not touch. *)
Definition same_but_stores (c c' : SSL_CTX) : Prop :=
  min_proto_version c' = min_proto_version c
  /\ max_proto_version c' = max_proto_version c
  /\ certificate c' = certificate c
  /\ private_key c' = private_key c
  /\ ex_status_check_enabled c' = ex_status_check_enabled c
  /\ ex_cert c' = ex_cert c
  /\ verify c' = verify c.

(** The test of [extractCAs] for a root certificate. *)
Definition self_signed (ca : X509) : bool :=
  negb (Z.land (X509_get_extension_flags lib ca) EXFLAG_SS =? 0)%Z.

End Setup.

End tls.

Module tls_sample.

Import tls.

Local Open Scope Z_scope.

(** A library in which the file [server.p12] holds a key, the certificate
    [sample.peer_cert] and the root [sample.ca_cert], no other file exists,
    and every call on the context succeeds. *)
Definition lib : Library :=
  {| X509_get_extension_flags :=
       fun x => if (serial_number x =? 1)%N then 0x2030 else 0;
     X509_get_extended_key_usage := fun _ => 3;
     X509_check_ca := fun x => if (serial_number x =? 1)%N then 1 else 0;
     fopen := fun f => if std_string_eqb f (lit "server.p12") then Some [x30] else None;
     d2i_PKCS12_fp := fun f => Some f;
     PKCS12_parse := fun _ _ => Some (Some [x01], Some sample.peer_cert, [sample.ca_cert]);
     SSL_CTX_new_ex := true;
     SSL_CTX_set_ex_data := 1;
     SSL_CTX_use_certificate := fun _ _ => 1;
     SSL_CTX_use_PrivateKey := fun _ _ => 1;
     X509_STORE_add_cert := fun _ _ => 1;
     SSL_CTX_add0_chain_cert := fun _ _ => 1;
     SSL_CTX_check_private_key := fun _ => 1;
     SSL_CTX_build_cert_chain := fun _ => 1 |}.

Definition conf (file : std_string) : ConfigCommon :=
  {| tls_disable_status_check := false;
     tls_disable_stapling := false;
     tls_disabled := false;
     isTlsConfigured := true;
     tls_cert_filename := file;
     tls_cert_password := [];
     tls_private_key_filename := [];
     tls_private_key_password := [];
     tls_client_cert_required := Require |}.

(** The context that the library above gives a server configured with
    [server.p12]. *)
Definition server_context : SSLContext :=
  {| ctx := {| min_proto_version := TLS1_3_VERSION; max_proto_version := 0;
               certificate := Some sample.peer_cert; private_key := Some [x01];
               trusted := [sample.ca_cert]; chain := [sample.ca_cert];
               ex_status_check_enabled := true;
               ex_cert := Some sample.peer_cert; verify := Some (7, 5) |};
     status_check_disabled := false;
     stapling_disabled := false;
     has_cert := true;
     cert_is_valid := false |}.

End tls_sample.

(** ** Reading messages from a connection

    [ServerConn::bevRead]: the loop that takes messages off the input
    buffer, checks their headers, joins segmented messages, and hands each
    complete message to its handler. *)

Module conn.

(** The bits of the flags byte, [pva_flags] of a header that is not among
    the sources. *)
Record Flags : Type := {
  Control : Z;
  SegFirst : Z;
  SegLast : Z;
  SegMask : Z;
  Server : Z;
  MSB : Z
}.

Definition tcp_readahead : N := 0x1000.

(** [std::numeric_limits<size_t>::max()], for a 64-bit [size_t]. *)
Definition SIZE_MAX : N := 2 ^ 64 - 1.

Definition u8 (b : byte) : Z := Z.of_N (Byte.to_N b).

(** [from_wire] of a [uint32_t] through a [FixedBuf] of four bytes with the
    byte order [be]. *)
Definition from_wire_u32 (be : bool) (b0 b1 b2 b3 : byte) : N :=
  if be
  then (((Byte.to_N b0 * 256 + Byte.to_N b1) * 256 + Byte.to_N b2) * 256 + Byte.to_N b3)%N
  else (((Byte.to_N b3 * 256 + Byte.to_N b2) * 256 + Byte.to_N b1) * 256 + Byte.to_N b0)%N.

Section Read.

(** The rest of the connection, which the handlers work on. *)
Variable A : Type.

Variable flags : Flags.

(** The [switch] on the command with the handlers [handle_Echo],
    [handle_ConnValid] and the others, whose command codes are in a header
    that is not among the sources: a handler is given the command, the body
    collected in [segBuf] and the byte order of the peer, works on the rest
    of the connection, and says whether it left [bev] set; an unexpected
    command leaves everything as it is. *)
Variable handle : Z -> list byte -> bool -> A -> A * bool.

(** Length of the output buffer of the connection. *)
Variable tx_length : A -> N.

Record ServerConn : Type := {
  rx : list byte;
  bev : bool;
  peerBE : bool;
  expectSeg : bool;
  segCmd : Z;
  segBuf : list byte;
  read_watermark : N * N;
  read_enabled : bool;
  write_watermark : N * N;
  in_connections : bool;
  app : A
}.

(** One round of the loop either goes on, or leaves the loop, or - when a
    handler has reset [bev] - calls [bufferevent_setwatermark] without a
    bufferevent, which the sources do not define. *)
Inductive round : Type :=
  | Continue (c : ServerConn)
  | Break (c : ServerConn)
  | Undefined.

Definition nonzero (z : Z) : bool := negb (z =? 0)%Z.

(** The body of the [while] loop of [bevRead]. *)
Definition bevRead_round (c : ServerConn) : round :=
  match rx c with
  | h0 :: h1 :: h2 :: h3 :: l0 :: l1 :: l2 :: l3 :: rest =>
      if negb (u8 h0 =? 0xca)%Z || (u8 h1 =? 0)%Z || nonzero (Z.land (u8 h2) (Server flags))
      then Break {| rx := rx c; bev := false; peerBE := peerBE c; expectSeg := expectSeg c;
                    segCmd := segCmd c; segBuf := segBuf c;
                    read_watermark := read_watermark c; read_enabled := read_enabled c;
                    write_watermark := write_watermark c;
                    in_connections := in_connections c; app := app c |}
      else if nonzero (Z.land (u8 h2) (Control flags))
      then Continue {| rx := rest; bev := bev c; peerBE := peerBE c;
                       expectSeg := expectSeg c; segCmd := segCmd c; segBuf := segBuf c;
                       read_watermark := read_watermark c; read_enabled := read_enabled c;
                       write_watermark := write_watermark c;
                       in_connections := in_connections c; app := app c |}
      else
        let be := nonzero (Z.land (u8 h2) (MSB flags)) in
        let len := from_wire_u32 be l0 l1 l2 l3 in
        if (N.of_nat (length (rx c)) - 8 <? len)%N
        then
          let readahead := if (len <? SIZE_MAX - tcp_readahead)%N
                           then (len + tcp_readahead)%N else len in
          Break {| rx := rx c; bev := bev c; peerBE := be; expectSeg := expectSeg c;
                   segCmd := segCmd c; segBuf := segBuf c;
                   read_watermark := (len, readahead); read_enabled := read_enabled c;
                   write_watermark := write_watermark c;
                   in_connections := in_connections c; app := app c |}
        else
          let body := firstn (N.to_nat len) rest in
          let rx' := skipn (N.to_nat len) rest in
          let segBuf' := segBuf c ++ body in
          let seg := Z.land (u8 h2) (SegMask flags) in
          let continuation := nonzero (Z.land seg (SegLast flags)) in
          if xorb continuation (expectSeg c)
             || (continuation && negb (u8 h3 =? segCmd c)%Z)
          then Break {| rx := rx'; bev := false; peerBE := be; expectSeg := expectSeg c;
                        segCmd := segCmd c; segBuf := segBuf';
                        read_watermark := read_watermark c; read_enabled := read_enabled c;
                        write_watermark := write_watermark c;
                        in_connections := in_connections c; app := app c |}
          else
            let first := (seg =? 0)%Z || (seg =? SegFirst flags)%Z in
            let expectSeg1 := if first then true else expectSeg c in
            let segCmd1 := if first then u8 h3 else segCmd c in
            if (seg =? 0)%Z || (seg =? SegLast flags)%Z
            then
              let '(a', alive) := handle segCmd1 segBuf' be (app c) in
              if alive
              then Continue {| rx := rx'; bev := true; peerBE := be; expectSeg := false;
                               segCmd := segCmd1; segBuf := [];
                               read_watermark := (8%N, tcp_readahead);
                               read_enabled := read_enabled c;
                               write_watermark := write_watermark c;
                               in_connections := in_connections c; app := a' |}
              else Undefined
            else Continue {| rx := rx'; bev := bev c; peerBE := be; expectSeg := expectSeg1;
                             segCmd := segCmd1; segBuf := segBuf';
                             read_watermark := read_watermark c;
                             read_enabled := read_enabled c;
                             write_watermark := write_watermark c;
                             in_connections := in_connections c; app := app c |}
  | _ => Break c
  end.

(** The [while] loop: rounds as long as [bev] is set and the input holds a
    header. *)
Fixpoint bevRead_loop (fuel : nat) (c : ServerConn) : option ServerConn :=
  match fuel with
  | O => None
  | S fuel' =>
      if bev c && (8 <=? length (rx c))%nat
      then match bevRead_round c with
           | Continue c' => bevRead_loop fuel' c'
           | Break c' => Some c'
           | Undefined => None
           end
      else Some c
  end.

(** The states in which the loop, started on [c], begins a round. *)
Inductive passes (c : ServerConn) : ServerConn -> Prop :=
  | passes_first :
      bev c = true -> (8 <= length (rx c))%nat -> passes c c
  | passes_next (c1 c2 : ServerConn) :
      passes c c1 -> bevRead_round c1 = Continue c2 ->
      bev c2 = true -> (8 <= length (rx c2))%nat -> passes c c2.

(** [ServerConn::cleanup]: the connection leaves the list of its
    interface. *)
Definition cleanup (c : ServerConn) : ServerConn :=
  {| rx := rx c; bev := bev c; peerBE := peerBE c; expectSeg := expectSeg c;
     segCmd := segCmd c; segBuf := segBuf c; read_watermark := read_watermark c;
     read_enabled := read_enabled c; write_watermark := write_watermark c;
     in_connections := false; app := app c |}.

(** [ServerConn::bevRead]. The result is [None] where the sources do not
    define it. *)
Definition bevRead (c : ServerConn) : option ServerConn :=
  match bevRead_loop (S (length (rx c))) c with
  | None => None
  | Some c1 =>
      if negb (bev c1) then Some (cleanup c1)
      else if (0x100000 <=? tx_length (app c1))%N
      then Some {| rx := rx c1; bev := bev c1; peerBE := peerBE c1;
                   expectSeg := expectSeg c1; segCmd := segCmd c1; segBuf := segBuf c1;
                   read_watermark := read_watermark c1; read_enabled := false;
                   write_watermark := (0x80000%N, 0%N);
                   in_connections := in_connections c1; app := app c1 |}
      else Some c1
  end.

End Read.

(** The eight bytes of a header with the given version, flags, command and
    payload length, in the byte order [be]. *)
Definition byte_of (n : N) : byte :=
  match Byte.of_N (n mod 256) with Some b => b | None => x00 end.

Definition header (be : bool) (version flags_byte command : byte) (len : N) : list byte :=
  [xca; version; flags_byte; command]
  ++ (if be
      then [byte_of (len / 16777216); byte_of (len / 65536); byte_of (len / 256); byte_of len]
      else [byte_of len; byte_of (len / 256); byte_of (len / 65536); byte_of (len / 16777216)]).

(** The flag bits of the PV Access protocol. *)
Definition pva_flags : Flags :=
  {| Control := 0x01; SegFirst := 0x10; SegLast := 0x20; SegMask := 0x30;
     Server := 0x40; MSB := 0x80 |}.

Arguments rx {A} _.
Arguments bev {A} _.
Arguments peerBE {A} _.
Arguments expectSeg {A} _.
Arguments segCmd {A} _.
Arguments segBuf {A} _.
Arguments read_watermark {A} _.
Arguments read_enabled {A} _.
Arguments write_watermark {A} _.
Arguments in_connections {A} _.
Arguments app {A} _.
Arguments Continue {A} _.
Arguments Break {A} _.
Arguments Undefined {A}.
Arguments bevRead_round {A} _ _ _.
Arguments bevRead_loop {A} _ _ _ _.
Arguments cleanup {A} _.
Arguments passes {A} _ _ _ _.
Arguments passes_first {A} _ _ _ _ _.
Arguments passes_next {A} _ _ _ _ _ _ _ _ _.
Arguments bevRead {A} _ _ _ _.

(** A message as a peer sends it: one header and the payload that the
    header announces, in the byte order that the flags byte names. *)
Record Message : Type := {
  version : byte;
  flags_byte : byte;
  command : byte;
  payload : list byte
}.

Definition byte_order (flags : Flags) (m : Message) : bool :=
  nonzero (Z.land (u8 (flags_byte m)) (MSB flags)).

Definition frame (flags : Flags) (m : Message) : list byte :=
  header (byte_order flags m) (version m) (flags_byte m) (command m)
         (N.of_nat (length (payload m)))
  ++ payload m.

(** The segmentation bits of a message. *)
Definition seg (flags : Flags) (m : Message) : Z :=
  Z.land (u8 (flags_byte m)) (SegMask flags).

(** An application message from a client, of a length that the header can
    hold. *)
Definition application (flags : Flags) (m : Message) : Prop :=
  version m <> x00
  /\ Z.land (u8 (flags_byte m)) (Server flags) = 0%Z
  /\ Z.land (u8 (flags_byte m)) (Control flags) = 0%Z
  /\ (N.of_nat (length (payload m)) < 2 ^ 32)%N.

(** A message in one piece, and the first, a middle and the last segment of
    a message in several. *)
Definition whole (flags : Flags) (m : Message) : Prop :=
  application flags m /\ seg flags m = 0%Z.

Definition first_segment (flags : Flags) (m : Message) : Prop :=
  application flags m /\ seg flags m = SegFirst flags.

Definition middle_segment (flags : Flags) (m : Message) : Prop :=
  application flags m
  /\ Z.land (seg flags m) (SegLast flags) <> 0%Z
  /\ seg flags m <> SegLast flags.

Definition last_segment (flags : Flags) (m : Message) : Prop :=
  application flags m /\ seg flags m = SegLast flags.

(** What the segmentation bits must satisfy for the three kinds of segment
    to be told apart. *)
Definition segment_bits (flags : Flags) : Prop :=
  SegFirst flags <> 0%Z
  /\ SegLast flags <> 0%Z
  /\ Z.land (SegFirst flags) (SegLast flags) = 0%Z.

(** What a peer sends for one request: a message in one piece, or its
    first segment followed by middle segments and the last one, all with the
    command of the first. *)
Record Transfer : Type := {
  leading : Message;
  trailing : list Message
}.

Definition segments (t : Transfer) : list Message := leading t :: trailing t.

Definition valid_transfer (flags : Flags) (t : Transfer) : Prop :=
  (trailing t = [] /\ whole flags (leading t))
  \/ (first_segment flags (leading t)
      /\ exists (mids : list Message) (l : Message),
           trailing t = mids ++ [l]
           /\ Forall (fun m => middle_segment flags m
                               /\ command m = command (leading t)) mids
           /\ last_segment flags l
           /\ command l = command (leading t)).

Definition transfer_body (t : Transfer) : list byte :=
  concat (map payload (segments t)).

Definition transfer_order (flags : Flags) (t : Transfer) : bool :=
  byte_order flags (List.last (trailing t) (leading t)).

Definition wire (flags : Flags) (ts : list Transfer) : list byte :=
  concat (map (frame flags) (concat (map segments ts))).

(** The handler call that a transfer ends in, applied to the rest of the
    connection. *)
Definition deliver {A : Type} (flags : Flags)
    (handle : Z -> list byte -> bool -> A -> A * bool) (a : A) (t : Transfer) : A :=
  fst (handle (u8 (command (leading t))) (transfer_body t) (transfer_order flags t) a).

(** The handler calls that the transfers [ts] end in, one after the other
    from the state [a], all leave the bufferevent set. *)
Fixpoint kept {A : Type} (flags : Flags)
    (handle : Z -> list byte -> bool -> A -> A * bool) (ts : list Transfer) (a : A)
  : Prop :=
  match ts with
  | [] => True
  | t :: rest =>
      snd (handle (u8 (command (leading t))) (transfer_body t) (transfer_order flags t) a)
      = true
      /\ kept flags handle rest (deliver flags handle a t)
  end.

End conn.

Module conn_sample.

Import conn.

(** A connection whose handlers record what they are given; the handler
    of the command [0x0b] resets the bufferevent when the body is empty, as
    a handler does that cannot decode its body. *)
Definition log : Type := list (Z * list byte * bool).

Definition handle (cmd : Z) (body : list byte) (be : bool) (a : log) : log * bool :=
  (a ++ [(cmd, body, be)],
   negb ((cmd =? 0x0b)%Z && match body with [] => true | _ => false end)).

Definition tx_length (a : log) : N := 0.

Definition idle (input : list byte) : ServerConn log :=
  {| rx := input; bev := true; peerBE := false; expectSeg := false; segCmd := 0;
     segBuf := []; read_watermark := (8%N, tcp_readahead); read_enabled := true;
     write_watermark := (0%N, 0%N); in_connections := true; app := [] |}.

Definition message (fb cmd : byte) (body : list byte) : Message :=
  {| version := x02; flags_byte := fb; command := cmd; payload := body |}.

Definition echo : Message := message x80 x02 [x01; x02; x03].

Definition search : Message := message x00 x03 [x0a; x0b].

Definition part1 : Message := message x10 x07 [x01; x02].

Definition part2 : Message := message x30 x07 [x03].

Definition part3 : Message := message x20 x07 [x04; x05].

Definition transfers : list Transfer :=
  [ {| leading := echo; trailing := [] |};
    {| leading := part1; trailing := [part2; part3] |};
    {| leading := search; trailing := [] |} ].

(** A request that the handler of [0x0b] cannot decode. *)
Definition truncated : Message := message x00 x0b [].

End conn_sample.

(** ** The channel tables of a server connection

    [handle_CreateChan] and [handle_DestroyChan] of [serverconn.cpp] keep
    two [std::map]s: [chanBySID] owns the channels, [chanByCID] points from
    the client's id to the entry of [chanBySID], which is modelled by the
    key of that entry. Both ids and [nextSID] are [uint32_t]. The decoding
    of the request body and the encoding of the replies are in headers that
    are not among the sources: the handlers are given the decoded fields
    and whether the decoder is still good, and give back the fields of the
    replies. Running out of memory is not modelled. *)

Module Status.

Inductive code_t : Type := Ok | Warn | Error | Fatal.

(** The message is dropped; the trace tells the causes apart. *)
Record t : Type := { code : code_t; trace : string }.

End Status.

Module chan.

Local Open Scope N_scope.

(** A step ends, or stops at an [assert] that fails, or is a [do]-[while]
    loop that has not ended when the fuel is used up. *)
Inductive run (A : Type) : Type :=
  | Done (a : A)
  | Abort
  | Spin.

Arguments Done {A} a.
Arguments Abort {A}.
Arguments Spin {A}.

(** [std::map::emplace]: nothing is stored under a key that is in use. *)
Definition emplace {V : Type} (k : N) (v : V) (m : gmap N V) : gmap N V * bool :=
  match m !! k with
  | Some _ => (m, false)
  | None => (<[k := v]> m, true)
  end.

Record Reply : Type := {
  reply_cid : N;
  reply_sid : N;
  reply_sts : Status.t
}.

Section Channels.

Variable Handler : Type.

(** [Status::isSuccess], of a header that is not among the sources. *)
Variable isSuccess : Status.t -> bool.

(** [onCreate] of the sources of the server, in the order of the map. *)
Variable sources : list (std_string -> result (option Handler)).

Record ServerChannel : Type := {
  sid : N;
  cid : N;
  name : std_string;
  handler : Handler
}.

Record Tables : Type := {
  chanBySID : gmap N ServerChannel;
  chanByCID : gmap N N;
  nextSID : N
}.

(** The loop over the sources: the first handler that a source returns;
    a source that throws is passed over. *)
Fixpoint first_handler (ss : list (std_string -> result (option Handler)))
    (nm : std_string) : option Handler :=
  match ss with
  | [] => None
  | s :: rest =>
      match s nm with
      | Ok (Some h) => Some h
      | _ => first_handler rest nm
      end
  end.

(** [do { sid = nextSID++; } while(chanBySID.find(sid)!=chanBySID.end());]
    gives the id found and the new [nextSID]. *)
Fixpoint alloc_sid (fuel : nat) (next : N) (m : gmap N ServerChannel) : option (N * N) :=
  match fuel with
  | O => None
  | S fuel' =>
      let s := next in
      let next' := (next + 1) mod 2 ^ 32 in
      match m !! s with
      | Some _ => alloc_sid fuel' next' m
      | None => Some (s, next')
      end
  end.

Definition full (t : Tables) : bool :=
  (N.of_nat (size (chanByCID t)) =? 0xffffffff)
  || (N.of_nat (size (chanBySID t)) =? 0xffffffff).

(** The body of the loop of [handle_CreateChan] for one decoded request. *)
Definition create (t : Tables) (c : N) (nm : std_string) : run (Tables * Reply) :=
  let sts := {| Status.code := Status.Ok; Status.trace := "" |} in
  let sts := if full t
             then {| Status.code := Status.Error;
                     Status.trace := "pvx:serv:chanidoverflow:" |}
             else sts in
  let sts := if isSuccess sts && bool_decide (is_Some (chanByCID t !! c))
             then {| Status.code := Status.Fatal; Status.trace := "pvx:serv:dupcid:" |}
             else sts in
  let h := if isSuccess sts && negb (tool.is_empty nm)
           then first_handler sources nm else None in
  match (if isSuccess sts then h else None) with
  | Some h' =>
      match alloc_sid (S (size (chanBySID t))) (nextSID t) (chanBySID t) with
      | None => Spin
      | Some (s, next') =>
          let '(bySID', inserted) :=
            emplace s {| sid := s; cid := c; name := nm; handler := h' |} (chanBySID t) in
          let '(byCID', inserted2) := emplace c s (chanByCID t) in
          if inserted && inserted2
          then Done ({| chanBySID := bySID'; chanByCID := byCID'; nextSID := next' |},
                     {| reply_cid := c; reply_sid := s; reply_sts := sts |})
          else Abort
      end
  | None =>
      let sts := if isSuccess sts
                 then {| Status.code := Status.Fatal;
                         Status.trace := "pvx:serv:nosource:" |}
                 else sts in
      Done (t, {| reply_cid := c; reply_sid := 0xffffffff; reply_sts := sts |})
  end.

(** The loop of [handle_CreateChan] over the requests decoded from the
    body. *)
Fixpoint create_all (t : Tables) (requests : list (N * std_string))
    : run (Tables * list Reply) :=
  match requests with
  | [] => Done (t, [])
  | (c, nm) :: rest =>
      match create t c nm with
      | Done (t1, r) =>
          match create_all t1 rest with
          | Done (t2, rs) => Done (t2, r :: rs)
          | Abort => Abort
          | Spin => Spin
          end
      | Abort => Abort
      | Spin => Spin
      end
  end.

(** [handle_CreateChan]: [requests] are the requests decoded while the
    decoder was good, [good] says whether it is good at the end. The result
    has the replies sent and whether [bev] is still set. *)
Definition handle_CreateChan (t : Tables) (requests : list (N * std_string))
    (good : bool) : run (Tables * list Reply * bool) :=
  match create_all t requests with
  | Done (t', rs) => Done (t', rs, good)
  | Abort => Abort
  | Spin => Spin
  end.

(** [handle_DestroyChan] for a request that names the server's id [s] and
    the client's id [c]. The reply, if any, has the client's id of the
    request first and the server's id second. *)
Definition handle_DestroyChan (t : Tables) (s c : N) (good : bool)
    : run (Tables * option (N * N) * bool) :=
  match (if good then chanBySID t !! s else None) with
  | Some ch =>
      match chanByCID t !! cid ch with
      | Some _ =>
          Done ({| chanBySID := delete s (chanBySID t);
                   chanByCID := delete (cid ch) (chanByCID t);
                   nextSID := nextSID t |},
                Some (c, s), good)
      | None => Abort
      end
  | None => Done (t, None, good)
  end.

(** The two tables describe the same channels. *)
Definition consistent (t : Tables) : Prop :=
  (forall c s, chanByCID t !! c = Some s
               <-> exists ch, chanBySID t !! s = Some ch /\ cid ch = c)
  /\ (forall s ch, chanBySID t !! s = Some ch -> sid ch = s).

Definition empty_tables : Tables :=
  {| chanBySID := ∅; chanByCID := ∅; nextSID := 0 |}.

(** The values fit their C++ types: [nextSID] is a [uint32_t], and a table
    with 32-bit keys that refuses to grow at [0xffffffff] entries has no
    more than that. *)
Definition bounded (t : Tables) : Prop :=
  nextSID t < 2 ^ 32
  /\ N.of_nat (size (chanBySID t)) <= 0xffffffff.

(** What the handlers need of [Status::isSuccess]. *)
Definition success_of_code : Prop :=
  forall tr : string,
    isSuccess {| Status.code := Status.Ok; Status.trace := tr |} = true
    /\ isSuccess {| Status.code := Status.Error; Status.trace := tr |} = false
    /\ isSuccess {| Status.code := Status.Fatal; Status.trace := tr |} = false.

End Channels.

Arguments sid {Handler} _.
Arguments cid {Handler} _.
Arguments name {Handler} _.
Arguments handler {Handler} _.
Arguments chanBySID {Handler} _.
Arguments chanByCID {Handler} _.
Arguments nextSID {Handler} _.
Arguments first_handler {Handler} _ _.
Arguments alloc_sid {Handler} _ _ _.
Arguments full {Handler} _.
Arguments create {Handler} _ _ _ _ _.
Arguments create_all {Handler} _ _ _ _.
Arguments handle_CreateChan {Handler} _ _ _ _ _.
Arguments handle_DestroyChan {Handler} _ _ _ _.
Arguments consistent {Handler} _.
Arguments empty_tables {Handler}.
Arguments bounded {Handler} _.

End chan.

Module chan_sample.

Import chan.

Definition isSuccess (s : Status.t) : bool :=
  match Status.code s with
  | Status.Ok | Status.Warn => true
  | _ => false
  end.

(** One source, which serves every name but the empty one. *)
Definition sources : list (std_string -> result (option unit)) :=
  [fun nm => Throw std_runtime_error; fun nm => Ok (Some tt)].

Definition one_channel : Tables unit :=
  {| chanBySID := {[ 0%N := {| sid := 0; cid := 7; name := lit "pv"; handler := tt |} ]};
     chanByCID := {[ 7%N := 0%N ]};
     nextSID := 0 |}.

End chan_sample.

(** * Properties *)

(** ** Rendering of numbers *)

Section Rendering.

Import ostream.
Local Open Scope N_scope.

Lemma put_digits_app fuel b n acc :
  put_digits fuel b n acc = (put_digits fuel b n [] ++ acc)%list.
Proof.
  revert n acc. induction fuel as [|fuel IH]; intros n acc; simpl; [reflexivity|].
  destruct (n / b =? 0); [reflexivity|].
  rewrite IH. rewrite (IH _ [digit_char (n mod b)]).
  rewrite <- app_assoc. reflexivity.
Qed.

Lemma put_digits_last fuel b n :
  n / b <> 0 ->
  put_digits (S fuel) b n [] = (put_digits fuel b (n / b) [] ++ [digit_char (n mod b)])%list.
Proof.
  intros Hq. simpl. apply N.eqb_neq in Hq. rewrite Hq. apply put_digits_app.
Qed.

Lemma put_digits_single fuel b n :
  n / b = 0 -> put_digits (S fuel) b n [] = [digit_char (n mod b)].
Proof. intros Hq. simpl. rewrite Hq. reflexivity. Qed.

Lemma index_of_digit_char d :
  d < 16 -> index_of (digit_char d) digits 0 = Some d.
Proof.
  intros Hd.
  assert (Hcases : d = 0 \/ d = 1 \/ d = 2 \/ d = 3 \/ d = 4 \/ d = 5 \/ d = 6 \/ d = 7
                   \/ d = 8 \/ d = 9 \/ d = 10 \/ d = 11 \/ d = 12 \/ d = 13 \/ d = 14
                   \/ d = 15) by lia.
  clear Hd. repeat (destruct Hcases as [-> | Hcases]); try subst d; reflexivity.
Qed.

Lemma digit_value_char b d :
  d < b -> b <= 16 -> digit_value b (digit_char d) = Some d.
Proof.
  intros Hd Hb. unfold digit_value.
  rewrite index_of_digit_char by lia.
  apply N.ltb_lt in Hd. rewrite Hd. reflexivity.
Qed.

Lemma read_digits_app b s1 s2 acc :
  read_digits b (s1 ++ s2) acc
  = match read_digits b s1 acc with
    | Some v => read_digits b s2 v
    | None => None
    end.
Proof.
  revert acc. induction s1 as [|c s1 IH]; intros acc; simpl; [reflexivity|].
  destruct (digit_value b c); [apply IH | reflexivity].
Qed.

Lemma fuel_div fuel b n :
  2 <= b -> n < 2 ^ N.of_nat (S fuel) -> n / b < 2 ^ N.of_nat fuel.
Proof.
  intros Hb Hn. rewrite Nat2N.inj_succ, N.pow_succ_r' in Hn.
  apply N.Div0.div_lt_upper_bound. nia.
Qed.

Lemma fuel_zero b n : 2 <= b -> n < 2 ^ N.of_nat 0 -> n / b = 0.
Proof. intros Hb Hn. simpl in Hn. apply N.div_small. lia. Qed.

(** Reading the digits of [n] gives [n] back. *)
Lemma read_put_digits fuel b n :
  2 <= b -> b <= 16 -> n < 2 ^ N.of_nat fuel ->
  read_digits b (put_digits fuel b n []) 0 = Some n.
Proof.
  intros Hb Hb'. revert n. induction fuel as [|fuel IH]; intros n Hn.
  - simpl in Hn. assert (n = 0) by lia. subst. reflexivity.
  - destruct (N.eq_dec (n / b) 0) as [Hq | Hq].
    + rewrite put_digits_single by exact Hq. simpl.
      assert (n < b) by (apply N.div_small_iff in Hq; lia).
      rewrite N.mod_small by assumption.
      rewrite digit_value_char by lia. reflexivity.
    + rewrite put_digits_last by exact Hq. rewrite read_digits_app.
      rewrite IH by (apply fuel_div; assumption). simpl.
      rewrite digit_value_char by (try apply N.mod_lt; lia).
      f_equal. rewrite (N.div_mod n b) at 3 by lia. lia.
Qed.

Lemma log2_fuel n : n < 2 ^ N.of_nat (S (N.to_nat (N.log2 n))).
Proof.
  rewrite Nat2N.inj_succ, N2Nat.id.
  destruct (N.eq_dec n 0) as [-> | Hn]; [reflexivity|].
  apply N.log2_spec. lia.
Qed.

Lemma read_num_put b n :
  2 <= b -> b <= 16 -> read_digits b (num_put b n) 0 = Some n.
Proof. intros. apply read_put_digits; auto using log2_fuel. Qed.

Lemma put_digits_nonempty fuel b n : put_digits (S fuel) b n [] <> [].
Proof.
  simpl. destruct (n / b =? 0); [discriminate|].
  rewrite put_digits_app. intros H. apply app_eq_nil in H. destruct H; discriminate.
Qed.

Lemma pow_pos b k : 2 <= b -> 0 < b ^ k.
Proof. intros Hb. apply N.neq_0_lt_0, N.pow_nonzero. lia. Qed.

(** The number of digits: at most [L] exactly when [n < b ^ L]. *)
Lemma put_digits_length fuel b n (L : nat) :
  2 <= b -> n < 2 ^ N.of_nat fuel -> (1 <= L)%nat ->
  (length (put_digits fuel b n []) <= L)%nat <-> n < b ^ N.of_nat L.
Proof.
  intros Hb. revert n L. induction fuel as [|fuel IH]; intros n L Hn HL.
  - simpl in Hn. assert (n = 0) by lia. subst. simpl. split; intros _; [|lia].
    apply pow_pos. exact Hb.
  - destruct L as [|L]; [lia|].
    rewrite Nat2N.inj_succ, N.pow_succ_r'.
    destruct (N.eq_dec (n / b) 0) as [Hq | Hq].
    + rewrite put_digits_single by exact Hq. simpl.
      assert (n < b) by (apply N.div_small_iff in Hq; lia).
      assert (0 < b ^ N.of_nat L) by (apply pow_pos; exact Hb).
      split; intros _; [nia | lia].
    + rewrite put_digits_last by exact Hq. rewrite length_app. simpl.
      assert (Hnb : b <= n).
      { destruct (N.lt_ge_cases n b) as [Hlt|]; [|assumption].
        apply N.div_small in Hlt. contradiction. }
      assert (Hlen : (1 <= length (put_digits fuel b (n / b) []))%nat).
      { destruct fuel as [|fuel'].
        - exfalso. apply Hq. apply N.div_small.
          change (2 ^ N.of_nat 1) with 2 in Hn. lia.
        - pose proof (put_digits_nonempty fuel' b (n / b)) as Hne.
          destruct (put_digits (S fuel') b (n / b) []); [contradiction | simpl; lia]. }
      destruct L as [|L].
      * change (b ^ N.of_nat 0) with 1. split; intros H; [lia | nia].
      * specialize (IH (n / b) (S L) (fuel_div _ _ _ Hb Hn) ltac:(lia)).
        split; intros H.
        -- assert (Hd : n / b < b ^ N.of_nat (S L)) by (apply IH; lia).
           pose proof (N.div_mod n b ltac:(lia)) as Hdm.
           pose proof (N.mod_lt n b ltac:(lia)). nia.
        -- assert (n / b < b ^ N.of_nat (S L)).
           { apply N.Div0.div_lt_upper_bound. lia. }
           apply IH in H0. lia.
Qed.

Lemma num_put_length b n (L : nat) :
  2 <= b -> (1 <= L)%nat ->
  (length (num_put b n) <= L)%nat <-> n < b ^ N.of_nat L.
Proof. intros. apply put_digits_length; auto using log2_fuel. Qed.

End Rendering.

(** ** Status-PV names and issuer ids *)

Section Names.

Import ostream.

Lemma pad_0 c s : pad 0 c s = s.
Proof. reflexivity. Qed.

Lemma pad_length w c s : length (pad w c s) = Nat.max w (length s).
Proof. unfold pad. rewrite length_app, repeat_length. lia. Qed.

Lemma read_digits_zeros b k s :
  (0 <? b)%N = true ->
  read_digits b (repeat "0"%char k ++ s) 0 = read_digits b s 0.
Proof.
  intros Hb. induction k as [|k IH]; [reflexivity|].
  simpl. unfold digit_value. simpl. rewrite Hb. exact IH.
Qed.

Lemma read_digits_all b s acc v :
  read_digits b s acc = Some v -> Forall (fun c => digit_value b c <> None) s.
Proof.
  revert acc. induction s as [|c s IH]; intros acc H; [constructor|].
  simpl in H. destruct (digit_value b c) eqn:E; [|discriminate].
  constructor; [congruence | eapply IH; eassumption].
Qed.

Lemma num_put_nonempty b n : num_put b n <> [].
Proof. apply put_digits_nonempty. Qed.

(** The stream insertions of [makeStatusURI], carried out. *)
Lemma makeStatusURI_unfold issuer_id serial :
  makeStatusURI issuer_id serial
  = lit "CERT:STATUS:" ++ issuer_id ++ lit ":" ++ pad 16 "0"%char (num_put 10 serial).
Proof.
  unfold makeStatusURI, str, put_unsigned, put_string, setw, setfill. simpl buf.
  simpl width. simpl fill. simpl base. rewrite !pad_0.
  rewrite <- !app_assoc. reflexivity.
Qed.

Lemma step_buf ss b :
  buf (ss <<m hex <<m setw 2 <<m setfill "0"%char <<u Byte.to_N b)
  = buf ss ++ hex_of_octet b.
Proof.
  unfold put_unsigned, put_string, setfill, setw, hex. simpl.
  f_equal. destruct b; reflexivity.
Qed.

Lemma getIssuerId_loop_buf data :
  forall ss k, length (buf ss) = (2 * k)%nat ->
    buf (getIssuerId_loop data ss) = buf ss ++ hex_of_octets (firstn (4 - k) data).
Proof.
  induction data as [|b rest IH]; intros ss k Hk.
  - simpl. rewrite firstn_nil. simpl. rewrite app_nil_r. reflexivity.
  - cbn [getIssuerId_loop]. unfold tellp. rewrite Hk.
    destruct (Z.ltb_spec (Z.of_nat (2 * k)) 8) as [Hlt | Hge].
    + rewrite (IH _ (S k)).
      * rewrite step_buf. replace (4 - k)%nat with (S (4 - S k)) by lia.
        cbn [firstn hex_of_octets flat_map]. rewrite <- app_assoc. reflexivity.
      * rewrite step_buf, length_app, Hk. simpl. lia.
    + replace (4 - k)%nat with 0%nat by lia. simpl. rewrite app_nil_r. reflexivity.
Qed.

Lemma firstn_hex_of_octets k l :
  firstn (2 * k) (hex_of_octets l) = hex_of_octets (firstn k l).
Proof.
  revert l. induction k as [|k IH]; intros l; [reflexivity|].
  destruct l as [|b l]; [reflexivity|].
  replace (2 * S k)%nat with (S (S (2 * k))) by lia.
  cbn [hex_of_octets flat_map hex_of_octet app firstn].
  f_equal. f_equal. apply IH.
Qed.

Lemma hex_of_octets_length l : length (hex_of_octets l) = (2 * length l)%nat.
Proof. induction l as [|b l IH]; simpl; lia. Qed.

Lemma digit_char_in d : (d < 16)%N -> In (digit_char d) digits.
Proof.
  intros Hd. unfold digit_char. apply nth_In.
  change (length digits) with 16%nat. lia.
Qed.

Lemma hex_of_octets_digits l : Forall (fun c => In c digits) (hex_of_octets l).
Proof.
  induction l as [|b l IH]; [constructor|].
  cbn [hex_of_octets flat_map hex_of_octet app].
  constructor; [|constructor; [|exact IH]].
  - apply digit_char_in. apply N.Div0.div_lt_upper_bound.
    pose proof (Byte.to_N_bounded b). lia.
  - apply digit_char_in. apply N.mod_lt. lia.
Qed.

End Names.

Example makeStatusURI_small :
  makeStatusURI (lit "27975e6b") 255 = lit "CERT:STATUS:27975e6b:0000000000000255".
Proof. reflexivity. Qed.

Example makeStatusURI_large :
  makeStatusURI (lit "27975e6b") 7246297371190731775
  = lit "CERT:STATUS:27975e6b:7246297371190731775".
Proof. vm_compute. reflexivity. Qed.

Example spec_status_pv_name_small :
  spec_status_pv_name (lit "27975e6b") 255 = lit "CERT:STATUS:27975e6b:00000000000000ff".
Proof. reflexivity. Qed.

(** C1, as stated, fails: for issuer id [27975e6b] and serial 255 the name
    built by [makeStatusURI] ends in [0000000000000255], the serial in
    decimal, and differs from the name with the serial as sixteen
    hexadecimal digits, which ends in [00000000000000ff]. *)
Lemma makeStatusURI_not_hex16 :
  makeStatusURI (lit "27975e6b") 255 <> spec_status_pv_name (lit "27975e6b") 255.
Proof. vm_compute. discriminate. Qed.

(** C1, amended: for every issuer id and every 64-bit serial, the name
    built by [makeStatusURI] is [CERT:STATUS:], the issuer id, a colon, and
    the decimal numeral of the serial, padded with zeros on the left to
    sixteen characters. The numeral is the one without leading zeros: it
    consists of decimal digits, reads back as the serial, and has [L]
    digits or fewer exactly when the serial is below [10^L]. So the part
    after the last colon has exactly sixteen characters when the serial is
    below 10^16, and is the numeral alone, of seventeen to twenty digits,
    otherwise. *)
Theorem makeStatusURI_decimal (issuer_id : std_string) (serial : N) :
  (serial < 2 ^ 64)%N ->
  let numeral := ostream.num_put 10 serial in
  let zeros := repeat "0"%char (16 - length numeral) in
  makeStatusURI issuer_id serial
  = lit "CERT:STATUS:" ++ issuer_id ++ lit ":" ++ zeros ++ numeral
  /\ read_number 10 numeral = Some serial
  /\ Forall is_decimal_digit numeral
  /\ (forall L : nat, (1 <= L)%nat ->
        ((length numeral <= L)%nat <-> (serial < 10 ^ N.of_nat L)%N))
  /\ (1 <= length numeral <= 20)%nat
  /\ ((serial < 10 ^ 16)%N -> length (zeros ++ numeral) = 16%nat)
  /\ ((10 ^ 16 <= serial)%N -> zeros = [] /\ (17 <= length numeral)%nat).
Proof.
  intros Hs numeral zeros.
  assert (Hread : read_digits 10 numeral 0 = Some serial)
    by (apply read_num_put; lia).
  assert (Hlen : forall L : nat, (1 <= L)%nat ->
            ((length numeral <= L)%nat <-> (serial < 10 ^ N.of_nat L)%N)).
  { intros L HL. apply num_put_length; lia. }
  assert (Hne : numeral <> []) by apply num_put_nonempty.
  assert (H1 : (1 <= length numeral)%nat).
  { destruct numeral; [contradiction | simpl; lia]. }
  assert (H20 : (length numeral <= 20)%nat).
  { apply (Hlen 20%nat); [lia|]. eapply N.lt_trans; [exact Hs | reflexivity]. }
  split; [apply makeStatusURI_unfold|].
  split.
  { unfold read_number. destruct numeral; [contradiction | exact Hread]. }
  split; [eapply read_digits_all; exact Hread|].
  split; [exact Hlen|].
  split; [lia|].
  split.
  - intros Hsmall. change (10 ^ 16)%N with (10 ^ N.of_nat 16)%N in Hsmall.
    apply (Hlen 16%nat) in Hsmall; [|lia].
    unfold zeros. rewrite length_app, repeat_length. lia.
  - intros Hlarge.
    assert (Hgt : ~ (length numeral <= 16)%nat).
    { intros H. apply (Hlen 16%nat) in H; [|lia].
      change (10 ^ N.of_nat 16)%N with (10 ^ 16)%N in H. lia. }
    split; [|lia]. unfold zeros.
    replace (16 - length numeral)%nat with 0%nat by lia. reflexivity.
Qed.

Lemma makeStatusURI_decimal_witness :
  makeStatusURI (lit "27975e6b") 7246297371190731775
  = lit "CERT:STATUS:27975e6b:7246297371190731775"
  /\ makeStatusURI (lit "27975e6b") 255 = lit "CERT:STATUS:27975e6b:0000000000000255".
Proof.
  split.
  - apply (makeStatusURI_decimal (lit "27975e6b") 7246297371190731775). reflexivity.
  - apply (makeStatusURI_decimal (lit "27975e6b") 255). reflexivity.
Defined.

Example getIssuerId_sha1 :
  getIssuerId {| subject_key_identifier := Some [x27; x97; x5e; x6b; x01; xff];
                 pva_cert_status_uri := None; serial_number := 1 |}
  = Ok (lit "27975e6b").
Proof. reflexivity. Qed.

Example getIssuerId_short :
  getIssuerId {| subject_key_identifier := Some [x0a; xff];
                 pva_cert_status_uri := None; serial_number := 1 |}
  = Ok (lit "0aff").
Proof. reflexivity. Qed.

(** C8, as stated, fails: for a Subject Key Identifier of two octets
    [getIssuerId] returns the four characters [0aff], not eight. *)
Lemma getIssuerId_not_8hex : ~ spec_issuer_id_rule.
Proof.
  intros H.
  destruct (H {| subject_key_identifier := Some [x0a; xff];
                 pva_cert_status_uri := None; serial_number := 1 |}
              [x0a; xff] eq_refl) as (id & Hid & Hlen & _).
  vm_compute in Hid. injection Hid as <-. discriminate Hlen.
Qed.

(** C8, amended: for a certificate with a Subject Key Identifier,
    [getIssuerId] returns the first eight characters of the lowercase
    hexadecimal rendering of the SKI octets - eight characters when the SKI
    has four octets or more, and the whole rendering, of twice as many
    characters as octets, when it has fewer -, every character being one of
    [0123456789abcdef]; for a certificate without the extension it throws
    [std::runtime_error]. *)
Theorem getIssuerId_first8hex (ca_cert : X509) :
  match subject_key_identifier ca_cert with
  | Some skid =>
      getIssuerId ca_cert = Ok (firstn 8 (hex_of_octets skid))
      /\ length (firstn 8 (hex_of_octets skid)) = Nat.min 8 (2 * length skid)
      /\ ((4 <= length skid)%nat -> length (firstn 8 (hex_of_octets skid)) = 8%nat)
      /\ ((length skid < 4)%nat -> firstn 8 (hex_of_octets skid) = hex_of_octets skid)
      /\ Forall (fun c => In c (lit "0123456789abcdef")) (firstn 8 (hex_of_octets skid))
  | None => getIssuerId ca_cert = Throw std_runtime_error
  end.
Proof.
  unfold getIssuerId. destruct (subject_key_identifier ca_cert) as [skid|]; [|reflexivity].
  assert (Hlen : length (firstn 8 (hex_of_octets skid)) = Nat.min 8 (2 * length skid)).
  { rewrite length_firstn, hex_of_octets_length. reflexivity. }
  split; [|split; [|split; [|split]]].
  - f_equal. unfold ostream.str.
    rewrite (getIssuerId_loop_buf skid ostream.init 0) by reflexivity.
    simpl ostream.buf. simpl app.
    symmetry. apply (firstn_hex_of_octets 4).
  - exact Hlen.
  - intros H4. rewrite Hlen. lia.
  - intros H4. apply firstn_all2. rewrite hex_of_octets_length. lia.
  - apply Forall_take. exact (hex_of_octets_digits skid).
Qed.

(** ** Freshness and goodness *)

(** C6: a status is reported valid exactly when the current time is before
    [status_valid_until_date], and good exactly when it is valid and its
    OCSP status is [OCSP_CERTSTATUS_GOOD]. *)
Theorem isValid_isGood_spec (s : OCSPStatus) (now : time_t) :
  (isValid s now = true <-> (now < t (status_valid_until_date s))%Z)
  /\ (isGood s now = true <->
      (now < t (status_valid_until_date s))%Z /\ ocsp_status s = OCSP_CERTSTATUS_GOOD).
Proof.
  unfold isGood, isValid. rewrite andb_true_iff, Z.gtb_lt.
  split; [reflexivity|].
  destruct (ocsp_status s); vm_compute; intuition congruence.
Qed.

(** ** Consistency of a status received from the status PV *)

Lemma selfConsistent_iff (c : CertificateStatus) :
  selfConsistent c = true <-> consistent c.
Proof.
  unfold selfConsistent, consistent.
  destruct (ocsp_status c), (status c); vm_compute; intuition congruence.
Qed.

Lemma certstatus_of_index_Some (index : Z) (st : certstatus_t) :
  certstatus_of_index index = Some st <-> index = certstatus_i st.
Proof.
  unfold certstatus_of_index. split.
  - repeat match goal with
           | |- context [(index =? ?k)%Z] => destruct (Z.eqb_spec index k)
           end; intros [= <-]; assumption.
  - intros ->. destruct st; reflexivity.
Qed.

Lemma certstatus_of_index_None (index : Z) :
  certstatus_of_index index = None <-> (index < 0 \/ 5 < index)%Z.
Proof.
  unfold certstatus_of_index. split.
  - repeat match goal with
           | |- context [(index =? ?k)%Z] => destruct (Z.eqb_spec index k)
           end; try discriminate. intros _. lia.
  - intros H.
    repeat match goal with
           | |- context [(index =? ?k)%Z] => destruct (Z.eqb_spec index k); [lia|]
           end. reflexivity.
Qed.

Lemma CERT_STATE_at_enum (st : certstatus_t) :
  CERT_STATE_at (certstatus_i st) = Some (CERT_STATE st).
Proof. destruct st; reflexivity. Qed.

Section FromValueProps.

Variable OCSPStatus_init : list byte -> result OCSPStatus.
Variable get_time : std_string -> option tm.

Lemma CertificateStatus_of_bytes_in_range (st : certstatus_t) (bytes : list byte) :
  CertificateStatus_of_bytes OCSPStatus_init (certstatus_i st) bytes
  = Behaves (do o <- OCSPStatus_init bytes; Ok {| ocsp := o; status := st |}).
Proof.
  unfold CertificateStatus_of_bytes.
  destruct (OCSPStatus_init bytes) as [o|e]; [|reflexivity].
  rewrite CERT_STATE_at_enum, (proj2 (certstatus_of_index_Some _ st) eq_refl).
  reflexivity.
Qed.

Lemma CertificateStatus_of_bytes_out_of_range (index : Z) (bytes : list byte)
    (o : OCSPStatus) :
  OCSPStatus_init bytes = Ok o ->
  certstatus_of_index index = None ->
  CertificateStatus_of_bytes OCSPStatus_init index bytes = UndefinedBehaviour.
Proof.
  intros Hi Hn. unfold CertificateStatus_of_bytes. rewrite Hi, Hn.
  destruct (CERT_STATE_at index); reflexivity.
Qed.

Lemma construct_ok_inv (v : Value) (c : CertificateStatus) :
  CertificateStatus_of_Value OCSPStatus_init get_time v = Behaves (Ok c) ->
  exists o st, OCSPStatus_init (ocsp_response v) = Ok o
               /\ status_value_index v = certstatus_i st
               /\ c = {| ocsp := o; status := st |}
               /\ check_Value get_time v c = Ok c
               /\ (ocsp_bytes o = [] \/ selfConsistent c = true).
Proof.
  unfold CertificateStatus_of_Value, CertificateStatus_of_bytes.
  destruct (OCSPStatus_init (ocsp_response v)) as [o|e]; [|discriminate].
  destruct (CERT_STATE_at (status_value_index v)); [|discriminate].
  destruct (certstatus_of_index (status_value_index v)) as [st|] eqn:Hst; [|discriminate].
  apply certstatus_of_index_Some in Hst.
  intros [= H]. exists o, st. split; [reflexivity|]. split; [exact Hst|].
  unfold check_Value in H |- *. simpl in H |- *.
  destruct (ocsp_bytes o) eqn:Hb.
  - injection H as <-. simpl. rewrite Hb. auto.
  - destruct (selfConsistent _) eqn:Hs; simpl in H; [|discriminate].
    destruct (StatusDate_of_string _ _) as [d1|]; simpl in H; [|discriminate].
    destruct (StatusDate_of_string _ _) as [d2|]; simpl in H; [|discriminate].
    destruct (StatusDate_of_string _ _) as [d3|]; simpl in H; [|discriminate].
    destruct (dateConsistent _ _ _ _) eqn:Hd; simpl in H; [|discriminate].
    injection H as <-. simpl. rewrite Hb, Hs. simpl. rewrite Hd. auto.
Qed.

Lemma construct_inconsistent (v : Value) (o : OCSPStatus) (st : certstatus_t) :
  OCSPStatus_init (ocsp_response v) = Ok o ->
  status_value_index v = certstatus_i st ->
  ocsp_bytes o <> [] ->
  selfConsistent {| ocsp := o; status := st |} = false ->
  CertificateStatus_of_Value OCSPStatus_init get_time v
  = Behaves (Throw OCSPParseException).
Proof.
  intros Hi Hst Hb Hs.
  unfold CertificateStatus_of_Value. rewrite Hst, CertificateStatus_of_bytes_in_range, Hi.
  simpl. unfold check_Value. simpl. destruct (ocsp_bytes o); [contradiction|].
  rewrite Hs. reflexivity.
Qed.

End FromValueProps.

(** What the construction checks: a [CertificateStatus] that it returns,
    when its [ocsp_bytes] are not empty, satisfies the three consistency
    invariants; and when the status field of the value holds the index of
    an enumerator, and the status decoded from non-empty [ocsp_bytes] and
    that enumerator violate the invariants, the construction throws
    [OCSPParseException]. *)
Lemma CertificateStatus_of_Value_in_range
    (OCSPStatus_init : list byte -> result OCSPStatus)
    (get_time : std_string -> option tm) (v : Value) :
  (forall c, CertificateStatus_of_Value OCSPStatus_init get_time v = Behaves (Ok c) ->
             ocsp_bytes c <> [] -> consistent c)
  /\ (forall o st, OCSPStatus_init (ocsp_response v) = Ok o ->
                   status_value_index v = certstatus_i st ->
                   ocsp_bytes o <> [] ->
                   ~ consistent {| ocsp := o; status := st |} ->
                   CertificateStatus_of_Value OCSPStatus_init get_time v
                   = Behaves (Throw OCSPParseException)).
Proof.
  split.
  - intros c Hc Hb.
    destruct (construct_ok_inv _ _ _ _ Hc) as (o & st & _ & _ & -> & _ & [He | Hs]).
    + simpl in Hb. contradiction.
    + apply selfConsistent_iff. exact Hs.
  - intros o st Hi Hst Hb Hn. eapply construct_inconsistent; eauto.
    destruct (selfConsistent _) eqn:Hs; [|reflexivity].
    exfalso. apply Hn. apply selfConsistent_iff. exact Hs.
Qed.

Example CertificateStatus_of_Value_revoked_good :
  CertificateStatus_of_Value sample.init_good sample.get_time (sample.value REVOKED)
  = Behaves (Throw OCSPParseException).
Proof. reflexivity. Qed.

(** C5, evaluated on the code: a status PV value whose status field holds
    an index that is not the index of an enumerator - below 0 or above 5 -
    violates the invariants with any decoded status, since its PVA status is
    neither VALID nor REVOKED nor any other; when its OCSP bytes decode, the
    construction does not throw: it takes the name of the status from the
    array [CERT_STATES] at that index, beyond the end of the array, before
    [selfConsistent()] is reached. *)
Theorem CertificateStatus_of_Value_unchecked_index
    (OCSPStatus_init : list byte -> result OCSPStatus)
    (get_time : std_string -> option tm) (v : Value) (o : OCSPStatus) :
  OCSPStatus_init (ocsp_response v) = Ok o ->
  (status_value_index v < 0 \/ 5 < status_value_index v)%Z ->
  CERT_STATE_at (status_value_index v) = None
  /\ CertificateStatus_of_Value OCSPStatus_init get_time v = UndefinedBehaviour
  /\ CertificateStatus_of_Value OCSPStatus_init get_time v
     <> Behaves (Throw OCSPParseException).
Proof.
  intros Hi Hr.
  assert (Hub : CertificateStatus_of_Value OCSPStatus_init get_time v = UndefinedBehaviour).
  { unfold CertificateStatus_of_Value.
    rewrite (CertificateStatus_of_bytes_out_of_range _ _ _ o Hi); [reflexivity|].
    apply certstatus_of_index_None. exact Hr. }
  split; [|split; [exact Hub | rewrite Hub; discriminate]].
  unfold CERT_STATE_at. destruct (Z.ltb_spec (status_value_index v) 0); [reflexivity|].
  apply nth_error_None. change (length CERT_STATES) with 6%nat. lia.
Qed.

Lemma CertificateStatus_of_Value_unchecked_index_witness :
  CertificateStatus_of_Value sample.init_good sample.get_time
    (sample.value_at 6 (lit "REVOKED")) = UndefinedBehaviour.
Proof.
  apply (CertificateStatus_of_Value_unchecked_index sample.init_good sample.get_time
           (sample.value_at 6 (lit "REVOKED"))
           {| ocsp_bytes := sample.token;
              ocsp_status := OCSP_CERTSTATUS_GOOD;
              status_date := {| t := 1577836800%Z |};
              status_valid_until_date := {| t := 1577838600%Z |};
              revocation_date := {| t := 0%Z |} |}).
  - reflexivity.
  - right. reflexivity.
Defined.

(** ** The sweep queries *)

Lemma SQL_CERT_TO_VALID_In (clause : pvacms.row -> bool) (now : Z)
    (certs : list pvacms.row) (s : N) :
  In s (pvacms.SQL_CERT_TO_VALID clause now certs)
  <-> exists r, In r certs /\ pvacms.serial r = s /\ clause r = true
                /\ (pvacms.not_before r <= now < pvacms.not_after r)%Z.
Proof.
  unfold pvacms.SQL_CERT_TO_VALID. rewrite in_map_iff. split.
  - intros (r & Hs & Hr). apply filter_In in Hr. destruct Hr as [Hr Hc].
    apply andb_true_iff in Hc. destruct Hc as [Hc H3].
    apply andb_true_iff in Hc. destruct Hc as [H1 H2].
    exists r. repeat split; auto; lia.
  - intros (r & Hr & Hs & Hc & H1 & H2). exists r. split; [exact Hs|].
    apply filter_In. split; [exact Hr|]. rewrite Hc, andb_true_r.
    apply andb_true_iff. split; lia.
Qed.

Lemma SQL_CERT_TO_EXPIRED_In (clause : pvacms.row -> bool) (now : Z)
    (certs : list pvacms.row) (s : N) :
  In s (pvacms.SQL_CERT_TO_EXPIRED clause now certs)
  <-> exists r, In r certs /\ pvacms.serial r = s /\ clause r = true
                /\ (pvacms.not_after r <= now)%Z.
Proof.
  unfold pvacms.SQL_CERT_TO_EXPIRED. rewrite in_map_iff. split.
  - intros (r & Hs & Hr). apply filter_In in Hr. destruct Hr as [Hr Hc].
    apply andb_true_iff in Hc. destruct Hc as [H1 H2].
    exists r. repeat split; auto; lia.
  - intros (r & Hr & Hs & Hc & H1). exists r. split; [exact Hs|].
    apply filter_In. split; [exact Hr|]. rewrite Hc, andb_true_r. lia.
Qed.

(** In a table with unique serials, the row of a serial is one row. *)
Lemma unique_serial (certs : list pvacms.row) (r1 r2 : pvacms.row) :
  List.NoDup (map pvacms.serial certs) ->
  In r1 certs -> In r2 certs -> pvacms.serial r1 = pvacms.serial r2 -> r1 = r2.
Proof.
  induction certs as [|r certs IH]; simpl; [tauto|].
  intros Hnd [-> | H1] [-> | H2] Hs; auto.
  - exfalso. apply List.NoDup_cons_iff in Hnd. destruct Hnd as [Hn _]. apply Hn.
    apply in_map_iff. exists r2. split; [congruence | exact H2].
  - exfalso. apply List.NoDup_cons_iff in Hnd. destruct Hnd as [Hn _]. apply Hn.
    apply in_map_iff. exists r1. split; [congruence | exact H1].
  - apply List.NoDup_cons_iff in Hnd. destruct Hnd as [_ Hnd]. auto.
Qed.

(** C7, as stated, fails: at [now = not_after] the expiry query already
    selects a VALID record, although [now > not_after] does not hold. *)
Lemma expiry_rule_not_strict : ~ spec_expiry_rule.
Proof.
  intros H.
  specialize (H (pvacms.status_in [certstatus_i VALID]) 100%Z [sample.row_100] 255%N).
  destruct H as [H _].
  destruct H as (r & Hr & _ & _ & Hlt).
  - simpl. left. reflexivity.
  - destruct Hr as [<- | []]. simpl in Hlt. lia.
Qed.

(** C7, amended: whatever condition on the row is appended to the text of
    the queries, in a table with unique serials the sweep query for the
    move to VALID selects a record exactly when the record meets that
    condition and [not_before <= now < not_after], and the sweep query for
    the move to EXPIRED selects it exactly when it meets the condition
    appended there and [now >= not_after]. With the conditions [status is
    PENDING] and [status is VALID] these are the records that are PENDING
    within their validity window, and the records that are VALID at or
    after [not_after]. *)
Theorem sweep_selection (to_valid to_expired : pvacms.row -> bool) (now : Z)
    (certs : list pvacms.row) (r : pvacms.row) :
  List.NoDup (map pvacms.serial certs) ->
  In r certs ->
  (In (pvacms.serial r) (pvacms.SQL_CERT_TO_VALID to_valid now certs)
   <-> to_valid r = true
       /\ (pvacms.not_before r <= now)%Z /\ (now < pvacms.not_after r)%Z)
  /\ (In (pvacms.serial r) (pvacms.SQL_CERT_TO_EXPIRED to_expired now certs)
      <-> to_expired r = true /\ (now >= pvacms.not_after r)%Z)
  /\ (In (pvacms.serial r)
         (pvacms.SQL_CERT_TO_VALID (pvacms.status_in [certstatus_i PENDING]) now certs)
      <-> pvacms.status r = certstatus_i PENDING
          /\ (pvacms.not_before r <= now)%Z /\ (now < pvacms.not_after r)%Z)
  /\ (In (pvacms.serial r)
         (pvacms.SQL_CERT_TO_EXPIRED (pvacms.status_in [certstatus_i VALID]) now certs)
      <-> pvacms.status r = certstatus_i VALID /\ (now >= pvacms.not_after r)%Z).
Proof.
  intros Hnd Hr.
  assert (Hv : forall clause,
            In (pvacms.serial r) (pvacms.SQL_CERT_TO_VALID clause now certs)
            <-> clause r = true
                /\ (pvacms.not_before r <= now)%Z /\ (now < pvacms.not_after r)%Z).
  { intros clause. rewrite SQL_CERT_TO_VALID_In. split.
    - intros (r' & Hr' & Hs & Hc & Hw).
      assert (r' = r) by (eapply unique_serial; eauto). subst r'. intuition lia.
    - intros (Hc & H1 & H2). exists r. intuition lia. }
  assert (He : forall clause,
            In (pvacms.serial r) (pvacms.SQL_CERT_TO_EXPIRED clause now certs)
            <-> clause r = true /\ (now >= pvacms.not_after r)%Z).
  { intros clause. rewrite SQL_CERT_TO_EXPIRED_In. split.
    - intros (r' & Hr' & Hs & Hc & Hw).
      assert (r' = r) by (eapply unique_serial; eauto). subst r'. intuition lia.
    - intros (Hc & H1). exists r. intuition lia. }
  assert (Hin : forall st, pvacms.status_in [st] r = true <-> pvacms.status r = st).
  { intros st. unfold pvacms.status_in. simpl. rewrite orb_false_r. apply Z.eqb_eq. }
  split; [apply Hv|]. split; [apply He|]. split.
  - rewrite Hv, Hin. reflexivity.
  - rewrite He, Hin. reflexivity.
Qed.

Lemma sweep_selection_witness :
  In 255%N (pvacms.SQL_CERT_TO_EXPIRED (pvacms.status_in [certstatus_i VALID]) 100
              [sample.row_100])
  <-> pvacms.status sample.row_100 = certstatus_i VALID
      /\ (100 >= pvacms.not_after sample.row_100)%Z.
Proof.
  destruct (sweep_selection (fun _ => true) (fun _ => true) 100 [sample.row_100]
              sample.row_100) as (_ & _ & _ & H).
  - simpl. constructor; [intros [] | constructor].
  - left. reflexivity.
  - exact H.
Defined.

(** ** Decoding a status token *)

Section ParseProps.

Variable lib : Library.

Lemma verifyOCSPResponse_throws basic_response allow dir e :
  verifyOCSPResponse lib basic_response allow dir = Throw e -> e = OCSPParseException.
Proof.
  unfold verifyOCSPResponse.
  destruct (signer basic_response) as [ca|]; [|congruence].
  destruct (_ && _); [congruence|].
  destruct (negb (X509_STORE_new lib)); [congruence|].
  destruct (negb (_ =? 1)%Z); [congruence|].
  destruct dir as [|c dir]; simpl.
  - destruct (negb (X509_STORE_CTX_new lib)); [congruence|].
    destruct (negb (_ =? 1)%Z); [congruence|].
    destruct (negb (_ =? 1)%Z); [congruence|].
    destruct (_ <=? 0)%Z; congruence.
  - destruct (negb (_ =? 1)%Z); simpl; [congruence|].
    destruct (negb (X509_STORE_CTX_new lib)); [congruence|].
    destruct (negb (_ =? 1)%Z); [congruence|].
    destruct (negb (_ =? 1)%Z); [congruence|].
    destruct (_ <=? 0)%Z; congruence.
Qed.

Lemma StatusDate_of_asn1_ok time d :
  StatusDate_of_asn1 time = Ok d ->
  match time with
  | None => t d = 0%Z
  | Some a => exists x, a = Some x /\ t d = tmToTimeTUTC x
  end.
Proof.
  unfold StatusDate_of_asn1, asn1TimeToTimeT.
  destruct time as [[x|]|]; simpl; try discriminate; intros [= <-]; eauto.
Qed.

(** What a successful [parse] says about the token. *)
Lemma parse_ok_inv bytes allow dir now p :
  parse lib bytes allow dir now = Ok p ->
  exists resp b single rest,
    d2i_OCSP_RESPONSE_bio lib bytes = Some resp
    /\ response_status resp = OCSP_RESPONSE_STATUS_SUCCESSFUL
    /\ basic resp = Some b
    /\ is_ok (verifyOCSPResponse lib b allow dir) = true
    /\ responses b = single :: rest
    /\ parsed_ocsp_status p = certStatus single
    /\ parsed_serial p = ASN1ToUint64 lib (certId_serialNumber single)
    /\ StatusDate_of_asn1 (thisUpdate single) = Ok (parsed_status_date p)
    /\ StatusDate_of_asn1 (nextUpdate single) = Ok (parsed_status_valid_until_date p)
    /\ (certStatus single = OCSP_CERTSTATUS_REVOKED ->
        exists rt, revocationTime single = Some rt
                   /\ StatusDate_of_asn1 (Some rt) = Ok (parsed_revocation_date p)).
Proof.
  unfold parse, getOCSPResponse.
  destruct (BIO_new_mem_buf lib bytes); simpl; [|discriminate].
  destruct (d2i_OCSP_RESPONSE_bio lib bytes) as [resp|]; simpl; [|discriminate].
  destruct (Z.eqb_spec (response_status resp) OCSP_RESPONSE_STATUS_SUCCESSFUL) as [Hs|];
    simpl; [|discriminate].
  destruct (basic resp) as [b|] eqn:Hb; [|discriminate].
  destruct (verifyOCSPResponse lib b allow dir) eqn:Hv; simpl; [|discriminate].
  destruct (responses b) as [|single rest] eqn:Hr; [discriminate|].
  intros H. exists resp, b, single, rest.
  destruct (certStatus single) eqn:Hc; simpl in H.
  - destruct (StatusDate_of_asn1 (thisUpdate single)); simpl in H; [|discriminate].
    destruct (StatusDate_of_asn1 (nextUpdate single)); simpl in H; [|discriminate].
    injection H as <-. simpl. rewrite Hv. repeat split; auto; discriminate.
  - destruct (revocationTime single) as [rt|]; simpl in H; [|discriminate].
    destruct (StatusDate_of_asn1 (thisUpdate single)); simpl in H; [|discriminate].
    destruct (StatusDate_of_asn1 (nextUpdate single)); simpl in H; [|discriminate].
    destruct (StatusDate_of_asn1 (Some rt)) eqn:Hrt; simpl in H; [|discriminate].
    injection H as <-. simpl. rewrite Hv. repeat split; auto. intros _. eauto.
  - destruct (StatusDate_of_asn1 (thisUpdate single)); simpl in H; [|discriminate].
    destruct (StatusDate_of_asn1 (nextUpdate single)); simpl in H; [|discriminate].
    injection H as <-. simpl. rewrite Hv. repeat split; auto; discriminate.
Qed.

(** A token whose first response is REVOKED without a revocation time. *)
Lemma parse_revoked_without_time bytes allow dir now resp b single rest :
  d2i_OCSP_RESPONSE_bio lib bytes = Some resp ->
  basic resp = Some b ->
  responses b = single :: rest ->
  certStatus single = OCSP_CERTSTATUS_REVOKED ->
  revocationTime single = None ->
  parse lib bytes allow dir now = Throw OCSPParseException.
Proof.
  intros Hd Hb Hr Hc Ht. unfold parse, getOCSPResponse.
  destruct (BIO_new_mem_buf lib bytes); simpl; [|reflexivity].
  rewrite Hd. simpl.
  destruct (Z.eqb_spec (response_status resp) OCSP_RESPONSE_STATUS_SUCCESSFUL);
    simpl; [|reflexivity].
  rewrite Hb.
  destruct (verifyOCSPResponse lib b allow dir) eqn:Hv; simpl.
  - rewrite Hr, Hc, Ht. reflexivity.
  - apply verifyOCSPResponse_throws in Hv. subst. reflexivity.
Qed.

End ParseProps.

(** The verdict of [parse] does not depend on what [OCSP_check_validity]
    answers, nor on the time at which the token is parsed. *)
Lemma parse_ignores_check_validity (lib : Library)
    (chk : option ASN1_TIME -> option ASN1_TIME -> Z -> Z -> time_t -> Z)
    (bytes : list byte) (allow : bool) (dir : std_string) (now now' : time_t) :
  parse (with_check_validity lib chk) bytes allow dir now' = parse lib bytes allow dir now.
Proof.
  unfold parse, getOCSPResponse. simpl.
  destruct (BIO_new_mem_buf lib bytes); [|reflexivity].
  destruct (d2i_OCSP_RESPONSE_bio lib bytes) as [resp|]; [|reflexivity]. simpl.
  destruct (negb _); [reflexivity|].
  destruct (basic resp) as [b|]; [|reflexivity].
  replace (verifyOCSPResponse (with_check_validity lib chk) b allow dir)
    with (verifyOCSPResponse lib b allow dir).
  - reflexivity.
  - unfold verifyOCSPResponse. simpl.
    destruct (signer b) as [ca|]; [|reflexivity].
    destruct (certs b) as [chain|]; [|reflexivity].
    assert (Hadd : forall st l,
               add_chain (with_check_validity lib chk) st l = add_chain lib st l).
    { intros st l. revert st. induction l as [|c l IH]; intros st; simpl; [reflexivity|].
      destruct (_ =? 1)%Z; apply IH. }
    destruct dir; simpl; rewrite ?Hadd; reflexivity.
Qed.

(** C2, evaluated on the code: a token whose window ran from 00:00 to 00:30
    on 1 January 2020, parsed on 1 January 2030. [OCSP_check_validity]
    answers 0 for that window, and [parse] returns the parsed status all the
    same. *)
Lemma parse_accepts_stale_token :
  OCSP_check_validity (sample.lib (sample.response OCSP_CERTSTATUS_GOOD None))
    (Some (Some (sample.jan_1_2020 0 0))) (Some (Some (sample.jan_1_2020 0 30)))
    0 5 sample.year_2030 = 0%Z
  /\ parse (sample.lib (sample.response OCSP_CERTSTATUS_GOOD None))
       sample.token false [] sample.year_2030
     = Ok {| parsed_serial := 255;
             parsed_ocsp_status := OCSP_CERTSTATUS_GOOD;
             parsed_status_date := {| t := 1577836800%Z |};
             parsed_status_valid_until_date := {| t := 1577838600%Z |};
             parsed_revocation_date := {| t := 0%Z |} |}.
Proof. split; vm_compute; reflexivity. Qed.

(** C10: when [parse] returns a status that is REVOKED, the first response
    of the token carries a revocation time and the revocation date returned
    is that time; and a token whose first response is REVOKED without a
    revocation time makes [parse] throw [OCSPParseException]. *)
Theorem parse_revoked_has_revocation_time (lib : Library) (bytes : list byte)
    (allow : bool) (dir : std_string) (now : time_t) :
  (forall p, parse lib bytes allow dir now = Ok p ->
             parsed_ocsp_status p = OCSP_CERTSTATUS_REVOKED ->
             exists resp b single rest rt x,
               d2i_OCSP_RESPONSE_bio lib bytes = Some resp
               /\ basic resp = Some b
               /\ responses b = single :: rest
               /\ revocationTime single = Some rt
               /\ rt = Some x
               /\ parsed_revocation_date p = {| t := tmToTimeTUTC x |})
  /\ (forall resp b single rest,
        d2i_OCSP_RESPONSE_bio lib bytes = Some resp ->
        basic resp = Some b ->
        responses b = single :: rest ->
        certStatus single = OCSP_CERTSTATUS_REVOKED ->
        revocationTime single = None ->
        parse lib bytes allow dir now = Throw OCSPParseException).
Proof.
  split.
  - intros p Hp Hrev.
    destruct (parse_ok_inv _ _ _ _ _ _ Hp)
      as (resp & b & single & rest & Hd & _ & Hb & _ & Hr & Hst & _ & _ & _ & Hrt).
    rewrite Hrev in Hst. destruct (Hrt (eq_sym Hst)) as (rt & Hrt1 & Hrt2).
    apply StatusDate_of_asn1_ok in Hrt2. destruct Hrt2 as (x & -> & Ht).
    exists resp, b, single, rest, (Some x), x. repeat split; auto.
    destruct (parsed_revocation_date p) as [d]. simpl in Ht. congruence.
  - intros resp b single rest. apply parse_revoked_without_time.
Qed.

Lemma parse_revoked_has_revocation_time_witness :
  (exists resp b single rest rt x,
      d2i_OCSP_RESPONSE_bio
        (sample.lib (sample.response OCSP_CERTSTATUS_REVOKED
                       (Some (Some (sample.jan_1_2020 0 10))))) sample.token = Some resp
      /\ basic resp = Some b
      /\ responses b = single :: rest
      /\ revocationTime single = Some rt
      /\ rt = Some x
      /\ {| t := 1577837400%Z |} = {| t := tmToTimeTUTC x |})
  /\ parse (sample.lib (sample.response OCSP_CERTSTATUS_REVOKED None))
       sample.token false [] 1577836801%Z = Throw OCSPParseException.
Proof.
  split.
  - apply (proj1 (parse_revoked_has_revocation_time
                    (sample.lib (sample.response OCSP_CERTSTATUS_REVOKED
                                   (Some (Some (sample.jan_1_2020 0 10)))))
                    sample.token false [] 1577836801%Z)
             {| parsed_serial := 255;
                parsed_ocsp_status := OCSP_CERTSTATUS_REVOKED;
                parsed_status_date := {| t := 1577836800%Z |};
                parsed_status_valid_until_date := {| t := 1577838600%Z |};
                parsed_revocation_date := {| t := 1577837400%Z |} |}).
    + vm_compute. reflexivity.
    + reflexivity.
  - eapply (proj2 (parse_revoked_has_revocation_time
                     (sample.lib (sample.response OCSP_CERTSTATUS_REVOKED None))
                     sample.token false [] 1577836801%Z)); reflexivity.
Defined.

(** ** The TLS verification hook *)

Section VerifyProps.

Variable getPVAStatus_uri : std_string -> result CertificateStatus.

Lemma statusMonitoringRequired_shouldMonitor cert :
  statusMonitoringRequired cert = shouldMonitor cert.
Proof.
  unfold statusMonitoringRequired, shouldMonitor, getExtension.
  destruct (pva_cert_status_uri cert); reflexivity.
Qed.

(** With the extension present, [getStatus] is the GET on its value. *)
Lemma getStatus_monitored cert :
  shouldMonitor cert = true ->
  exists uri, pva_cert_status_uri cert = Some uri
              /\ getStatus getPVAStatus_uri cert = getPVAStatus_uri uri.
Proof.
  unfold shouldMonitor, getStatus, getStatusPvFromCert, getExtension.
  destruct (pva_cert_status_uri cert) as [uri|]; [|discriminate].
  intros _. exists uri. split; reflexivity.
Qed.

Lemma isGood_isValid_earlier (s : OCSPStatus) (t1 t2 : time_t) :
  (t1 <= t2)%Z -> isGood s t2 = true -> isValid s t1 = true.
Proof.
  unfold isGood, isValid. intros Hle H. apply andb_true_iff in H. destruct H as [H _].
  apply Z.gtb_lt in H. apply Z.gtb_lt. lia.
Qed.

(** The hook after a fetch: the status fetched decides. *)
Lemma verify_fetch ok ctx ex t1 t2 :
  ok <> 0%Z ->
  shouldMonitor (current_cert ctx) = true ->
  status_check_enabled ex = true ->
  match getCachedPeerStatus ex (current_cert ctx) with
  | Some s => isValid s t1 = false
  | None => True
  end ->
  fst (ossl_verify getPVAStatus_uri ok ctx ex t1 t2)
  = match getStatus getPVAStatus_uri (current_cert ctx) with
    | Ok s => if isGood s t2 then Return ok else Return 0%Z
    | Throw CertStatusNoExtensionException => Exit 1%Z
    | Throw _ => Return 0%Z
    end.
Proof.
  intros Hok Hm He Hc. unfold ossl_verify.
  apply Z.eqb_neq in Hok. rewrite Hok. simpl negb. cbv iota.
  rewrite statusMonitoringRequired_shouldMonitor, Hm, He. simpl negb. cbv iota.
  destruct (getCachedPeerStatus ex (current_cert ctx)) as [s|].
  - rewrite Hc.
    destruct (getStatus getPVAStatus_uri (current_cert ctx)) as [s'|e]; simpl.
    + destruct (isGood _ t2); reflexivity.
    + destruct e; reflexivity.
  - destruct (getStatus getPVAStatus_uri (current_cert ctx)) as [s'|e]; simpl.
    + destruct (isGood _ t2); reflexivity.
    + destruct e; reflexivity.
Qed.

(** The hook on a cached status that is still valid: no fetch. *)
Lemma verify_cached ok ctx ex t1 t2 s :
  ok <> 0%Z ->
  shouldMonitor (current_cert ctx) = true ->
  status_check_enabled ex = true ->
  getCachedPeerStatus ex (current_cert ctx) = Some s ->
  isValid s t1 = true ->
  ossl_verify getPVAStatus_uri ok ctx ex t1 t2 = (if isGood s t2 then Return ok else Return 0%Z, ex).
Proof.
  intros Hok Hm He Hc Hv. unfold ossl_verify.
  apply Z.eqb_neq in Hok. rewrite Hok. simpl negb. cbv iota.
  rewrite statusMonitoringRequired_shouldMonitor, Hm, He. simpl negb. cbv iota.
  rewrite Hc, Hv. destruct (isGood s t2); reflexivity.
Qed.

End VerifyProps.

(** C3, evaluated on the code: with [preverify_ok = 0] the hook returns 0
    whatever the verification error is, the three self-signed-chain errors
    included, and leaves the extension data as it was. *)
Theorem ossl_verify_unverified_rejects
    (getPVAStatus_uri : std_string -> result CertificateStatus)
    (x509_ctx : X509_STORE_CTX) (pva_ex_data : CertStatusExData) (t1 t2 : time_t) :
  ossl_verify getPVAStatus_uri 0 x509_ctx pva_ex_data t1 t2 = (Return 0%Z, pva_ex_data).
Proof.
  unfold ossl_verify. simpl.
  destruct (_ || _); reflexivity.
Qed.

Example ossl_verify_self_signed :
  ossl_verify sample.get_fails 0
    (sample.ctx sample.plain_cert X509_V_ERR_DEPTH_ZERO_SELF_SIGNED_CERT)
    (sample.ex_data ∅) sample.year_2030 sample.year_2030
  = (Return 0%Z, sample.ex_data ∅).
Proof. reflexivity. Qed.

(** C4: with [preverify_ok] not zero, the hook returns [preverify_ok] for a
    certificate without the status-PV extension; for a certificate with it
    and status checking enabled, it returns [preverify_ok] when the cached
    status is good, and 0 when the cached status still valid is not good,
    when the status fetched is not good, and when the fetch throws. *)
Theorem ossl_verify_preverified
    (getPVAStatus_uri : std_string -> result CertificateStatus)
    (preverify_ok : Z) (x509_ctx : X509_STORE_CTX) (pva_ex_data : CertStatusExData)
    (t1 t2 : time_t) :
  preverify_ok <> 0%Z ->
  let cert := current_cert x509_ctx in
  let run := ossl_verify getPVAStatus_uri preverify_ok x509_ctx pva_ex_data t1 t2 in
  let must_fetch := match getCachedPeerStatus pva_ex_data cert with
                    | Some s => isValid s t1 = false
                    | None => True
                    end in
  (shouldMonitor cert = false -> run = (Return preverify_ok, pva_ex_data))
  /\ (shouldMonitor cert = true -> status_check_enabled pva_ex_data = true ->
      (forall s, getCachedPeerStatus pva_ex_data cert = Some s ->
                 (t1 <= t2)%Z -> isGood s t2 = true ->
                 run = (Return preverify_ok, pva_ex_data))
      /\ (forall s, getCachedPeerStatus pva_ex_data cert = Some s ->
                    isValid s t1 = true -> isGood s t2 = false ->
                    run = (Return 0%Z, pva_ex_data))
      /\ (forall s, must_fetch ->
                    getStatus getPVAStatus_uri cert = Ok s -> isGood s t2 = false ->
                    fst run = Return 0%Z)
      /\ (forall e, must_fetch ->
                    getStatus getPVAStatus_uri cert = Throw e ->
                    e <> CertStatusNoExtensionException ->
                    fst run = Return 0%Z)).
Proof.
  intros Hok cert run must_fetch. split.
  - intros Hm. unfold run, ossl_verify. apply Z.eqb_neq in Hok. rewrite Hok.
    rewrite statusMonitoringRequired_shouldMonitor. fold cert. rewrite Hm. reflexivity.
  - intros Hm He. repeat split.
    + intros s Hc Hle Hg. unfold run.
      rewrite (verify_cached _ _ _ _ _ _ s Hok Hm He Hc
                 (isGood_isValid_earlier _ _ _ Hle Hg)).
      rewrite Hg. reflexivity.
    + intros s Hc Hv Hg. unfold run.
      rewrite (verify_cached _ _ _ _ _ _ s Hok Hm He Hc Hv).
      rewrite Hg. reflexivity.
    + intros s Hf Hs Hg. unfold run.
      rewrite (verify_fetch _ _ _ _ _ _ Hok Hm He Hf). fold cert. rewrite Hs, Hg.
      reflexivity.
    + intros e Hf Hs Hne. unfold run.
      rewrite (verify_fetch _ _ _ _ _ _ Hok Hm He Hf). fold cert. rewrite Hs.
      destruct e; try reflexivity. contradiction.
Qed.

Lemma ossl_verify_preverified_witness :
  ossl_verify sample.get_fails 1 (sample.ctx sample.peer_cert 0)
    (sample.ex_data
       {[ 255%N := sample.good_peer ]})
    sample.year_2030 (sample.year_2030 + 1)%Z
  = (Return 1%Z,
     sample.ex_data
       {[ 255%N := sample.good_peer ]})
  /\ fst (ossl_verify sample.get_fails 1 (sample.ctx sample.peer_cert 0)
            (sample.ex_data ∅) sample.year_2030 (sample.year_2030 + 1)%Z)
     = Return 0%Z.
Proof.
  split.
  - apply (proj1 (proj2 (ossl_verify_preverified sample.get_fails 1
                           (sample.ctx sample.peer_cert 0)
                           (sample.ex_data
                              {[ 255%N := sample.good_peer ]})
                           sample.year_2030 (sample.year_2030 + 1)%Z ltac:(discriminate))
                    eq_refl eq_refl)
             (sample.good_peer)).
    + reflexivity.
    + vm_compute. discriminate.
    + reflexivity.
  - apply (proj2 (proj2 (proj2
             (proj2 (ossl_verify_preverified sample.get_fails 1
                       (sample.ctx sample.peer_cert 0) (sample.ex_data ∅)
                       sample.year_2030 (sample.year_2030 + 1)%Z ltac:(discriminate))
                eq_refl eq_refl)))
             std_runtime_error).
    + exact I.
    + reflexivity.
    + discriminate.
Defined.

(** The hook ends the process only when the GET itself throws
    [CertStatusNoExtensionException]. *)
Lemma ossl_verify_exit
    (getPVAStatus_uri : std_string -> result CertificateStatus)
    (preverify_ok : Z) (x509_ctx : X509_STORE_CTX) (pva_ex_data : CertStatusExData)
    (t1 t2 : time_t) (code : Z) :
  fst (ossl_verify getPVAStatus_uri preverify_ok x509_ctx pva_ex_data t1 t2) = Exit code ->
  exists uri, pva_cert_status_uri (current_cert x509_ctx) = Some uri
              /\ getPVAStatus_uri uri = Throw CertStatusNoExtensionException.
Proof.
  unfold ossl_verify, statusMonitoringRequired, getStatus, getStatusPvFromCert,
    getExtension.
  destruct (preverify_ok =? 0)%Z; simpl.
  - destruct (_ || _); discriminate.
  - destruct (pva_cert_status_uri (current_cert x509_ctx)) as [uri|]; simpl;
      [|discriminate].
    destruct (status_check_enabled pva_ex_data); [|discriminate].
    intros H. exists uri. split; [reflexivity|].
    destruct (getCachedPeerStatus _ _) as [s|]; [destruct (isValid s t1)|].
    + destruct (isGood s t2); discriminate.
    + destruct (getPVAStatus_uri uri) as [s'|e]; simpl in H.
      * destruct (isGood _ t2); discriminate.
      * destruct e; try discriminate. reflexivity.
    + destruct (getPVAStatus_uri uri) as [s'|e]; simpl in H.
      * destruct (isGood _ t2); discriminate.
      * destruct e; try discriminate. reflexivity.
Qed.

(** ** Exit codes of the certificate tool *)

Lemma main_option_errors (r : tool.Run) (o : tool.Options) :
  tool.parsed r = inr o -> tool.help o = false ->
  (tool.show_version o = true -> (tool.argc r > 2)%Z -> tool.main r = 1%Z)
  /\ (tool.show_version o = false -> tool.password_flag o = true ->
      tool.cert_file o = [] -> tool.main r = 1%Z)
  /\ (tool.show_version o = false -> tool.password_flag o = false ->
      tool.cert_file o <> [] ->
      tool.approve o || tool.revoke o || tool.deny o = true -> tool.main r = 2%Z).
Proof.
  intros Hp Hh. unfold tool.main. rewrite Hp, Hh. repeat split.
  - intros -> Ha. replace (tool.argc r >? 2)%Z with true by (symmetry; apply Z.gtb_lt; lia).
    reflexivity.
  - intros -> -> ->. reflexivity.
  - intros -> -> Hf ->. destruct (tool.cert_file o); [contradiction|]. reflexivity.
Qed.

(** C9, evaluated on the code: a status query by certificate id that the
    CMS answers in time ends with exit code 5, and a query by certificate
    file that is interrupted with SIGINT ends with exit code 0. *)
Theorem main_success_exits_5 :
  tool.main sample.status_query = 5%Z
  /\ tool.main sample.file_query_interrupted = 0%Z.
Proof. split; reflexivity. Qed.

(** ** Further facts *)

Example tmToTimeTUTC_2020 : tmToTimeTUTC (sample.jan_1_2020 0 0) = 1577836800%Z.
Proof. reflexivity. Qed.

Example tmToTimeTUTC_leap :
  tmToTimeTUTC {| tm_sec := 0; tm_min := 0; tm_hour := 0; tm_mday := 1; tm_mon := 2;
                  tm_year := 124 |} = 1709251200%Z.
Proof. reflexivity. Qed.

(** The status built on the issuing side from a PVA status is consistent. *)
Lemma CertificateStatus_of_pva_consistent (pva_status : certstatus_t)
    (valid_until revocation now : time_t) :
  consistent (CertificateStatus_of_pva pva_status valid_until revocation now).
Proof.
  apply selfConsistent_iff. destruct pva_status; reflexivity.
Qed.

(** When the hook accepts a monitored certificate with status checking
    enabled, the cache holds for its serial a status that is good at the
    time of the check. *)
Lemma ossl_verify_accept_good
    (getPVAStatus_uri : std_string -> result CertificateStatus)
    (preverify_ok : Z) (x509_ctx : X509_STORE_CTX) (pva_ex_data ex' : CertStatusExData)
    (t1 t2 : time_t) (r : Z) :
  shouldMonitor (current_cert x509_ctx) = true ->
  status_check_enabled pva_ex_data = true ->
  ossl_verify getPVAStatus_uri preverify_ok x509_ctx pva_ex_data t1 t2 = (Return r, ex') ->
  r <> 0%Z ->
  exists s, getCachedPeerStatus ex' (current_cert x509_ctx) = Some s /\ isGood s t2 = true.
Proof.
  intros Hm He. unfold ossl_verify.
  rewrite statusMonitoringRequired_shouldMonitor, Hm, He. simpl negb.
  destruct (preverify_ok =? 0)%Z eqn:Hok; simpl negb; cbv iota.
  - apply Z.eqb_eq in Hok. subst.
    destruct (_ || _); intros [= <- <-] Hr; contradiction.
  - assert (Hfetch : forall (a : result CertificateStatus),
               match (do s' <- a; Ok (setCachedPeerStatus pva_ex_data (current_cert x509_ctx) s'))
               with
               | Ok (s, ex1) =>
                   if negb (isGood s t2) then (Return 0%Z, ex1) else (Return preverify_ok, ex1)
               | Throw CertStatusNoExtensionException => (Exit 1%Z, pva_ex_data)
               | Throw _ => (Return 0%Z, pva_ex_data)
               end = (Return r, ex') ->
               r <> 0%Z ->
               exists s, getCachedPeerStatus ex' (current_cert x509_ctx) = Some s
                         /\ isGood s t2 = true).
    { intros [s'|e]; simpl.
      - destruct (isGood s' t2) eqn:Hg; simpl; intros [= <- <-] Hr; [|contradiction].
        exists s'. split; [|exact Hg].
        unfold getCachedPeerStatus. simpl. apply lookup_insert_eq.
      - destruct e; intros [= <-]; try contradiction; discriminate. }
    destruct (getCachedPeerStatus pva_ex_data (current_cert x509_ctx)) as [s|] eqn:Hc.
    + destruct (isValid s t1).
      * destruct (isGood s t2) eqn:Hg; simpl; intros [= <- <-] Hr; [|contradiction].
        exists s. split; assumption.
      * apply Hfetch.
    + apply Hfetch.
Qed.

Example ossl_verify_fetch_good :
  fst (ossl_verify (sample.get_answers sample.good_peer) 1
         (sample.ctx sample.peer_cert 0) (sample.ex_data ∅)
         sample.year_2030 sample.year_2030)
  = Return 1%Z.
Proof. reflexivity. Qed.

(** * Properties of the further code *)

(** ** [tmToTimeTUTC] and the calendar *)

(** The days counted by [tmToTimeTUTC] for a year from 1970 on, with the
    divisions written as floor divisions. *)
Lemma tmToTimeTUTC_days (s mi h d mo y : Z) :
  (70 <= y)%Z ->
  tmToTimeTUTC {| tm_sec := s; tm_min := mi; tm_hour := h; tm_mday := d; tm_mon := mo;
                  tm_year := y |}
  = (((((1900 + y - 1970) * 365 + (1900 + y - 1969) / 4 - (1900 + y - 1901) / 100
         + (1900 + y - 1601) / 400
         + nth (Z.to_nat mo) kMonthStartDays 0
         + (if (mo >? 1) && is_leap (1900 + y) then 1 else 0)
         + (d - 1)) * 24 + h) * 60 + mi) * 60 + s)%Z.
Proof.
  intros Hy. unfold tmToTimeTUTC, is_leap. simpl.
  rewrite !Z.rem_mod_nonneg by lia.
  rewrite !Z.quot_div_nonneg by lia.
  destruct (_ && _); lia.
Qed.

Lemma is_leap_true (y : Z) :
  is_leap y = true <-> (y mod 4 = 0 /\ (y mod 100 <> 0 \/ y mod 400 = 0))%Z.
Proof.
  unfold is_leap. rewrite andb_true_iff, orb_true_iff, negb_true_iff.
  rewrite !Z.eqb_eq, Z.eqb_neq. reflexivity.
Qed.

(** From 31 December to 1 January: 365 days, and one more in a leap year. *)
Lemma year_length (Y : Z) :
  ((Y + 1 - 1970) * 365 + (Y + 1 - 1969) / 4 - (Y + 1 - 1901) / 100 + (Y + 1 - 1601) / 400
   = (Y - 1970) * 365 + (Y - 1969) / 4 - (Y - 1901) / 100 + (Y - 1601) / 400
     + 365 + (if is_leap Y then 1 else 0))%Z.
Proof.
  destruct (is_leap Y) eqn:E.
  - apply is_leap_true in E. Z.to_euclidean_division_equations. lia.
  - assert (~ (Y mod 4 = 0 /\ (Y mod 100 <> 0 \/ Y mod 400 = 0))%Z) as E'.
    { intros H. apply is_leap_true in H. congruence. }
    Z.to_euclidean_division_equations. lia.
Qed.

Lemma tmToTimeTUTC_next_day (x : tm) :
  civil x -> tmToTimeTUTC (next_day x) = (tmToTimeTUTC x + 86400)%Z.
Proof.
  intros (Hy & Hm & Hd & _).
  destruct x as [s mi h d mo y]. unfold next_day. simpl in *.
  destruct (Z.ltb_spec d (days_in_month (1900 + y) mo)) as [Hlt | Hge].
  - rewrite !tmToTimeTUTC_days by lia. lia.
  - assert (Hdim : d = days_in_month (1900 + y) mo) by lia.
    destruct (Z.ltb_spec mo 11) as [Hm11 | Hm11].
    + rewrite !tmToTimeTUTC_days by lia. subst d. unfold days_in_month.
      assert (Hmon : (mo = 0 \/ mo = 1 \/ mo = 2 \/ mo = 3 \/ mo = 4 \/ mo = 5 \/ mo = 6
                      \/ mo = 7 \/ mo = 8 \/ mo = 9 \/ mo = 10)%Z) by lia.
      repeat (destruct Hmon as [-> | Hmon]); try subst mo; simpl;
        destruct (is_leap (1900 + y)); simpl; lia.
    + assert (mo = 11%Z) by lia. subst mo. subst d.
      rewrite !tmToTimeTUTC_days by lia.
      replace (1900 + (y + 1))%Z with (1900 + y + 1)%Z by lia.
      rewrite year_length. unfold days_in_month. simpl.
      destruct (is_leap (1900 + y)), (is_leap (1900 + y + 1)); simpl; lia.
Qed.

Lemma tmToTimeTUTC_next_second_same_day (s mi h d mo y : Z) (s' mi' h' : Z) :
  (70 <= y)%Z ->
  ((h' * 60 + mi') * 60 + s' = (h * 60 + mi) * 60 + s + 1)%Z ->
  tmToTimeTUTC {| tm_sec := s'; tm_min := mi'; tm_hour := h'; tm_mday := d; tm_mon := mo;
                  tm_year := y |}
  = (tmToTimeTUTC {| tm_sec := s; tm_min := mi; tm_hour := h; tm_mday := d; tm_mon := mo;
                     tm_year := y |} + 1)%Z.
Proof. intros Hy H. rewrite !tmToTimeTUTC_days by lia. lia. Qed.

(** For the years up to 10000 the values that the code computes as [int]s
    are far inside the range of an [int]. *)
Lemma int_steps_fit (x : tm) :
  (70 <= tm_year x <= 8100)%Z -> Forall int_range (int_steps x).
Proof.
  intros Hy. unfold int_steps, int_range. cbv zeta.
  rewrite !Z.quot_div_nonneg by lia.
  change (2 ^ 31)%Z with 2147483648%Z.
  repeat constructor; Z.to_euclidean_division_equations; lia.
Qed.

Lemma next_day_year (x : tm) :
  (tm_year x <= tm_year (next_day x) <= tm_year x + 1)%Z.
Proof.
  unfold next_day.
  destruct (_ <? _)%Z; [simpl; lia|]. destruct (_ <? _)%Z; simpl; lia.
Qed.

Lemma next_second_year (x : tm) :
  (tm_year x <= tm_year (next_second x) <= tm_year x + 1)%Z.
Proof.
  unfold next_second.
  destruct (_ <? _)%Z; [simpl; lia|]. destruct (_ <? _)%Z; [simpl; lia|].
  destruct (_ <? _)%Z; [simpl; lia|].
  match goal with |- context [next_day ?y] => pose proof (next_day_year y) as H end.
  simpl in H. exact H.
Qed.

(** X1: for the years that a date text or an [ASN1_TIME] can name, 1970 to
    9999, [tmToTimeTUTC] counts the seconds of the Gregorian calendar from
    1 January 1970, 00:00:00: that instant is 0, and from any calendar time
    of those years the time one second later is one more, and the same time
    on the following day is 86400 more, across the ends of months and years
    and through leap years. For these times, and for the times one second
    and one day later, the values that the code computes as [int]s stay in
    the range of an [int]. *)
Theorem tmToTimeTUTC_calendar (x : tm) :
  civil x ->
  tmToTimeTUTC epoch = 0%Z
  /\ tmToTimeTUTC (next_second x) = (tmToTimeTUTC x + 1)%Z
  /\ tmToTimeTUTC (next_day x) = (tmToTimeTUTC x + 86400)%Z
  /\ Forall int_range (int_steps x ++ int_steps (next_second x) ++ int_steps (next_day x)).
Proof.
  intros Hc. split; [reflexivity|].
  split; [|split; [apply tmToTimeTUTC_next_day; exact Hc|]].
  - pose proof Hc as (Hy & Hm & Hd & Hh & Hmi & Hs).
    destruct x as [s mi h d mo y]. unfold next_second. simpl in *.
    destruct (Z.ltb_spec s 59); [apply tmToTimeTUTC_next_second_same_day; lia|].
    destruct (Z.ltb_spec mi 59); [apply tmToTimeTUTC_next_second_same_day; lia|].
    destruct (Z.ltb_spec h 23); [apply tmToTimeTUTC_next_second_same_day; lia|].
    rewrite tmToTimeTUTC_next_day.
    + rewrite !tmToTimeTUTC_days by lia. lia.
    + unfold civil. simpl. lia.
  - destruct Hc as (Hy & _).
    pose proof (next_day_year x). pose proof (next_second_year x).
    rewrite !Forall_app. repeat split; apply int_steps_fit; lia.
Qed.

Lemma tmToTimeTUTC_calendar_witness :
  tmToTimeTUTC
    (next_second {| tm_sec := 59; tm_min := 59; tm_hour := 23; tm_mday := 28;
                    tm_mon := 1; tm_year := 124 |})
  = (tmToTimeTUTC {| tm_sec := 59; tm_min := 59; tm_hour := 23; tm_mday := 28;
                     tm_mon := 1; tm_year := 124 |} + 1)%Z
  /\ tmToTimeTUTC
       (next_day {| tm_sec := 59; tm_min := 59; tm_hour := 23; tm_mday := 28;
                    tm_mon := 1; tm_year := 124 |})
     = (tmToTimeTUTC {| tm_sec := 59; tm_min := 59; tm_hour := 23; tm_mday := 28;
                        tm_mon := 1; tm_year := 124 |} + 86400)%Z.
Proof.
  destruct (tmToTimeTUTC_calendar {| tm_sec := 59; tm_min := 59; tm_hour := 23;
                                     tm_mday := 28; tm_mon := 1; tm_year := 124 |})
    as (_ & H1 & H2 & _).
  - unfold civil. simpl. vm_compute. intuition discriminate.
  - split; [exact H1 | exact H2].
Defined.

Example next_second_leap_day :
  next_second {| tm_sec := 59; tm_min := 59; tm_hour := 23; tm_mday := 28;
                 tm_mon := 1; tm_year := 124 |}
  = {| tm_sec := 0; tm_min := 0; tm_hour := 0; tm_mday := 29; tm_mon := 1;
       tm_year := 124 |}.
Proof. reflexivity. Qed.

(** ** Names: uniqueness *)

Lemma split_at_last (c : ascii) (a b d1 d2 : std_string) :
  ~ In c d1 -> ~ In c d2 -> a ++ c :: d1 = b ++ c :: d2 -> a = b /\ d1 = d2.
Proof.
  intros H1 H2. revert b. induction a as [|x a IH]; intros [|y b] H; simpl in H.
  - injection H as ->. auto.
  - injection H as <- ->. exfalso. apply H1. apply in_or_app. right. left. reflexivity.
  - injection H as -> <-. exfalso. apply H2. apply in_or_app. right. left. reflexivity.
  - injection H as -> H. destruct (IH _ H) as [-> ->]. auto.
Qed.

Lemma rendered_serial_no_colon (serial : N) :
  ~ In ":"%char (ostream.pad 16 "0"%char (ostream.num_put 10 serial)).
Proof.
  intros Hin.
  assert (Hread : read_digits 10 (ostream.pad 16 "0"%char (ostream.num_put 10 serial)) 0
                  = Some serial).
  { unfold ostream.pad. rewrite read_digits_zeros by reflexivity.
    apply read_num_put; lia. }
  apply read_digits_all in Hread. rewrite List.Forall_forall in Hread.
  apply (Hread _ Hin). reflexivity.
Qed.

(** X2: the status-PV name determines the certificate: two names built by
    [makeStatusURI] are equal only for the same issuer id and the same
    serial, whatever the issuer ids are. *)
Theorem makeStatusURI_injective (issuer1 issuer2 : std_string) (serial1 serial2 : N) :
  makeStatusURI issuer1 serial1 = makeStatusURI issuer2 serial2 ->
  issuer1 = issuer2 /\ serial1 = serial2.
Proof.
  rewrite !makeStatusURI_unfold. intros H.
  apply app_inv_head in H.
  change (lit ":") with [":"%char] in H. simpl app in H.
  apply split_at_last in H; try apply rendered_serial_no_colon.
  destruct H as [-> Hpad]. split; [reflexivity|].
  assert (Hr : forall s, read_digits 10 (ostream.pad 16 "0"%char (ostream.num_put 10 s)) 0
                         = Some s).
  { intros s. unfold ostream.pad. rewrite read_digits_zeros by reflexivity.
    apply read_num_put; lia. }
  pose proof (Hr serial1) as H1. rewrite Hpad, Hr in H1. congruence.
Qed.

Lemma makeStatusURI_injective_witness :
  lit "27975e6b" = lit "27975e6b" /\ 255%N = 255%N.
Proof. apply (makeStatusURI_injective (lit "27975e6b") (lit "27975e6b") 255 255). reflexivity. Defined.

Lemma hex_of_octet_inj (b1 b2 : byte) : hex_of_octet b1 = hex_of_octet b2 -> b1 = b2.
Proof.
  unfold hex_of_octet. intros [= Hhi Hlo].
  pose proof (Byte.to_N_bounded b1) as B1. pose proof (Byte.to_N_bounded b2) as B2.
  assert (Hh : (Byte.to_N b1 / 16 = Byte.to_N b2 / 16)%N).
  { apply (f_equal (digit_value 16)) in Hhi.
    rewrite !digit_value_char in Hhi;
      try (apply N.Div0.div_lt_upper_bound); try lia. congruence. }
  assert (Hl : (Byte.to_N b1 mod 16 = Byte.to_N b2 mod 16)%N).
  { apply (f_equal (digit_value 16)) in Hlo.
    rewrite !digit_value_char in Hlo; try (apply N.mod_lt); try lia. congruence. }
  assert (Heq : Byte.to_N b1 = Byte.to_N b2).
  { rewrite (N.div_mod (Byte.to_N b1) 16), (N.div_mod (Byte.to_N b2) 16) by lia.
    rewrite Hh, Hl. reflexivity. }
  pose proof (Byte.of_to_N b1) as E1. rewrite Heq, Byte.of_to_N in E1. congruence.
Qed.

Lemma hex_of_octets_inj (l1 l2 : list byte) :
  hex_of_octets l1 = hex_of_octets l2 -> l1 = l2.
Proof.
  revert l2. induction l1 as [|b1 l1 IH]; intros [|b2 l2] H; try discriminate;
    [reflexivity|].
  cbn [hex_of_octets flat_map hex_of_octet app] in H.
  injection H as Hhi Hlo H.
  f_equal; [apply hex_of_octet_inj; unfold hex_of_octet; congruence | apply IH, H].
Qed.

Lemma getIssuerId_Some (ca_cert : X509) (skid : list byte) :
  subject_key_identifier ca_cert = Some skid ->
  getIssuerId ca_cert = Ok (hex_of_octets (firstn 4 skid)).
Proof.
  intros H. unfold getIssuerId. rewrite H. f_equal. unfold ostream.str.
  rewrite (getIssuerId_loop_buf skid ostream.init 0) by reflexivity. reflexivity.
Qed.

(** X3: two certificates that carry a Subject Key Identifier have the same
    issuer id exactly when the first four octets of their identifiers
    agree (all octets, for an identifier shorter than four). *)
Theorem getIssuerId_collision (cert1 cert2 : X509) (skid1 skid2 : list byte) :
  subject_key_identifier cert1 = Some skid1 ->
  subject_key_identifier cert2 = Some skid2 ->
  (getIssuerId cert1 = getIssuerId cert2 <-> firstn 4 skid1 = firstn 4 skid2).
Proof.
  intros H1 H2. rewrite (getIssuerId_Some _ _ H1), (getIssuerId_Some _ _ H2). split.
  - intros [= H]. apply hex_of_octets_inj. exact H.
  - intros ->. reflexivity.
Qed.

Lemma getIssuerId_collision_witness :
  getIssuerId sample.ca_cert
  = getIssuerId {| subject_key_identifier := Some [x27; x97; x5e; x6b; x99];
                   pva_cert_status_uri := None; serial_number := 7 |}
  <-> firstn 4 [x27; x97; x5e; x6b; x01; xff] = firstn 4 [x27; x97; x5e; x6b; x99].
Proof.
  apply (getIssuerId_collision sample.ca_cert
           {| subject_key_identifier := Some [x27; x97; x5e; x6b; x99];
              pva_cert_status_uri := None; serial_number := 7 |}); reflexivity.
Defined.

(** ** Decoding a status token: trust, shape of the result, errors *)

Lemma verifyOCSPResponse_ok_inv (lib : Library) (b : OCSP_BASICRESP) (allow : bool)
    (dir : std_string) (r : bool) :
  verifyOCSPResponse lib b allow dir = Ok r ->
  r = true
  /\ exists ca store,
       signer b = Some ca
       /\ (ensureTrusted lib ca (certs b) = true
           \/ (allow = true /\ X509_check_issued lib ca ca = X509_V_OK))
       /\ In ca (store_certs store)
       /\ locations store = match dir with [] => [] | _ => [dir] end
       /\ (0 < OCSP_basic_verify lib b (certs b) store)%Z.
Proof.
  unfold verifyOCSPResponse.
  destruct (signer b) as [ca|]; [|discriminate].
  destruct (_ && _) eqn:Htrust; [discriminate|].
  destruct (negb (X509_STORE_new lib)); [discriminate|].
  destruct (negb (_ =? 1)%Z); [discriminate|].
  assert (Ht : ensureTrusted lib ca (certs b) = true
               \/ (allow = true /\ X509_check_issued lib ca ca = X509_V_OK)).
  { apply andb_false_iff in Htrust. destruct Htrust as [H | H].
    - right. apply orb_false_iff in H. destruct H as [H1 H2].
      apply negb_false_iff in H1, H2. apply Z.eqb_eq in H2. auto.
    - left. apply negb_false_iff in H. exact H. }
  assert (Hin : forall st l, In ca (store_certs st) -> In ca (store_certs (add_chain lib st l))).
  { intros st l. revert st. induction l as [|c l IH]; intros st Hst; simpl; [exact Hst|].
    destruct (_ =? 1)%Z; apply IH; simpl; [apply in_or_app; auto | exact Hst]. }
  assert (Hloc : forall st l, locations (add_chain lib st l) = locations st).
  { intros st l. revert st. induction l as [|c l IH]; intros st; simpl; [reflexivity|].
    destruct (_ =? 1)%Z; rewrite IH; reflexivity. }
  destruct dir as [|c dir]; simpl.
  - destruct (negb (X509_STORE_CTX_new lib)); [discriminate|].
    destruct (negb (_ =? 1)%Z); [discriminate|].
    destruct (negb (_ =? 1)%Z); [discriminate|].
    match goal with
    | |- context [(?v <=? 0)%Z] => destruct (Z.leb_spec v 0) as [|Hv]; [discriminate|]
    end.
    intros [= <-]. split; [reflexivity|].
    eexists ca, _. repeat split; [exact Ht | | | exact Hv].
    + destruct (certs b); [apply Hin|]; simpl; auto.
    + destruct (certs b); [rewrite Hloc|]; reflexivity.
  - destruct (negb (_ =? 1)%Z); simpl; [discriminate|].
    destruct (negb (X509_STORE_CTX_new lib)); [discriminate|].
    destruct (negb (_ =? 1)%Z); [discriminate|].
    destruct (negb (_ =? 1)%Z); [discriminate|].
    match goal with
    | |- context [(?v <=? 0)%Z] => destruct (Z.leb_spec v 0) as [|Hv]; [discriminate|]
    end.
    intros [= <-]. split; [reflexivity|].
    eexists ca, _. repeat split; [exact Ht | | | exact Hv].
    + destruct (certs b); [apply Hin|]; simpl; auto.
    + destruct (certs b); [rewrite Hloc|]; reflexivity.
Qed.

(** X4: [parse] returns a status only for a token that decodes to a
    successful response whose signer is known and trusted - [ensureTrusted]
    accepts it, or self-signed authorities are allowed and the signer is
    issued by itself - and whose signature [OCSP_basic_verify] accepts
    against a store that holds the signer. *)
Theorem parse_only_trusted (lib : Library) (bytes : list byte) (allow : bool)
    (dir : std_string) (now : time_t) (p : ParsedOCSPStatus) :
  parse lib bytes allow dir now = Ok p ->
  exists resp b ca store,
    d2i_OCSP_RESPONSE_bio lib bytes = Some resp
    /\ response_status resp = OCSP_RESPONSE_STATUS_SUCCESSFUL
    /\ basic resp = Some b
    /\ signer b = Some ca
    /\ (ensureTrusted lib ca (certs b) = true
        \/ (allow = true /\ X509_check_issued lib ca ca = X509_V_OK))
    /\ In ca (store_certs store)
    /\ (0 < OCSP_basic_verify lib b (certs b) store)%Z.
Proof.
  unfold parse, getOCSPResponse.
  destruct (BIO_new_mem_buf lib bytes); simpl; [|discriminate].
  destruct (d2i_OCSP_RESPONSE_bio lib bytes) as [resp|]; simpl; [|discriminate].
  destruct (Z.eqb_spec (response_status resp) OCSP_RESPONSE_STATUS_SUCCESSFUL) as [Hs|];
    simpl; [|discriminate].
  destruct (basic resp) as [b|] eqn:Hb; [|discriminate].
  destruct (verifyOCSPResponse lib b allow dir) as [r|] eqn:Hv; simpl; [|discriminate].
  intros _.
  destruct (verifyOCSPResponse_ok_inv _ _ _ _ _ Hv) as (_ & ca & store & H1 & H2 & H3 & _ & H5).
  exists resp, b, ca, store. repeat split; auto.
Qed.

Lemma parse_only_trusted_witness :
  exists resp b ca store,
    d2i_OCSP_RESPONSE_bio (sample.lib (sample.response OCSP_CERTSTATUS_GOOD None))
      sample.token = Some resp
    /\ response_status resp = OCSP_RESPONSE_STATUS_SUCCESSFUL
    /\ basic resp = Some b
    /\ signer b = Some ca
    /\ (ensureTrusted (sample.lib (sample.response OCSP_CERTSTATUS_GOOD None)) ca (certs b)
        = true
        \/ (false = true
            /\ X509_check_issued (sample.lib (sample.response OCSP_CERTSTATUS_GOOD None))
                 ca ca = X509_V_OK))
    /\ In ca (store_certs store)
    /\ (0 < OCSP_basic_verify (sample.lib (sample.response OCSP_CERTSTATUS_GOOD None))
              b (certs b) store)%Z.
Proof.
  apply (parse_only_trusted (sample.lib (sample.response OCSP_CERTSTATUS_GOOD None))
           sample.token false [] sample.year_2030
           {| parsed_serial := 255;
              parsed_ocsp_status := OCSP_CERTSTATUS_GOOD;
              parsed_status_date := {| t := 1577836800%Z |};
              parsed_status_valid_until_date := {| t := 1577838600%Z |};
              parsed_revocation_date := {| t := 0%Z |} |}).
  vm_compute. reflexivity.
Defined.

(** X5: the status that [parse] returns is read from the first response of
    the token alone: its serial, its status, its [thisUpdate] and
    [nextUpdate]; a status other than REVOKED is returned with revocation
    date 0 whatever the response carries, and a response without
    [nextUpdate] is returned as valid until 0. *)
Theorem parse_reports_first_response (lib : Library) (bytes : list byte) (allow : bool)
    (dir : std_string) (now : time_t) (p : ParsedOCSPStatus) :
  parse lib bytes allow dir now = Ok p ->
  exists resp b single rest,
    d2i_OCSP_RESPONSE_bio lib bytes = Some resp
    /\ basic resp = Some b
    /\ responses b = single :: rest
    /\ parsed_serial p = ASN1ToUint64 lib (certId_serialNumber single)
    /\ parsed_ocsp_status p = certStatus single
    /\ StatusDate_of_asn1 (thisUpdate single) = Ok (parsed_status_date p)
    /\ StatusDate_of_asn1 (nextUpdate single) = Ok (parsed_status_valid_until_date p)
    /\ (certStatus single <> OCSP_CERTSTATUS_REVOKED ->
        parsed_revocation_date p = {| t := 0%Z |})
    /\ (nextUpdate single = None -> parsed_status_valid_until_date p = {| t := 0%Z |}).
Proof.
  unfold parse, getOCSPResponse.
  destruct (BIO_new_mem_buf lib bytes); simpl; [|discriminate].
  destruct (d2i_OCSP_RESPONSE_bio lib bytes) as [resp|]; simpl; [|discriminate].
  destruct (negb _); simpl; [discriminate|].
  destruct (basic resp) as [b|] eqn:Hb; [|discriminate].
  destruct (verifyOCSPResponse lib b allow dir) as [r|]; simpl; [|discriminate].
  destruct (responses b) as [|single rest] eqn:Hr; [discriminate|].
  intros H. exists resp, b, single, rest.
  assert (Hnone : forall d, StatusDate_of_asn1 None = Ok d -> d = {| t := 0%Z |}).
  { intros d. unfold StatusDate_of_asn1. simpl. congruence. }
  destruct (certStatus single) eqn:Hc; simpl in H.
  - destruct (StatusDate_of_asn1 (thisUpdate single)); simpl in H; [|discriminate].
    destruct (StatusDate_of_asn1 (nextUpdate single)) eqn:Hn; simpl in H; [|discriminate].
    injection H as <-. simpl. repeat split; auto.
    intros Hnu. rewrite Hnu in Hn. auto.
  - destruct (revocationTime single) as [rt|]; simpl in H; [|discriminate].
    destruct (StatusDate_of_asn1 (thisUpdate single)); simpl in H; [|discriminate].
    destruct (StatusDate_of_asn1 (nextUpdate single)) eqn:Hn; simpl in H; [|discriminate].
    destruct (StatusDate_of_asn1 (Some rt)); simpl in H; [|discriminate].
    injection H as <-. simpl. repeat split; auto; [congruence|].
    intros Hnu. rewrite Hnu in Hn. auto.
  - destruct (StatusDate_of_asn1 (thisUpdate single)); simpl in H; [|discriminate].
    destruct (StatusDate_of_asn1 (nextUpdate single)) eqn:Hn; simpl in H; [|discriminate].
    injection H as <-. simpl. repeat split; auto.
    intros Hnu. rewrite Hnu in Hn. auto.
Qed.

Lemma parse_reports_first_response_witness :
  exists resp b single rest,
    d2i_OCSP_RESPONSE_bio
      (sample.lib (sample.response OCSP_CERTSTATUS_GOOD (Some (Some (sample.jan_1_2020 0 10)))))
      sample.token = Some resp
    /\ basic resp = Some b
    /\ responses b = single :: rest
    /\ 255%N = ASN1ToUint64
                 (sample.lib (sample.response OCSP_CERTSTATUS_GOOD
                                (Some (Some (sample.jan_1_2020 0 10)))))
                 (certId_serialNumber single)
    /\ OCSP_CERTSTATUS_GOOD = certStatus single
    /\ StatusDate_of_asn1 (thisUpdate single) = Ok {| t := 1577836800%Z |}
    /\ StatusDate_of_asn1 (nextUpdate single) = Ok {| t := 1577838600%Z |}
    /\ (certStatus single <> OCSP_CERTSTATUS_REVOKED -> {| t := 0%Z |} = {| t := 0%Z |})
    /\ (nextUpdate single = None -> {| t := 1577838600%Z |} = {| t := 0%Z |}).
Proof.
  apply (parse_reports_first_response
           (sample.lib (sample.response OCSP_CERTSTATUS_GOOD
                          (Some (Some (sample.jan_1_2020 0 10)))))
           sample.token false [] sample.year_2030
           {| parsed_serial := 255;
              parsed_ocsp_status := OCSP_CERTSTATUS_GOOD;
              parsed_status_date := {| t := 1577836800%Z |};
              parsed_status_valid_until_date := {| t := 1577838600%Z |};
              parsed_revocation_date := {| t := 0%Z |} |}).
  vm_compute. reflexivity.
Defined.

Lemma StatusDate_of_asn1_throws (time : option ASN1_TIME) (e : exn) :
  StatusDate_of_asn1 time = Throw e -> time = Some None /\ e = std_runtime_error.
Proof.
  unfold StatusDate_of_asn1, asn1TimeToTimeT.
  destruct time as [[x|]|]; simpl; try discriminate. intros [= <-]. auto.
Qed.

(** X6: every exception that leaves [parse] is an [OCSPParseException],
    except the [std::runtime_error] of a time of the first response -
    [thisUpdate], [nextUpdate] or the revocation time - that
    [ASN1_TIME_to_tm] cannot convert. *)
Theorem parse_exceptions (lib : Library) (bytes : list byte) (allow : bool)
    (dir : std_string) (now : time_t) (e : exn) :
  parse lib bytes allow dir now = Throw e ->
  e = OCSPParseException
  \/ (e = std_runtime_error
      /\ exists resp b single rest,
           d2i_OCSP_RESPONSE_bio lib bytes = Some resp
           /\ basic resp = Some b
           /\ responses b = single :: rest
           /\ (thisUpdate single = Some None \/ nextUpdate single = Some None
               \/ revocationTime single = Some None)).
Proof.
  unfold parse, getOCSPResponse.
  destruct (BIO_new_mem_buf lib bytes); simpl; [|intros [= <-]; auto].
  destruct (d2i_OCSP_RESPONSE_bio lib bytes) as [resp|]; simpl; [|intros [= <-]; auto].
  destruct (negb _); simpl; [intros [= <-]; auto|].
  destruct (basic resp) as [b|] eqn:Hb; [|intros [= <-]; auto].
  destruct (verifyOCSPResponse lib b allow dir) as [r|e'] eqn:Hv; simpl.
  2:{ intros [= <-]. left. eapply verifyOCSPResponse_throws. exact Hv. }
  destruct (responses b) as [|single rest] eqn:Hr; [intros [= <-]; auto|].
  intros H.
  assert (Hcase : e = OCSPParseException
                  \/ (e = std_runtime_error
                      /\ (thisUpdate single = Some None \/ nextUpdate single = Some None
                          \/ revocationTime single = Some None))).
  { destruct (certStatus single) eqn:Hc; simpl in H.
    - destruct (StatusDate_of_asn1 (thisUpdate single)) eqn:H1; simpl in H.
      2:{ injection H as <-. apply StatusDate_of_asn1_throws in H1. tauto. }
      destruct (StatusDate_of_asn1 (nextUpdate single)) eqn:H2; simpl in H.
      2:{ injection H as <-. apply StatusDate_of_asn1_throws in H2. tauto. }
      discriminate.
    - destruct (revocationTime single) as [rt|] eqn:Hrt; simpl in H;
        [|injection H as <-; auto].
      destruct (StatusDate_of_asn1 (thisUpdate single)) eqn:H1; simpl in H.
      2:{ injection H as <-. apply StatusDate_of_asn1_throws in H1. tauto. }
      destruct (StatusDate_of_asn1 (nextUpdate single)) eqn:H2; simpl in H.
      2:{ injection H as <-. apply StatusDate_of_asn1_throws in H2. tauto. }
      destruct (StatusDate_of_asn1 (Some rt)) eqn:H3; simpl in H; [discriminate|].
      injection H as <-. apply StatusDate_of_asn1_throws in H3.
      destruct H3 as [[= ->] ->]. tauto.
    - destruct (StatusDate_of_asn1 (thisUpdate single)) eqn:H1; simpl in H.
      2:{ injection H as <-. apply StatusDate_of_asn1_throws in H1. tauto. }
      destruct (StatusDate_of_asn1 (nextUpdate single)) eqn:H2; simpl in H.
      2:{ injection H as <-. apply StatusDate_of_asn1_throws in H2. tauto. }
      discriminate. }
  destruct Hcase as [-> | [-> Ht]]; [left; reflexivity|].
  right. split; [reflexivity|]. exists resp, b, single, rest. auto.
Qed.

Lemma parse_exceptions_witness :
  std_runtime_error = OCSPParseException
  \/ (std_runtime_error = std_runtime_error
      /\ exists resp b single rest,
           d2i_OCSP_RESPONSE_bio
             (sample.lib (sample.response OCSP_CERTSTATUS_REVOKED (Some None)))
             sample.token = Some resp
           /\ basic resp = Some b
           /\ responses b = single :: rest
           /\ (thisUpdate single = Some None \/ nextUpdate single = Some None
               \/ revocationTime single = Some None)).
Proof.
  apply (parse_exceptions (sample.lib (sample.response OCSP_CERTSTATUS_REVOKED (Some None)))
           sample.token false [] sample.year_2030 std_runtime_error).
  vm_compute. reflexivity.
Defined.

(** ** The verification hook: what it consults and what it changes *)

(** X7: a cached status that is still valid is all the hook consults: its
    result is the same whatever a GET of the status PV would answer. *)
Theorem ossl_verify_cached_no_fetch
    (get1 get2 : std_string -> result CertificateStatus)
    (preverify_ok : Z) (x509_ctx : X509_STORE_CTX) (pva_ex_data : CertStatusExData)
    (t1 t2 : time_t) (s : CertificateStatus) :
  getCachedPeerStatus pva_ex_data (current_cert x509_ctx) = Some s ->
  isValid s t1 = true ->
  ossl_verify get1 preverify_ok x509_ctx pva_ex_data t1 t2
  = ossl_verify get2 preverify_ok x509_ctx pva_ex_data t1 t2.
Proof.
  intros Hc Hv. unfold ossl_verify. rewrite Hc, Hv. reflexivity.
Qed.

Lemma ossl_verify_cached_no_fetch_witness :
  ossl_verify sample.get_fails 1 (sample.ctx sample.peer_cert 0)
    (sample.ex_data {[ 255%N := sample.good_peer ]}) sample.year_2030 sample.year_2030
  = ossl_verify (sample.get_answers (sample.peer_status OCSP_CERTSTATUS_REVOKED REVOKED 0%Z))
      1 (sample.ctx sample.peer_cert 0)
      (sample.ex_data {[ 255%N := sample.good_peer ]}) sample.year_2030 sample.year_2030.
Proof.
  apply (ossl_verify_cached_no_fetch sample.get_fails
           (sample.get_answers (sample.peer_status OCSP_CERTSTATUS_REVOKED REVOKED 0%Z))
           1 (sample.ctx sample.peer_cert 0)
           (sample.ex_data {[ 255%N := sample.good_peer ]})
           sample.year_2030 sample.year_2030 sample.good_peer).
  - reflexivity.
  - reflexivity.
Defined.

(** What a call of the hook can return, and what it leaves of the cache. *)
Lemma ossl_verify_effects
    (getPVAStatus_uri : std_string -> result CertificateStatus)
    (preverify_ok : Z) (x509_ctx : X509_STORE_CTX) (pva_ex_data : CertStatusExData)
    (t1 t2 : time_t) :
  let run := ossl_verify getPVAStatus_uri preverify_ok x509_ctx pva_ex_data t1 t2 in
  (fst run = Return 0%Z \/ fst run = Return preverify_ok \/ fst run = Exit 1%Z)
  /\ status_check_enabled (snd run) = status_check_enabled pva_ex_data
  /\ forall k : N, k <> serial_number (current_cert x509_ctx) ->
                   peer_statuses (snd run) !! k = peer_statuses pva_ex_data !! k.
Proof.
  cbv zeta. unfold ossl_verify.
  destruct (negb (preverify_ok =? 0)%Z).
  2:{ destruct (_ || _); simpl; auto. }
  destruct (negb (statusMonitoringRequired _)); [simpl; auto|].
  destruct (status_check_enabled pva_ex_data) eqn:He; [|simpl; auto].
  assert (Hfetch : forall a : result CertificateStatus,
             let run := match (do s' <- a;
                                   Ok (setCachedPeerStatus pva_ex_data (current_cert x509_ctx) s'))
                        with
                        | Ok (s, ex') =>
                            if negb (isGood s t2) then (Return 0%Z, ex')
                            else (Return preverify_ok, ex')
                        | Throw CertStatusNoExtensionException => (Exit 1%Z, pva_ex_data)
                        | Throw _ => (Return 0%Z, pva_ex_data)
                        end in
             (fst run = Return 0%Z \/ fst run = Return preverify_ok \/ fst run = Exit 1%Z)
             /\ status_check_enabled (snd run) = true
             /\ forall k : N, k <> serial_number (current_cert x509_ctx) ->
                              peer_statuses (snd run) !! k = peer_statuses pva_ex_data !! k).
  { intros [s'|e]; simpl.
    - destruct (isGood s' t2); simpl; (split; [auto|]); (split; [exact He|]);
        intros k Hk; apply lookup_insert_ne; congruence.
    - destruct e; simpl; auto. }
  destruct (getCachedPeerStatus _ _) as [s|]; [|apply Hfetch].
  destruct (isValid s t1); [|apply Hfetch].
  destruct (isGood s t2); simpl; auto.
Qed.

(** X8: the hook returns 0 or [preverify_ok], or ends the process with
    status 1, and nothing else; it leaves the status-check flag and the
    cache entries of every other serial number as they were. *)
Theorem ossl_verify_frame
    (getPVAStatus_uri : std_string -> result CertificateStatus)
    (preverify_ok : Z) (x509_ctx : X509_STORE_CTX) (pva_ex_data : CertStatusExData)
    (t1 t2 : time_t) :
  let run := ossl_verify getPVAStatus_uri preverify_ok x509_ctx pva_ex_data t1 t2 in
  (fst run = Return 0%Z \/ fst run = Return preverify_ok \/ fst run = Exit 1%Z)
  /\ status_check_enabled (snd run) = status_check_enabled pva_ex_data
  /\ forall k : N, k <> serial_number (current_cert x509_ctx) ->
                   peer_statuses (snd run) !! k = peer_statuses pva_ex_data !! k.
Proof.
  exact (ossl_verify_effects getPVAStatus_uri preverify_ok x509_ctx pva_ex_data t1 t2).
Qed.

Lemma ossl_verify_accept_good_witness :
  exists s, getCachedPeerStatus (sample.ex_data {[ 255%N := sample.good_peer ]})
              (current_cert (sample.ctx sample.peer_cert 0)) = Some s
            /\ isGood s sample.year_2030 = true.
Proof.
  apply (ossl_verify_accept_good (sample.get_answers sample.good_peer) 1
           (sample.ctx sample.peer_cert 0) (sample.ex_data ∅)
           (sample.ex_data {[ 255%N := sample.good_peer ]})
           sample.year_2030 sample.year_2030 1).
  - reflexivity.
  - reflexivity.
  - vm_compute. reflexivity.
  - discriminate.
Defined.

Lemma ossl_verify_exit_witness :
  exists uri, pva_cert_status_uri (current_cert (sample.ctx sample.peer_cert 0)) = Some uri
              /\ (fun _ : std_string => @Throw CertificateStatus CertStatusNoExtensionException)
                   uri = Throw CertStatusNoExtensionException.
Proof.
  apply (ossl_verify_exit (fun _ => Throw CertStatusNoExtensionException) 1
           (sample.ctx sample.peer_cert 0) (sample.ex_data ∅)
           sample.year_2030 sample.year_2030 1).
  reflexivity.
Defined.

(** X9: when the hook accepts a certificate that carries the status-PV
    extension, with status checking enabled, the cache then holds for the
    serial of the certificate a status that is good at the time of the
    check. *)
Theorem ossl_verify_accepts_only_good
    (getPVAStatus_uri : std_string -> result CertificateStatus)
    (preverify_ok : Z) (x509_ctx : X509_STORE_CTX) (pva_ex_data ex' : CertStatusExData)
    (t1 t2 : time_t) (r : Z) :
  shouldMonitor (current_cert x509_ctx) = true ->
  status_check_enabled pva_ex_data = true ->
  ossl_verify getPVAStatus_uri preverify_ok x509_ctx pva_ex_data t1 t2 = (Return r, ex') ->
  r <> 0%Z ->
  r = preverify_ok
  /\ exists s, getCachedPeerStatus ex' (current_cert x509_ctx) = Some s
               /\ isGood s t2 = true.
Proof.
  intros Hm He Hrun Hr. split.
  - pose proof (ossl_verify_effects getPVAStatus_uri preverify_ok x509_ctx pva_ex_data t1 t2)
      as (Hrange & _).
    rewrite Hrun in Hrange. simpl in Hrange.
    destruct Hrange as [[= ?] | [[= ?] | ?]]; congruence.
  - eapply ossl_verify_accept_good; eauto.
Qed.

Lemma ossl_verify_accepts_only_good_witness :
  1%Z = 1%Z
  /\ exists s, getCachedPeerStatus (sample.ex_data {[ 255%N := sample.good_peer ]})
                 (current_cert (sample.ctx sample.peer_cert 0)) = Some s
               /\ isGood s sample.year_2030 = true.
Proof.
  apply (ossl_verify_accepts_only_good (sample.get_answers sample.good_peer) 1
           (sample.ctx sample.peer_cert 0) (sample.ex_data ∅)
           (sample.ex_data {[ 255%N := sample.good_peer ]})
           sample.year_2030 sample.year_2030 1).
  - reflexivity.
  - reflexivity.
  - vm_compute. reflexivity.
  - discriminate.
Defined.

(** X10: the hook ends the process only through the GET: when no GET of a
    status PV throws [CertStatusNoExtensionException], every call of the hook
    returns. *)
Theorem ossl_verify_returns
    (getPVAStatus_uri : std_string -> result CertificateStatus)
    (preverify_ok : Z) (x509_ctx : X509_STORE_CTX) (pva_ex_data : CertStatusExData)
    (t1 t2 : time_t) :
  (forall uri, getPVAStatus_uri uri <> Throw CertStatusNoExtensionException) ->
  exists r, fst (ossl_verify getPVAStatus_uri preverify_ok x509_ctx pva_ex_data t1 t2)
            = Return r.
Proof.
  intros Hget.
  destruct (fst (ossl_verify getPVAStatus_uri preverify_ok x509_ctx pva_ex_data t1 t2))
    as [r|code] eqn:E; [eauto|].
  apply ossl_verify_exit in E. destruct E as (uri & _ & E). destruct (Hget _ E).
Qed.

Lemma ossl_verify_returns_witness :
  exists r, fst (ossl_verify sample.get_fails 1 (sample.ctx sample.peer_cert 0)
                   (sample.ex_data ∅) sample.year_2030 sample.year_2030)
            = Return r.
Proof.
  apply (ossl_verify_returns sample.get_fails 1 (sample.ctx sample.peer_cert 0)
           (sample.ex_data ∅) sample.year_2030 sample.year_2030).
  intros uri. discriminate.
Defined.

(** ** Status objects *)

(** X11: a status built on the issuing side from a PVA status, a validity
    limit and a revocation date satisfies the three consistency invariants,
    carries no OCSP bytes, and is good at a time exactly when the PVA status
    is VALID and the time is before the validity limit. *)
Theorem CertificateStatus_of_pva_spec (pva_status : certstatus_t)
    (valid_until revocation now : time_t) (at_time : time_t) :
  let c := CertificateStatus_of_pva pva_status valid_until revocation now in
  consistent c
  /\ ocsp_bytes c = []
  /\ (isGood c at_time = true <-> pva_status = VALID /\ (at_time < valid_until)%Z).
Proof.
  cbv zeta. split; [|split].
  - apply selfConsistent_iff. destruct pva_status; reflexivity.
  - reflexivity.
  - unfold isGood, isValid. simpl. rewrite andb_true_iff, Z.gtb_lt.
    destruct pva_status; vm_compute; intuition congruence.
Qed.

(** X12: the construction of a status from a status PV value returns a
    status in two cases only, and in both the status field of the value
    holds the index of an enumerator: the OCSP bytes are empty, and then
    nothing is compared; or the status decoded from the bytes and the PVA
    status of the value are consistent and the three date strings of the
    value convert to the status date, the validity limit and the revocation
    date decoded from the bytes. *)
Theorem CertificateStatus_of_Value_ok
    (OCSPStatus_init : list byte -> result OCSPStatus)
    (get_time : std_string -> option tm) (v : Value) (c : CertificateStatus) :
  CertificateStatus_of_Value OCSPStatus_init get_time v = Behaves (Ok c)
  <-> exists o st,
        OCSPStatus_init (ocsp_response v) = Ok o
        /\ status_value_index v = certstatus_i st
        /\ c = {| ocsp := o; status := st |}
        /\ (ocsp_bytes o = []
            \/ (selfConsistent c = true
                /\ StatusDate_of_string get_time (ocsp_status_date v) = Ok (status_date o)
                /\ StatusDate_of_string get_time (ocsp_certified_until v)
                   = Ok (status_valid_until_date o)
                /\ StatusDate_of_string get_time (ocsp_revocation_date v)
                   = Ok (revocation_date o))).
Proof.
  assert (Hdate : forall a b : StatusDate, date_eq a b = true <-> b = a).
  { intros [a] [b]. unfold date_eq. simpl. rewrite Z.eqb_eq. split; congruence. }
  split.
  - intros H.
    destruct (construct_ok_inv _ _ _ _ H) as (o & st & Hi & Hst & -> & Hchk & _).
    exists o, st. split; [exact Hi|]. split; [exact Hst|]. split; [reflexivity|].
    unfold check_Value in Hchk. simpl in Hchk.
    destruct (ocsp_bytes o) eqn:Hb; [auto|]. right.
    destruct (selfConsistent _) eqn:Hs; simpl in Hchk; [|discriminate].
    destruct (StatusDate_of_string _ (ocsp_status_date v)) as [d1|]; simpl in Hchk;
      [|discriminate].
    destruct (StatusDate_of_string _ (ocsp_certified_until v)) as [d2|]; simpl in Hchk;
      [|discriminate].
    destruct (StatusDate_of_string _ (ocsp_revocation_date v)) as [d3|]; simpl in Hchk;
      [|discriminate].
    destruct (dateConsistent _ d1 d2 d3) eqn:Hd; simpl in Hchk; [|discriminate].
    unfold dateConsistent in Hd. simpl in Hd.
    apply andb_true_iff in Hd. destruct Hd as [Hd H3].
    apply andb_true_iff in Hd. destruct Hd as [H1 H2].
    apply Hdate in H1, H2, H3. subst. auto.
  - intros (o & st & Hi & Hst & -> & Hcase).
    unfold CertificateStatus_of_Value.
    rewrite Hst, CertificateStatus_of_bytes_in_range, Hi. simpl. f_equal.
    unfold check_Value. simpl.
    destruct (ocsp_bytes o) eqn:Hb; [reflexivity|].
    destruct Hcase as [He | (Hs & H1 & H2 & H3)]; [discriminate|].
    rewrite Hs, H1, H2, H3. simpl.
    unfold dateConsistent. simpl.
    rewrite !(proj2 (Hdate _ _) eq_refl). reflexivity.
Qed.

Lemma CertificateStatus_of_Value_ok_witness :
  exists o st,
    sample.init_good (ocsp_response (sample.value VALID)) = Ok o
    /\ status_value_index (sample.value VALID) = certstatus_i st
    /\ {| ocsp := {| ocsp_bytes := sample.token;
                     ocsp_status := OCSP_CERTSTATUS_GOOD;
                     status_date := {| t := 1577836800%Z |};
                     status_valid_until_date := {| t := 1577838600%Z |};
                     revocation_date := {| t := 0%Z |} |};
          status := VALID |}
       = {| ocsp := o; status := st |}
    /\ (ocsp_bytes o = []
        \/ (selfConsistent
              {| ocsp := {| ocsp_bytes := sample.token;
                            ocsp_status := OCSP_CERTSTATUS_GOOD;
                            status_date := {| t := 1577836800%Z |};
                            status_valid_until_date := {| t := 1577838600%Z |};
                            revocation_date := {| t := 0%Z |} |};
                 status := VALID |} = true
            /\ StatusDate_of_string sample.get_time (ocsp_status_date (sample.value VALID))
               = Ok (status_date o)
            /\ StatusDate_of_string sample.get_time
                 (ocsp_certified_until (sample.value VALID))
               = Ok (status_valid_until_date o)
            /\ StatusDate_of_string sample.get_time
                 (ocsp_revocation_date (sample.value VALID))
               = Ok (revocation_date o))).
Proof.
  apply (proj1 (CertificateStatus_of_Value_ok sample.init_good sample.get_time
                  (sample.value VALID) _)).
  reflexivity.
Defined.

(** ** Exit codes of the certificate tool *)

(** X13: when the command line parses, the exit code of the tool is one of
    0 to 6; it is 4 only if the wait timed out, and 5 only if a certificate
    id was given on the command line and the wait did not time out. *)
Theorem main_exit_code_range (r : tool.Run) (o : tool.Options) :
  tool.parsed r = inr o ->
  (0 <= tool.main r <= 6)%Z
  /\ (tool.main r = 4%Z -> tool.wait r = tool.TimedOut)
  /\ (tool.main r = 5%Z ->
      tool.issuer_serial_string o <> [] /\ tool.wait r <> tool.TimedOut).
Proof.
  intros Hp. unfold tool.main. rewrite Hp.
  destruct (tool.help o); [repeat split; try lia; discriminate|].
  destruct (tool.show_version o).
  { destruct (_ >? _)%Z; repeat split; try lia; discriminate. }
  destruct (_ && _); [repeat split; try lia; discriminate|].
  destruct (_ && _); [repeat split; try lia; discriminate|].
  destruct (if negb _ then _ else _); [|repeat split; try lia; discriminate].
  destruct (tool.build_throws r); [repeat split; try lia; discriminate|].
  destruct (if negb _ then _ else _); [|repeat split; try lia; discriminate].
  destruct (tool.exec_throws r); [repeat split; try lia; discriminate|].
  destruct (tool.wait r); simpl;
    destruct (tool.issuer_serial_string o); simpl;
    repeat split; try lia; try discriminate; auto.
Qed.

Lemma main_exit_code_range_witness :
  (0 <= tool.main sample.status_query <= 6)%Z
  /\ (tool.main sample.status_query = 4%Z -> tool.wait sample.status_query = tool.TimedOut)
  /\ (tool.main sample.status_query = 5%Z ->
      lit "27975e6b:7246297371190731775" <> [] /\ tool.wait sample.status_query <> tool.TimedOut).
Proof.
  apply (main_exit_code_range sample.status_query
           {| tool.help := false; tool.verbose := false; tool.debug := false;
              tool.password_flag := false; tool.show_version := false;
              tool.cert_file := []; tool.format_str := [];
              tool.issuer_serial_string := lit "27975e6b:7246297371190731775";
              tool.approve := false; tool.revoke := false; tool.deny := false |}).
  reflexivity.
Defined.

(** The exit code of the tool does not tell an answered request from
    an interrupted one: a run whose wait ends with the result and the same
    run whose wait ends with SIGINT exit with the same code. *)
Theorem main_wait_blind (r : tool.Run) :
  tool.main (with_wait r tool.Completed) = tool.main (with_wait r tool.Interrupted).
Proof.
  unfold tool.main, with_wait. simpl.
  destruct (tool.parsed r) as [code|o]; reflexivity.
Qed.

(** ** The certificate database *)

Section Database.

Import pvacms pvacms_sql.

Lemma filter_serial_app (s : N) (l1 l2 : list row) :
  List.filter (fun r => (serial r =? s)%N) (l1 ++ l2)
  = List.filter (fun r => (serial r =? s)%N) l1
    ++ List.filter (fun r => (serial r =? s)%N) l2.
Proof. apply List.filter_app. Qed.

(** A certificate stored with [SQL_CREATE_CERT] is found by
    [SQL_CERT_STATUS] under its serial, with the status and the status date
    it was stored with, after the rows that the serial had before; the
    answer for every other serial is unchanged. *)
Theorem create_then_status (r : row) (certs : list row) (s : N) :
  SQL_CERT_STATUS s (SQL_CREATE_CERT r certs)
  = SQL_CERT_STATUS s certs
    ++ (if (serial r =? s)%N then [(status r, status_date r)] else []).
Proof.
  unfold SQL_CERT_STATUS, SQL_CREATE_CERT.
  rewrite filter_serial_app, map_app. simpl.
  destruct (serial r =? s)%N; reflexivity.
Qed.

(** X14: [SQL_CERT_SET_STATUS] changes nothing but the status column of
    rows with the given serial: every row keeps its serial, subject, key
    identifier, validity dates and status date, the status answers for other
    serials are unchanged, and with no further condition appended every row
    of the serial then has the new status. *)
Theorem set_status_frame (clause : row -> bool) (new_status : Z) (s : N)
    (certs : list row) :
  let certs' := SQL_CERT_SET_STATUS clause new_status s certs in
  map (fun r => (serial r, skid r, CN r, O r, OU r, C r, not_before r, not_after r,
                 status_date r)) certs'
  = map (fun r => (serial r, skid r, CN r, O r, OU r, C r, not_before r, not_after r,
                   status_date r)) certs
  /\ (forall s', s' <> s -> SQL_CERT_STATUS s' certs' = SQL_CERT_STATUS s' certs)
  /\ ((forall r, clause r = true) ->
      SQL_CERT_STATUS s certs'
      = map (fun sd => (new_status, snd sd)) (SQL_CERT_STATUS s certs)).
Proof.
  cbv zeta. unfold SQL_CERT_SET_STATUS, SQL_CERT_STATUS. repeat split.
  - induction certs as [|r certs IH]; simpl; [reflexivity|].
    rewrite IH. destruct (_ && _); reflexivity.
  - intros s' Hs'. induction certs as [|r certs IH]; simpl; [reflexivity|].
    destruct (N.eqb_spec (serial r) s) as [E|E]; simpl.
    + destruct (clause r); simpl;
        destruct (N.eqb_spec (serial r) s'); try congruence; exact IH.
    + destruct (N.eqb_spec (serial r) s'); simpl; rewrite IH; reflexivity.
  - intros Hall. induction certs as [|r certs IH]; simpl; [reflexivity|].
    rewrite Hall. destruct (N.eqb_spec (serial r) s) as [E|E]; simpl.
    + rewrite (proj2 (N.eqb_eq _ _) E). simpl. rewrite IH. reflexivity.
    + rewrite (proj2 (N.eqb_neq _ _) E). exact IH.
Qed.

(** X15: whatever conditions on the row are appended to the two sweep
    queries, with serials that are unique in the table no certificate is
    selected by both at the same time; a certificate selected for the move
    to EXPIRED stays selected at every later time, as long as the table is
    the same; and the times at which a certificate is selected for the move
    to VALID have no gap: selected at two times, it is selected at every
    time between them. *)
Theorem sweeps_partition (to_valid to_expired : row -> bool) (certs : list row) :
  List.NoDup (map serial certs) ->
  (forall now s, ~ (In s (SQL_CERT_TO_VALID to_valid now certs)
                    /\ In s (SQL_CERT_TO_EXPIRED to_expired now certs)))
  /\ (forall now later s, (now <= later)%Z ->
        In s (SQL_CERT_TO_EXPIRED to_expired now certs) ->
        In s (SQL_CERT_TO_EXPIRED to_expired later certs))
  /\ (forall t1 t2 now s, (t1 <= now <= t2)%Z ->
        In s (SQL_CERT_TO_VALID to_valid t1 certs) ->
        In s (SQL_CERT_TO_VALID to_valid t2 certs) ->
        In s (SQL_CERT_TO_VALID to_valid now certs)).
Proof.
  intros Hnd. split; [|split].
  - intros now s [Hv He].
    apply SQL_CERT_TO_VALID_In in Hv. destruct Hv as (r1 & Hr1 & Hs1 & _ & Hw).
    apply SQL_CERT_TO_EXPIRED_In in He. destruct He as (r2 & Hr2 & Hs2 & _ & Hx).
    assert (r1 = r2) by (eapply unique_serial; eauto; congruence).
    subst. lia.
  - intros now later s Hle He.
    apply SQL_CERT_TO_EXPIRED_In in He. destruct He as (r & Hr & Hs & Hc & Hx).
    apply SQL_CERT_TO_EXPIRED_In. exists r. repeat split; auto; lia.
  - intros t1 t2 now s Hbetween H1 H2.
    apply SQL_CERT_TO_VALID_In in H1. destruct H1 as (r1 & Hr1 & Hs1 & Hc1 & Hw1).
    apply SQL_CERT_TO_VALID_In in H2. destruct H2 as (r2 & Hr2 & Hs2 & Hc2 & Hw2).
    assert (r1 = r2) by (eapply unique_serial; eauto; congruence).
    subst r2. apply SQL_CERT_TO_VALID_In. exists r1. repeat split; auto; lia.
Qed.

Lemma sweeps_partition_witness :
  ~ (In 255%N (SQL_CERT_TO_VALID (status_in [certstatus_i PENDING]) 100 [sample.row_100])
     /\ In 255%N (SQL_CERT_TO_EXPIRED (status_in [certstatus_i VALID]) 100
                    [sample.row_100])).
Proof.
  destruct (sweeps_partition (status_in [certstatus_i PENDING])
              (status_in [certstatus_i VALID]) [sample.row_100]) as (H & _).
  - simpl. constructor; [intros [] | constructor].
  - exact (H 100%Z 255%N).
Defined.

End Database.

(** ** The callback of a status subscription *)


(** X16: after the callback the cache holds the status received under the
    serial and the entries of the other serials are as before; [fn] is
    called with the goodness of that status, if it is called; and for a
    serial that had no cached status [fn] is called exactly when the status
    received is good. *)
Theorem status_callback_effect (ex : CertStatusExData) (k : N) (s : CertificateStatus)
    (t_was t_is : time_t) :
  let ex' := fst (status_callback ex k s t_was t_is) in
  let called := snd (status_callback ex k s t_was t_is) in
  getCachedPeerStatus_serial ex' k = Some s
  /\ (forall k', k' <> k -> getCachedPeerStatus_serial ex' k' = getCachedPeerStatus_serial ex k')
  /\ (forall g, called = Some g -> g = isGood s t_is)
  /\ (getCachedPeerStatus_serial ex k = None ->
      called = if isGood s t_is then Some true else None).
Proof.
  cbv zeta. unfold status_callback, getCachedPeerStatus_serial, setCachedPeerStatus_serial.
  simpl. repeat split.
  - apply lookup_insert_eq.
  - intros k' Hk. apply lookup_insert_ne. congruence.
  - intros g. destruct (Bool.eqb _ _); [discriminate|]. congruence.
  - intros ->. destruct (isGood s t_is); reflexivity.
Qed.



(** ** Setting up a TLS context *)

Section SetupProps.

Import tls.

Variable lib : Library.
Variable kForClient kForServer : Z.

Lemma extractCAs_from_ok (CAs : list X509) :
  forall (i : nat) (c c' : SSL_CTX),
    extractCAs_from lib i CAs c = Done c' ->
    chain c' = chain c ++ CAs
    /\ trusted c' = trusted c ++ List.filter (self_signed lib) CAs
    /\ same_but_stores c c'
    /\ Forall (fun ca => X509_check_ca lib ca <> 0%Z)
         (match i with O => tl CAs | S _ => CAs end).
Proof.
  induction CAs as [|ca rest IH]; intros i c c' H.
  - simpl in H. injection H as <-. rewrite !app_nil_r.
    repeat split; destruct i; constructor.
  - cbn [extractCAs_from] in H.
    destruct ((X509_check_ca lib ca =? 0)%Z && negb (Nat.eqb i 0)) eqn:Hca; [discriminate|].
    cbn [List.filter]. unfold self_signed at 1.
    destruct (negb (Z.land (X509_get_extension_flags lib ca) EXFLAG_SS =? 0)%Z) eqn:Hss.
    + destruct (Z.land (X509_get_extension_flags lib ca) EXFLAG_SI =? 0)%Z; [discriminate|].
      destruct (X509_STORE_add_cert lib (trusted c) ca =? 0)%Z; [discriminate|].
      simpl in H.
      destruct (SSL_CTX_add0_chain_cert lib (add_trusted c ca) ca =? 0)%Z; [discriminate|].
      apply IH in H. destruct H as (Hc & Ht & Hs & Hf). simpl in Hc, Ht, Hs.
      rewrite Hc, Ht, <- !app_assoc. repeat split; try apply Hs.
      destruct i; simpl; [exact Hf|].
      constructor; [|exact Hf].
      simpl in Hca. rewrite andb_true_r in Hca. apply Z.eqb_neq. exact Hca.
    + simpl in H.
      destruct (SSL_CTX_add0_chain_cert lib c ca =? 0)%Z; [discriminate|].
      apply IH in H. destruct H as (Hc & Ht & Hs & Hf). simpl in Hc, Ht, Hs.
      rewrite Hc, Ht, <- !app_assoc. repeat split; try apply Hs.
      destruct i; simpl; [exact Hf|].
      constructor; [|exact Hf].
      simpl in Hca. rewrite andb_true_r in Hca. apply Z.eqb_neq. exact Hca.
Qed.

(** What [extractCAs] has done when it returns. *)
Lemma extractCAs_inv (c c' : SSL_CTX) (CAs : list X509) :
  extractCAs lib c CAs = Done c' ->
  chain c' = chain c ++ CAs
  /\ trusted c' = trusted c ++ List.filter (self_signed lib) CAs
  /\ Forall (fun ca => X509_check_ca lib ca <> 0%Z) (tl CAs)
  /\ same_but_stores c c'.
Proof.
  intros H. apply extractCAs_from_ok in H. tauto.
Qed.

(** X18: when [extractCAs] returns, it has appended every certificate of
    the bag to the chain of the context, in order, and to the trust store
    those that are self-signed, and nothing else; every certificate of the
    bag after the first is a CA certificate, the first is not examined for
    that; the rest of the context is as before. *)
Theorem extractCAs_ok (c c' : SSL_CTX) (CAs : list X509) :
  extractCAs lib c CAs = Done c' ->
  chain c' = chain c ++ CAs
  /\ trusted c' = trusted c ++ List.filter (self_signed lib) CAs
  /\ Forall (fun ca => X509_check_ca lib ca <> 0%Z) (tl CAs)
  /\ same_but_stores c c'.
Proof.
  exact (extractCAs_inv c c' CAs).
Qed.

Lemma land_bit (x : Z) (k : Z) :
  (0 <= k)%Z -> (Z.land x (2 ^ k) =? 0)%Z = negb (Z.testbit x k).
Proof.
  intros Hk. destruct (Z.testbit x k) eqn:Hb; simpl.
  - apply Z.eqb_neq. intros H0.
    assert (Z.testbit (Z.land x (2 ^ k)) k = true).
    { rewrite Z.land_spec, Hb, Z.pow2_bits_true by lia. reflexivity. }
    rewrite H0, Z.bits_0 in H. discriminate.
  - apply Z.eqb_eq. apply Z.bits_inj'. intros n Hn.
    rewrite Z.land_spec, Z.bits_0.
    destruct (Z.eq_dec n k) as [-> | Hne].
    + rewrite Hb. reflexivity.
    + rewrite Z.pow2_bits_false by lia. apply andb_false_r.
Qed.

(** [verifyKeyUsage] returns exactly for a certificate whose CA flag
    (bit 4 of the extension flags) is clear and whose extended key usage
    has the bit of the role set: bit 1 (TLS client) for a client, bit 0
    (TLS server) for a server; otherwise it throws [std::runtime_error]. *)
Theorem verifyKeyUsage_spec (cert : X509) (ssl_client : bool) :
  (verifyKeyUsage lib cert ssl_client = Done tt
   <-> Z.testbit (X509_get_extension_flags lib cert) 4 = false
       /\ Z.testbit (X509_get_extended_key_usage lib cert) (if ssl_client then 1 else 0)
          = true)
  /\ (verifyKeyUsage lib cert ssl_client = Done tt
      \/ verifyKeyUsage lib cert ssl_client = Raise runtime_error).
Proof.
  unfold verifyKeyUsage.
  change EXFLAG_CA with (2 ^ 4)%Z. change XKU_SSL_CLIENT with (2 ^ 1)%Z.
  change XKU_SSL_SERVER with (2 ^ 0)%Z.
  rewrite !land_bit by lia.
  destruct (Z.testbit (X509_get_extension_flags lib cert) 4);
    destruct ssl_client;
    destruct (Z.testbit (X509_get_extended_key_usage lib cert) 1);
    destruct (Z.testbit (X509_get_extended_key_usage lib cert) 0);
    simpl; split; auto; split; intros H; try discriminate; try tauto;
    destruct H; discriminate.
Qed.

(** What the result of reading a PKCS#12 file tells about the file. *)
Lemma getKeyAndCertFromP12File_inv (filename password : std_string)
    (ssl_client : bool) (out out' : outs) (get_key get_cert ok : bool) :
  kForClient <> kForServer ->
  getKeyAndCertFromP12File lib kForClient kForServer filename password ssl_client out
    get_key get_cert = Done (ok, out') ->
  let decoded := match fopen lib filename with
                 | Some f => d2i_PKCS12_fp lib f
                 | None => None
                 end in
  if ok then
    exists p12 parsed, decoded = Some p12 /\ PKCS12_parse lib p12 password = Some parsed
  else
    ssl_client = true /\ decoded = None /\ out' = out.
Proof.
  intros Hk. unfold getKeyAndCertFromP12File, checkP12File.
  destruct out as [[key cert] CAs]. cbv zeta.
  destruct (match fopen lib filename with
            | Some f => d2i_PKCS12_fp lib f
            | None => None
            end) as [p12|]; simpl.
  - destruct (PKCS12_parse lib p12 password) as [[[k c] cas]|] eqn:Hp; [|discriminate].
    destruct (get_key && get_cert); [|destruct get_key]; intros [= <- <-]; eauto.
  - destruct ssl_client; simpl.
    + rewrite Z.eqb_refl. simpl. intros [= <- <-]. auto.
    + destruct (Z.eqb_spec kForServer kForClient); [congruence|]. simpl. discriminate.
Qed.

(** X19: reading a PKCS#12 file returns [false] only to a client whose
    file cannot be opened or decoded, and then leaves the key, the
    certificate and the chain of the caller untouched; for a server that
    case throws; [true] is returned only after [PKCS12_parse] has
    succeeded on the decoded file. *)
Theorem getKeyAndCertFromP12File_spec (filename password : std_string)
    (ssl_client : bool) (out out' : outs) (get_key get_cert ok : bool) :
  kForClient <> kForServer ->
  getKeyAndCertFromP12File lib kForClient kForServer filename password ssl_client out
    get_key get_cert = Done (ok, out') ->
  let decoded := match fopen lib filename with
                 | Some f => d2i_PKCS12_fp lib f
                 | None => None
                 end in
  if ok then
    exists p12 parsed, decoded = Some p12 /\ PKCS12_parse lib p12 password = Some parsed
  else
    ssl_client = true /\ decoded = None /\ out' = out.
Proof.
  exact (getKeyAndCertFromP12File_inv filename password ssl_client out out' get_key get_cert ok).
Qed.

Lemma use_key_and_cert_ok (ssl_client : bool) (t t' : SSLContext)
    (key : option EVP_PKEY) (cert : option X509) (CAs : list X509) :
  use_key_and_cert lib ssl_client t key cert CAs = Done t' ->
  verify (ctx t') = verify (ctx t)
  /\ min_proto_version (ctx t') = min_proto_version (ctx t)
  /\ ex_status_check_enabled (ctx t') = ex_status_check_enabled (ctx t)
  /\ chain (ctx t') = chain (ctx t) ++ CAs
  /\ Forall (fun ca => X509_check_ca lib ca <> 0%Z) (tl CAs)
  /\ match cert with
     | Some x =>
         has_cert t' = true
         /\ ex_cert (ctx t') = Some x /\ certificate (ctx t') = Some x
         /\ verifyKeyUsage lib x ssl_client = Done tt
         /\ cert_is_valid t' = (status_check_disabled t || cert_is_valid t)
     | None => has_cert t' = has_cert t /\ cert_is_valid t' = cert_is_valid t
     end.
Proof.
  unfold use_key_and_cert. intros H.
  destruct cert as [x|]; simpl in H.
  - destruct (verifyKeyUsage lib x ssl_client) as [[]| |] eqn:Hku; simpl in H;
      try discriminate.
    destruct (SSL_CTX_use_certificate lib (ctx t) x =? 0)%Z; simpl in H; [discriminate|].
    destruct key as [k|]; simpl in H.
    + destruct (SSL_CTX_use_PrivateKey lib _ k =? 0)%Z; simpl in H; [discriminate|].
      destruct (extractCAs lib _ CAs) as [c3| |] eqn:Hx; simpl in H; try discriminate.
      destruct (SSL_CTX_check_private_key lib c3 =? 0)%Z; [discriminate|].
      destruct (SSL_CTX_build_cert_chain lib _ =? 0)%Z; [discriminate|].
      injection H as <-. simpl.
      apply extractCAs_inv in Hx. destruct Hx as (Hc & _ & Hf & Hs).
      destruct Hs as (H1 & H2 & H3 & H4 & H5 & H6 & H7). simpl in *.
      repeat split; auto; try (destruct (status_check_disabled t); reflexivity).
    + destruct (extractCAs lib _ CAs) as [c3| |] eqn:Hx; simpl in H; try discriminate.
      destruct (SSL_CTX_build_cert_chain lib _ =? 0)%Z; [discriminate|].
      injection H as <-. simpl.
      apply extractCAs_inv in Hx. destruct Hx as (Hc & _ & Hf & Hs).
      destruct Hs as (H1 & H2 & H3 & H4 & H5 & H6 & H7). simpl in *.
      repeat split; auto; try (destruct (status_check_disabled t); reflexivity).
  - destruct key as [k|]; simpl in H.
    + destruct (SSL_CTX_use_PrivateKey lib _ k =? 0)%Z; simpl in H; [discriminate|].
      destruct (extractCAs lib _ CAs) as [c3| |] eqn:Hx; simpl in H; try discriminate.
      destruct (SSL_CTX_check_private_key lib c3 =? 0)%Z; [discriminate|].
      injection H as <-. simpl.
      apply extractCAs_inv in Hx. destruct Hx as (Hc & _ & Hf & Hs).
      destruct Hs as (H1 & H2 & H3 & H4 & H5 & H6 & H7). simpl in *.
      repeat split; auto.
    + destruct (extractCAs lib _ CAs) as [c3| |] eqn:Hx; simpl in H; try discriminate.
      injection H as <-. simpl.
      apply extractCAs_inv in Hx. destruct Hx as (Hc & _ & Hf & Hs).
      destruct Hs as (H1 & H2 & H3 & H4 & H5 & H6 & H7). simpl in *.
      repeat split; auto.
Qed.

Lemma getKeyFromP12File_false (filename password : std_string) (ssl_client : bool)
    (key key' : option EVP_PKEY) :
  kForClient <> kForServer ->
  getKeyFromP12File lib kForClient kForServer filename password ssl_client key
  = Done (false, key') ->
  ssl_client = true.
Proof.
  intros Hk. unfold getKeyFromP12File.
  destruct (getKeyAndCertFromP12File _ _ _ _ _ _ _ _ _) as [[ok [[k c] a]]| |] eqn:Hg;
    cbn [mbind]; try discriminate.
  intros [= -> _]. apply getKeyAndCertFromP12File_inv in Hg; [|exact Hk].
  simpl in Hg. tauto.
Qed.

Lemma getCertFromP12File_false (filename password : std_string) (ssl_client : bool)
    (cert : option X509) (CAs : list X509) (r : option X509 * list X509) :
  kForClient <> kForServer ->
  getCertFromP12File lib kForClient kForServer filename password ssl_client cert CAs
  = Done (false, r) ->
  ssl_client = true.
Proof.
  intros Hk. unfold getCertFromP12File.
  destruct (getKeyAndCertFromP12File _ _ _ _ _ _ _ _ _) as [[ok [[k c] a]]| |] eqn:Hg;
    cbn [mbind]; try discriminate.
  intros [= -> _]. apply getKeyAndCertFromP12File_inv in Hg; [|exact Hk].
  simpl in Hg. tauto.
Qed.

(** What [ossl_setup_common] returns: the fresh context, or the context
    after [use_key_and_cert] and [install_verify]. *)
Lemma ossl_setup_common_cases (ssl_client : bool) (conf : ConfigCommon) (t : SSLContext) :
  kForClient <> kForServer ->
  ossl_setup_common lib kForClient kForServer ssl_client conf = Done t ->
  (ssl_client = true /\ t = fresh_context conf)
  \/ (isTlsConfigured conf = false
      /\ t = install_verify ssl_client conf (fresh_context conf))
  \/ (exists key cert CAs t1,
        use_key_and_cert lib ssl_client (fresh_context conf) key cert CAs = Done t1
        /\ t = install_verify ssl_client conf t1).
Proof.
  intros Hk. unfold ossl_setup_common.
  destruct (negb (SSL_CTX_new_ex lib)); [discriminate|].
  destruct (SSL_CTX_set_ex_data lib =? 0)%Z; [discriminate|].
  destruct (ssl_client && tls_disabled conf) eqn:Hdis.
  { intros [= <-]. left. apply andb_true_iff in Hdis. tauto. }
  destruct (isTlsConfigured conf); [|intros [= <-]; right; left; auto].
  match goal with
  | |- mbind ?load _ = _ -> _ => destruct load as [[ok [[key cert] CAs]]| |] eqn:Hload
  end; simpl; try discriminate.
  destruct ok; simpl.
  - destruct (use_key_and_cert lib ssl_client (fresh_context conf) key cert CAs)
      as [t1| |] eqn:Hu; simpl; try discriminate.
    intros [= <-]. right. right. eauto 10.
  - intros [= <-]. left. split; [|reflexivity].
    destruct (std_string_eqb _ _).
    + destruct (getKeyAndCertFromP12File _ _ _ _ _ _ _ _ _) as [[ok out']| |] eqn:Hg;
        cbn [mbind] in Hload; try discriminate.
      injection Hload as -> _.
      apply getKeyAndCertFromP12File_inv in Hg; [|exact Hk]. simpl in Hg. tauto.
    + destruct (getKeyFromP12File _ _ _ _ _ _ _) as [[okk key']| |] eqn:Hg1;
        cbn [mbind] in Hload; try discriminate.
      destruct okk; cbn [negb] in Hload; cbv iota in Hload.
      * destruct (getCertFromP12File _ _ _ _ _ _ _ _) as [[okc [cert' CAs']]| |] eqn:Hg2;
          cbn [mbind] in Hload; try discriminate.
        injection Hload as -> _.
        eapply getCertFromP12File_false; eauto.
      * eapply getKeyFromP12File_false; eauto.
Qed.

(** X20: a context returned by [ossl_setup_common] that has a certificate
    holds it both as the certificate in use and in the extension data; that
    certificate is not a CA certificate and its extended key usage has the
    bit of the role; every certificate of its chain after the first is a CA
    certificate; and the certificate counts as valid from the start exactly
    when the status check is disabled. *)
Theorem ossl_setup_common_certificate (ssl_client : bool) (conf : ConfigCommon)
    (t : SSLContext) :
  kForClient <> kForServer ->
  ossl_setup_common lib kForClient kForServer ssl_client conf = Done t ->
  has_cert t = true ->
  exists x,
    certificate (ctx t) = Some x
    /\ ex_cert (ctx t) = Some x
    /\ Z.testbit (X509_get_extension_flags lib x) 4 = false
    /\ Z.testbit (X509_get_extended_key_usage lib x) (if ssl_client then 1 else 0) = true
    /\ Forall (fun ca => X509_check_ca lib ca <> 0%Z) (tl (chain (ctx t)))
    /\ cert_is_valid t = tls_disable_status_check conf.
Proof.
  intros Hk H Hhas.
  destruct (ossl_setup_common_cases _ _ _ Hk H)
    as [[_ ->] | [[_ ->] | (key & cert & CAs & t1 & Hu & ->)]]; try discriminate.
  apply use_key_and_cert_ok in Hu.
  destruct Hu as (_ & _ & _ & Hchain & Hcas & Hcert).
  destruct cert as [x|].
  - destruct Hcert as (_ & Hex & Hc & Hku & Hv).
    exists x. simpl. apply verifyKeyUsage_spec in Hku. destruct Hku as [Hca Hrole].
    rewrite Hchain. simpl. rewrite Hv. simpl. rewrite orb_false_r.
    repeat split; auto.
  - destruct Hcert as [Hc _]. simpl in Hhas. rewrite Hc in Hhas. discriminate.
Qed.

(** X21: every context returned by [ossl_setup_common] requires TLS 1.3
    and has the status-check flag of its extension data opposite to
    [tls_disable_status_check]. A server context always has the hook
    [ossl_verify] installed, with depth 5 and the mode
    [SSL_VERIFY_PEER | SSL_VERIFY_CLIENT_ONCE], to which
    [SSL_VERIFY_FAIL_IF_NO_PEER_CERT] is added exactly when a client
    certificate is required. A client context has the hook with mode
    [SSL_VERIFY_PEER | SSL_VERIFY_CLIENT_ONCE], or it is the bare context,
    without certificate and without the hook. *)
Theorem ossl_setup_common_verify (ssl_client : bool) (conf : ConfigCommon)
    (t : SSLContext) :
  kForClient <> kForServer ->
  ossl_setup_common lib kForClient kForServer ssl_client conf = Done t ->
  min_proto_version (ctx t) = TLS1_3_VERSION
  /\ ex_status_check_enabled (ctx t) = negb (tls_disable_status_check conf)
  /\ (if ssl_client
      then verify (ctx t) = Some (5%Z, 5%Z)
           \/ (verify (ctx t) = None /\ t = fresh_context conf)
      else verify (ctx t)
           = Some (match tls_client_cert_required conf with
                   | Require => 7%Z
                   | _ => 5%Z
                   end, 5%Z)).
Proof.
  intros Hk H.
  assert (Hmode : forall t0, verify (ctx (install_verify ssl_client conf t0))
                             = Some (if ssl_client then 5%Z
                                     else match tls_client_cert_required conf with
                                          | Require => 7%Z
                                          | _ => 5%Z
                                          end, 5%Z)).
  { intros t0. unfold install_verify. simpl.
    destruct ssl_client, (tls_client_cert_required conf); reflexivity. }
  destruct (ossl_setup_common_cases _ _ _ Hk H)
    as [[-> ->] | [[_ ->] | (key & cert & CAs & t1 & Hu & ->)]].
  - simpl. auto.
  - rewrite Hmode. simpl. destruct ssl_client; auto.
  - rewrite Hmode. apply use_key_and_cert_ok in Hu.
    destruct Hu as (_ & Hmin & Hex & _). simpl in *.
    rewrite Hmin, Hex. destruct ssl_client; auto.
Qed.

End SetupProps.

Lemma extractCAs_ok_witness :
  tls.chain (tls.add_chain_cert
               (tls.add_trusted
                  (tls.ctx (tls.fresh_context (tls_sample.conf (lit "server.p12"))))
                  sample.ca_cert) sample.ca_cert)
  = tls.chain (tls.ctx (tls.fresh_context (tls_sample.conf (lit "server.p12"))))
    ++ [sample.ca_cert]
  /\ tls.trusted (tls.add_chain_cert
                    (tls.add_trusted
                       (tls.ctx (tls.fresh_context (tls_sample.conf (lit "server.p12"))))
                       sample.ca_cert) sample.ca_cert)
     = tls.trusted (tls.ctx (tls.fresh_context (tls_sample.conf (lit "server.p12"))))
       ++ List.filter (tls.self_signed tls_sample.lib) [sample.ca_cert]
  /\ Forall (fun ca => tls.X509_check_ca tls_sample.lib ca <> 0%Z) (tl [sample.ca_cert])
  /\ tls.same_but_stores
       (tls.ctx (tls.fresh_context (tls_sample.conf (lit "server.p12"))))
       (tls.add_chain_cert
          (tls.add_trusted
             (tls.ctx (tls.fresh_context (tls_sample.conf (lit "server.p12"))))
             sample.ca_cert) sample.ca_cert).
Proof.
  apply (extractCAs_ok tls_sample.lib
           (tls.ctx (tls.fresh_context (tls_sample.conf (lit "server.p12"))))
           _ [sample.ca_cert]).
  reflexivity.
Defined.

Lemma getKeyAndCertFromP12File_spec_witness :
  (exists p12 parsed,
      match tls.fopen tls_sample.lib (lit "server.p12") with
      | Some f => tls.d2i_PKCS12_fp tls_sample.lib f
      | None => None
      end = Some p12
      /\ tls.PKCS12_parse tls_sample.lib p12 [] = Some parsed)
  /\ (true = true
      /\ match tls.fopen tls_sample.lib (lit "client.p12") with
         | Some f => tls.d2i_PKCS12_fp tls_sample.lib f
         | None => None
         end = None
      /\ (@None tls.EVP_PKEY, @None X509, @nil X509) = (None, None, [])).
Proof.
  split.
  - apply (getKeyAndCertFromP12File_spec tls_sample.lib 1 2 (lit "server.p12") [] false
             (None, None, []) (Some [x01], Some sample.peer_cert, [sample.ca_cert])
             true true true).
    + discriminate.
    + reflexivity.
  - apply (getKeyAndCertFromP12File_spec tls_sample.lib 1 2 (lit "client.p12") [] true
             (None, None, []) (None, None, []) true true false).
    + discriminate.
    + reflexivity.
Defined.

Example ossl_setup_common_server :
  tls.ossl_setup_common tls_sample.lib 1 2 false (tls_sample.conf (lit "server.p12"))
  = tls.Done tls_sample.server_context.
Proof. reflexivity. Qed.

Example ossl_setup_common_client_no_file :
  tls.ossl_setup_common tls_sample.lib 1 2 true (tls_sample.conf (lit "client.p12"))
  = tls.Done (tls.fresh_context (tls_sample.conf (lit "client.p12"))).
Proof. reflexivity. Qed.

Example ossl_setup_common_server_no_file :
  tls.ossl_setup_common tls_sample.lib 1 2 false (tls_sample.conf (lit "missing.p12"))
  = tls.Raise tls.runtime_error.
Proof. reflexivity. Qed.

Lemma ossl_setup_common_certificate_witness :
  exists x,
    tls.certificate (tls.ctx tls_sample.server_context) = Some x
    /\ tls.ex_cert (tls.ctx tls_sample.server_context) = Some x
    /\ Z.testbit (tls.X509_get_extension_flags tls_sample.lib x) 4 = false
    /\ Z.testbit (tls.X509_get_extended_key_usage tls_sample.lib x) 0 = true
    /\ Forall (fun ca => tls.X509_check_ca tls_sample.lib ca <> 0%Z)
         (tl (tls.chain (tls.ctx tls_sample.server_context)))
    /\ tls.cert_is_valid tls_sample.server_context
       = tls.tls_disable_status_check (tls_sample.conf (lit "server.p12")).
Proof.
  apply (ossl_setup_common_certificate tls_sample.lib 1 2 false
           (tls_sample.conf (lit "server.p12")) tls_sample.server_context).
  - discriminate.
  - reflexivity.
  - reflexivity.
Defined.

Lemma ossl_setup_common_verify_witness :
  tls.min_proto_version (tls.ctx (tls.fresh_context (tls_sample.conf (lit "client.p12"))))
  = tls.TLS1_3_VERSION
  /\ tls.ex_status_check_enabled
       (tls.ctx (tls.fresh_context (tls_sample.conf (lit "client.p12"))))
     = negb (tls.tls_disable_status_check (tls_sample.conf (lit "client.p12")))
  /\ (tls.verify (tls.ctx (tls.fresh_context (tls_sample.conf (lit "client.p12"))))
      = Some (5%Z, 5%Z)
      \/ (tls.verify (tls.ctx (tls.fresh_context (tls_sample.conf (lit "client.p12"))))
          = None
          /\ tls.fresh_context (tls_sample.conf (lit "client.p12"))
             = tls.fresh_context (tls_sample.conf (lit "client.p12")))).
Proof.
  apply (ossl_setup_common_verify tls_sample.lib 1 2 true
           (tls_sample.conf (lit "client.p12"))
           (tls.fresh_context (tls_sample.conf (lit "client.p12")))).
  - discriminate.
  - reflexivity.
Defined.

(** ** The reader of a server connection *)

Section ReadProps.

Import conn.

Variable A : Type.
Variable flags : Flags.
Variable handle : Z -> list byte -> bool -> A -> A * bool.
Variable tx_length : A -> N.

Lemma byte_of_to_N (n : N) : Byte.to_N (byte_of n) = (n mod 256)%N.
Proof.
  unfold byte_of.
  destruct (Byte.of_N (n mod 256)) as [b|] eqn:E.
  - apply Byte.to_of_N in E. exact E.
  - apply Byte.of_N_None_iff in E.
    pose proof (N.mod_upper_bound n 256). lia.
Qed.

Lemma from_wire_u32_header (be : bool) (len : N) :
  (len < 2 ^ 32)%N ->
  exists l0 l1 l2 l3,
    (forall v fb cmd, header be v fb cmd len = [xca; v; fb; cmd; l0; l1; l2; l3])
    /\ from_wire_u32 be l0 l1 l2 l3 = len.
Proof.
  intros Hlen. change (2 ^ 32)%N with 4294967296%N in Hlen.
  destruct be.
  - exists (byte_of (len / 16777216)), (byte_of (len / 65536)),
           (byte_of (len / 256)), (byte_of len).
    split; [reflexivity|].
    unfold from_wire_u32. rewrite !byte_of_to_N.
    zify. Z.to_euclidean_division_equations. lia.
  - exists (byte_of len), (byte_of (len / 256)),
           (byte_of (len / 65536)), (byte_of (len / 16777216)).
    split; [reflexivity|].
    unfold from_wire_u32. rewrite !byte_of_to_N.
    zify. Z.to_euclidean_division_equations. lia.
Qed.

Lemma to_N_inj (a b : byte) : Byte.to_N a = Byte.to_N b -> a = b.
Proof.
  intros H. pose proof (Byte.of_to_N a) as Ha. rewrite H, Byte.of_to_N in Ha.
  congruence.
Qed.

Lemma u8_zero (b : byte) : (u8 b =? 0)%Z = false <-> b <> x00.
Proof.
  unfold u8. split.
  - intros H ->. discriminate H.
  - intros H. apply Z.eqb_neq. intros E. apply H.
    apply to_N_inj. change (Byte.to_N x00) with 0%N. lia.
Qed.

Lemma u8_eqb (a b : byte) : (u8 a =? u8 b)%Z = true <-> a = b.
Proof.
  unfold u8. rewrite Z.eqb_eq. split.
  - intros H. apply to_N_inj. lia.
  - intros ->. reflexivity.
Qed.

(** What a round does with an application message that is in the input
    with its whole payload. *)
Lemma bevRead_round_application (c : ServerConn A) (m : Message) (more : list byte) :
  application flags m ->
  rx c = frame flags m ++ more ->
  let be := byte_order flags m in
  let segBuf' := segBuf c ++ payload m in
  let continuation := nonzero (Z.land (seg flags m) (SegLast flags)) in
  bevRead_round flags handle c =
    if xorb continuation (expectSeg c)
       || (continuation && negb (u8 (command m) =? segCmd c)%Z)
    then Break {| rx := more; bev := false; peerBE := be; expectSeg := expectSeg c;
                  segCmd := segCmd c; segBuf := segBuf';
                  read_watermark := read_watermark c; read_enabled := read_enabled c;
                  write_watermark := write_watermark c;
                  in_connections := in_connections c; app := app c |}
    else
      let first := (seg flags m =? 0)%Z || (seg flags m =? SegFirst flags)%Z in
      let expectSeg1 := if first then true else expectSeg c in
      let segCmd1 := if first then u8 (command m) else segCmd c in
      if (seg flags m =? 0)%Z || (seg flags m =? SegLast flags)%Z
      then
        let '(a', alive) := handle segCmd1 segBuf' be (app c) in
        if alive
        then Continue {| rx := more; bev := true; peerBE := be; expectSeg := false;
                         segCmd := segCmd1; segBuf := [];
                         read_watermark := (8%N, tcp_readahead);
                         read_enabled := read_enabled c;
                         write_watermark := write_watermark c;
                         in_connections := in_connections c; app := a' |}
        else Undefined
      else Continue {| rx := more; bev := bev c; peerBE := be; expectSeg := expectSeg1;
                       segCmd := segCmd1; segBuf := segBuf';
                       read_watermark := read_watermark c;
                       read_enabled := read_enabled c;
                       write_watermark := write_watermark c;
                       in_connections := in_connections c; app := app c |}.
Proof.
  intros (Hv & Hs & Hc & Hlen) Hrx.
  destruct (from_wire_u32_header (byte_order flags m) _ Hlen)
    as (l0 & l1 & l2 & l3 & Hh & Hw).
  unfold frame in Hrx. rewrite Hh in Hrx. cbn [List.app] in Hrx.
  unfold bevRead_round. rewrite Hrx.
  change (u8 xca =? 0xca)%Z with true.
  apply u8_zero in Hv. rewrite Hv, Hs, Hc.
  cbn [negb orb nonzero Z.eqb].
  fold (byte_order flags m). rewrite Hw.
  cbn [length].
  rewrite length_app.
  replace (N.of_nat (S (S (S (S (S (S (S (S (length (payload m) + length more))))))))) - 8
           <? N.of_nat (length (payload m)))%N with false
    by (symmetry; apply N.ltb_ge; lia).
  rewrite Nat2N.id.
  rewrite firstn_app, Nat.sub_diag, firstn_all, firstn_O, app_nil_r.
  rewrite skipn_app, Nat.sub_diag, skipn_all, skipn_O.
  reflexivity.
Qed.


Ltac round_cases H :=
  unfold bevRead_round in H;
  repeat match type of H with
         | context [match ?l with [] => _ | _ :: _ => _ end] =>
             destruct l eqn:?
         | context [if ?b then _ else _] => destruct b eqn:?
         | context [let '(_, _) := ?p in _] => destruct p eqn:?
         end.

(** A round that goes on has taken a header, at least, from the input. *)
Lemma bevRead_round_consumes (c c' : ServerConn A) :
  bevRead_round flags handle c = Continue c' ->
  (length (rx c') + 8 <= length (rx c))%nat
  /\ exists taken, rx c = taken ++ rx c'.
Proof.
  intros H. round_cases H; inversion H; subst; cbn [rx length];
    (split; [try rewrite length_skipn; lia|]).
  all: match goal with
       | |- exists t, ?a :: ?b :: ?c0 :: ?d :: ?e :: ?f :: ?g :: ?h :: ?r = _ ++ skipn ?n _ =>
           exists ([a; b; c0; d; e; f; g; h] ++ firstn n r);
           rewrite <- app_assoc, firstn_skipn; reflexivity
       | |- exists t, ?a :: ?b :: ?c0 :: ?d :: ?e :: ?f :: ?g :: ?h :: ?r = _ =>
           exists [a; b; c0; d; e; f; g; h]; reflexivity
       end.
Qed.

(** A round that leaves the loop keeps the list entry of the connection,
    and the handlers have not run. *)
Lemma bevRead_round_break (c c' : ServerConn A) :
  bevRead_round flags handle c = Break c' ->
  in_connections c' = in_connections c
  /\ app c' = app c
  /\ exists taken, rx c = taken ++ rx c'.
Proof.
  intros H. round_cases H; inversion H; subst; cbn [rx in_connections app];
    repeat split;
    try (exists []; reflexivity);
    try (exists []; cbn [List.app]; congruence).
  match goal with
  | |- exists t, ?a :: ?b :: ?c0 :: ?d :: ?e :: ?f :: ?g :: ?h :: ?r = _ ++ skipn ?n _ =>
      exists ([a; b; c0; d; e; f; g; h] ++ firstn n r);
      rewrite <- app_assoc, firstn_skipn; reflexivity
  end.
Qed.

Lemma bevRead_round_list (c c' : ServerConn A) :
  bevRead_round flags handle c = Continue c' ->
  in_connections c' = in_connections c.
Proof.
  intros H. round_cases H; inversion H; subst; reflexivity.
Qed.

(** A round is left undefined only by a handler that has reset the
    bufferevent. *)
Lemma bevRead_round_undefined (c : ServerConn A) :
  bevRead_round flags handle c = Undefined ->
  exists cmd body be, snd (handle cmd body be (app c)) = false.
Proof.
  intros H. round_cases H; try discriminate.
  all: match goal with
       | E : handle ?x ?y ?z ?w = (_, false) |- _ =>
           exists x, y, z; rewrite E; reflexivity
       end.
Qed.

Lemma passes_after (c c1 c0 : ServerConn A) :
  bev c = true ->
  (8 <= length (rx c))%nat ->
  bevRead_round flags handle c = Continue c1 ->
  passes flags handle c1 c0 ->
  passes flags handle c c0.
Proof.
  intros Hbev Hlen Hround Hp. induction Hp as [Hb1 Hl1 | c2 c3 Hp IH Hr Hb3 Hl3].
  - apply (passes_next flags handle c c c1); auto. apply passes_first; assumption.
  - apply (passes_next flags handle c c2 c3); assumption.
Qed.

(** The loop ends within the fuel that [bevRead] gives it: it returns, or
    one of its rounds is left undefined. *)
Lemma bevRead_loop_ends :
  forall (fuel : nat) (c : ServerConn A),
    (length (rx c) < fuel)%nat ->
    (exists c', bevRead_loop flags handle fuel c = Some c'
                /\ in_connections c' = in_connections c
                /\ exists taken, rx c = taken ++ rx c')
    \/ (bevRead_loop flags handle fuel c = None
        /\ exists c0, passes flags handle c c0
                      /\ bevRead_round flags handle c0 = Undefined).
Proof.
  intros fuel. induction fuel as [|fuel IH]; intros c Hlen; [lia|].
  cbn [bevRead_loop].
  destruct (bev c && (8 <=? length (rx c))%nat) eqn:Hguard.
  - apply andb_true_iff in Hguard. destruct Hguard as [Hbev H8].
    apply Nat.leb_le in H8.
    destruct (bevRead_round flags handle c) as [c1|c1|] eqn:Hround.
    + destruct (bevRead_round_consumes _ _ Hround) as (Hless & taken & Htaken).
      destruct (IH c1) as [(c' & Hloop & Hin & taken' & Htaken') | (Hloop & c0 & Hp & Hu)];
        [lia| |].
      * left. exists c'. split; [exact Hloop|]. split.
        -- rewrite Hin. apply (bevRead_round_list _ _ Hround).
        -- exists (taken ++ taken'). rewrite <- app_assoc, <- Htaken'. exact Htaken.
      * right. split; [exact Hloop|]. exists c0. split; [|exact Hu].
        apply (passes_after c c1 c0); assumption.
    + destruct (bevRead_round_break _ _ Hround) as (Hin & _ & Htaken).
      left. exists c1. auto.
    + right. split; [reflexivity|]. exists c. split; [|exact Hround].
      apply passes_first; assumption.
  - left. exists c. repeat split. exists []. reflexivity.
Qed.

(** X22: whatever bytes a peer sends, a call of [bevRead] comes to an end:
    the loop ends, since every round that goes on takes a header from the
    input. Either the call returns - then what it leaves in the input is the
    end of what was there, and the connection is on the list of its
    interface afterwards exactly if it was and the bufferevent is still set
    - or one of the rounds of this very call has called a handler that
    reset the bufferevent, after which the code sets the watermark of the
    bufferevent that it no longer has. *)
Theorem bevRead_returns (c : ServerConn A) :
  (exists c', bevRead flags handle tx_length c = Some c'
              /\ (exists taken, rx c = taken ++ rx c')
              /\ in_connections c' = bev c' && in_connections c)
  \/ (bevRead flags handle tx_length c = None
      /\ exists c0 cmd body be,
           passes flags handle c c0
           /\ bevRead_round flags handle c0 = Undefined
           /\ snd (handle cmd body be (app c0)) = false).
Proof.
  unfold bevRead.
  destruct (bevRead_loop_ends (S (length (rx c))) c)
    as [(c1 & -> & Hin & Htaken) | (-> & c0 & Hp & Hu)]; [lia| |].
  - left. destruct (bev c1) eqn:Hbev; cbn [negb].
    + destruct (0x100000 <=? tx_length (app c1))%N.
      * eexists. split; [reflexivity|]. cbn [rx in_connections bev andb]. auto.
      * exists c1. rewrite Hbev. auto.
    + exists (cleanup c1). cbn [cleanup rx in_connections bev]. rewrite Hbev. auto.
  - right. split; [reflexivity|].
    destruct (bevRead_round_undefined c0 Hu) as (cmd & body & be & Hreset).
    exists c0, cmd, body, be. auto.
Qed.


Lemma frame_length (m : Message) :
  length (frame flags m) = (8 + length (payload m))%nat.
Proof.
  unfold frame, header. rewrite length_app, length_app.
  destruct (byte_order flags m); reflexivity.
Qed.

Lemma bevRead_loop_step (fuel : nat) (c c1 : ServerConn A) :
  bev c = true ->
  (8 <= length (rx c))%nat ->
  bevRead_round flags handle c = Continue c1 ->
  bevRead_loop flags handle (S fuel) c = bevRead_loop flags handle fuel c1.
Proof.
  intros Hbev Hlen Hround. cbn [bevRead_loop].
  rewrite Hbev, Hround.
  replace (8 <=? length (rx c))%nat with true by (symmetry; apply Nat.leb_le; exact Hlen).
  reflexivity.
Qed.

Lemma segment_bits_distinct :
  segment_bits flags ->
  (SegFirst flags =? 0)%Z = false
  /\ (SegLast flags =? 0)%Z = false
  /\ (SegFirst flags =? SegLast flags)%Z = false
  /\ (SegLast flags =? SegFirst flags)%Z = false.
Proof.
  intros (Hf & Hl & Hfl).
  assert (Hne : SegFirst flags <> SegLast flags).
  { intros E. rewrite E, Z.land_diag in Hfl. contradiction. }
  repeat split; apply Z.eqb_neq; auto.
Qed.

(** A message in one piece is given to its handler at once. *)
Lemma bevRead_round_whole (c : ServerConn A) (m : Message) (more : list byte) :
  snd (handle (u8 (command m)) (segBuf c ++ payload m) (byte_order flags m) (app c))
  = true ->
  whole flags m ->
  rx c = frame flags m ++ more ->
  expectSeg c = false ->
  bevRead_round flags handle c =
    Continue {| rx := more; bev := true; peerBE := byte_order flags m;
                expectSeg := false; segCmd := u8 (command m); segBuf := [];
                read_watermark := (8%N, tcp_readahead);
                read_enabled := read_enabled c;
                write_watermark := write_watermark c;
                in_connections := in_connections c;
                app := fst (handle (u8 (command m)) (segBuf c ++ payload m)
                                   (byte_order flags m) (app c)) |}.
Proof.
  intros Halive (Happ & Hseg) Hrx Hexp.
  rewrite (bevRead_round_application c m more Happ Hrx).
  rewrite Hseg, Hexp. cbn.
  destruct (handle (u8 (command m)) (segBuf c ++ payload m) (byte_order flags m) (app c))
    as [a' alive].
  cbn in Halive. subst alive. reflexivity.
Qed.

(** The first segment opens a message: its payload is kept. *)
Lemma bevRead_round_first (c : ServerConn A) (m : Message) (more : list byte) :
  segment_bits flags ->
  first_segment flags m ->
  rx c = frame flags m ++ more ->
  expectSeg c = false ->
  bevRead_round flags handle c =
    Continue {| rx := more; bev := bev c; peerBE := byte_order flags m;
                expectSeg := true; segCmd := u8 (command m);
                segBuf := segBuf c ++ payload m;
                read_watermark := read_watermark c;
                read_enabled := read_enabled c;
                write_watermark := write_watermark c;
                in_connections := in_connections c; app := app c |}.
Proof.
  intros Hbits (Happ & Hseg) Hrx Hexp.
  rewrite (bevRead_round_application c m more Happ Hrx).
  destruct (segment_bits_distinct Hbits) as (Hf0 & Hl0 & Hfl & Hlf).
  destruct Hbits as (_ & _ & Hland).
  rewrite Hseg, Hexp, Hland, Hf0, Hfl, Z.eqb_refl. reflexivity.
Qed.

(** A middle segment adds its payload to what is kept. *)
Lemma bevRead_round_middle (c : ServerConn A) (m : Message) (more : list byte) :
  segment_bits flags ->
  middle_segment flags m ->
  rx c = frame flags m ++ more ->
  expectSeg c = true ->
  segCmd c = u8 (command m) ->
  bevRead_round flags handle c =
    Continue {| rx := more; bev := bev c; peerBE := byte_order flags m;
                expectSeg := true; segCmd := segCmd c;
                segBuf := segBuf c ++ payload m;
                read_watermark := read_watermark c;
                read_enabled := read_enabled c;
                write_watermark := write_watermark c;
                in_connections := in_connections c; app := app c |}.
Proof.
  intros Hbits (Happ & Hcont & Hnl) Hrx Hexp Hcmd.
  rewrite (bevRead_round_application c m more Happ Hrx).
  destruct Hbits as (_ & _ & Hland).
  assert (H0 : (seg flags m =? 0)%Z = false).
  { apply Z.eqb_neq. intros E. rewrite E in Hcont. apply Hcont. reflexivity. }
  assert (Hf : (seg flags m =? SegFirst flags)%Z = false).
  { apply Z.eqb_neq. intros E. rewrite E in Hcont. contradiction. }
  assert (Hl : (seg flags m =? SegLast flags)%Z = false).
  { apply Z.eqb_neq. exact Hnl. }
  unfold nonzero.
  replace (Z.land (seg flags m) (SegLast flags) =? 0)%Z with false
    by (symmetry; apply Z.eqb_neq; exact Hcont).
  rewrite Hexp, Hcmd, Z.eqb_refl, H0, Hf, Hl. reflexivity.
Qed.

(** The last segment closes the message: what was kept goes to the handler
    of the command that opened it. *)
Lemma bevRead_round_last (c : ServerConn A) (m : Message) (more : list byte) :
  snd (handle (u8 (command m)) (segBuf c ++ payload m) (byte_order flags m) (app c))
  = true ->
  segment_bits flags ->
  last_segment flags m ->
  rx c = frame flags m ++ more ->
  expectSeg c = true ->
  segCmd c = u8 (command m) ->
  bevRead_round flags handle c =
    Continue {| rx := more; bev := true; peerBE := byte_order flags m;
                expectSeg := false; segCmd := segCmd c; segBuf := [];
                read_watermark := (8%N, tcp_readahead);
                read_enabled := read_enabled c;
                write_watermark := write_watermark c;
                in_connections := in_connections c;
                app := fst (handle (segCmd c) (segBuf c ++ payload m)
                                   (byte_order flags m) (app c)) |}.
Proof.
  intros Halive Hbits (Happ & Hseg) Hrx Hexp Hcmd.
  rewrite (bevRead_round_application c m more Happ Hrx).
  destruct (segment_bits_distinct Hbits) as (Hf0 & Hl0 & Hfl & Hlf).
  rewrite Hseg, Z.land_diag. unfold nonzero.
  rewrite Hexp, Hcmd, !Z.eqb_refl, Hl0, Hlf. cbn.
  destruct (handle (u8 (command m)) (segBuf c ++ payload m) (byte_order flags m) (app c))
    as [a' alive].
  cbn in Halive. subst alive. reflexivity.
Qed.


Lemma bevRead_loop_trailing (cmd : byte) (l : Message) (more : list byte) :
  segment_bits flags ->
  last_segment flags l ->
  command l = cmd ->
  forall (mids : list Message) (c : ServerConn A) (fuel : nat),
    snd (handle (u8 cmd) (segBuf c ++ concat (map payload (mids ++ [l])))
                (byte_order flags l) (app c)) = true ->
    Forall (fun m => middle_segment flags m /\ command m = cmd) mids ->
    rx c = concat (map (frame flags) (mids ++ [l])) ++ more ->
    bev c = true ->
    expectSeg c = true ->
    segCmd c = u8 cmd ->
    (length (rx c) < fuel)%nat ->
    exists (fuel' : nat) (c1 : ServerConn A),
      (length more < fuel')%nat
      /\ bevRead_loop flags handle fuel c = bevRead_loop flags handle fuel' c1
      /\ rx c1 = more /\ bev c1 = true /\ expectSeg c1 = false /\ segBuf c1 = []
      /\ in_connections c1 = in_connections c
      /\ read_enabled c1 = read_enabled c
      /\ app c1 = fst (handle (u8 cmd)
                              (segBuf c ++ concat (map payload (mids ++ [l])))
                              (byte_order flags l) (app c)).
Proof.
  intros Hbits Hlast Hcmd mids.
  induction mids as [|m mids IH]; intros c fuel Halive Hmids Hrx Hbev Hexp Hseg Hfuel.
  - cbn [List.app map concat] in Hrx, Halive |- *. rewrite app_nil_r in Hrx, Halive |- *.
    assert (Hlen : length (rx c) = (8 + length (payload l) + length more)%nat).
    { rewrite Hrx, length_app, frame_length. reflexivity. }
    destruct fuel as [|fuel]; [lia|].
    subst cmd.
    pose proof (bevRead_round_last c l more Halive Hbits Hlast Hrx Hexp Hseg) as Hround.
    rewrite (bevRead_loop_step fuel c _ Hbev ltac:(lia) Hround).
    eexists fuel, _. split; [|split; [reflexivity|]].
    + lia.
    + cbn [rx bev expectSeg segBuf in_connections read_enabled app].
      rewrite Hseg. repeat split.
  - inversion Hmids as [|m' mids' (Hmid & Hmcmd) Hrest]; subst m' mids'.
    cbn [List.app map concat] in Hrx |- *. rewrite <- app_assoc in Hrx.
    assert (Hlen : (8 + length (concat (map (frame flags) (mids ++ [l])) ++ more)
                    <= length (rx c))%nat).
    { rewrite Hrx, (length_app (frame flags m)), frame_length. lia. }
    destruct fuel as [|fuel]; [lia|].
    assert (Hseg' : segCmd c = u8 (command m)) by (rewrite Hmcmd; exact Hseg).
    pose proof (bevRead_round_middle c m _ Hbits Hmid Hrx Hexp Hseg') as Hround.
    rewrite (bevRead_loop_step fuel c _ Hbev ltac:(lia) Hround).
    match type of Hround with _ = Continue ?c1 => set (c1' := c1) in * end.
    destruct (IH c1' fuel) as (fuel' & c2 & Hf & Hloop & H1 & H2 & H3 & H4 & H5 & H6 & H7);
      try reflexivity; try assumption.
    { cbn [c1' segBuf app]. cbn [List.app map concat] in Halive.
      rewrite <- app_assoc. exact Halive. }
    { cbn [c1' rx]. lia. }
    exists fuel', c2. repeat split; try assumption.
    rewrite H7. cbn [c1' segBuf app]. rewrite <- app_assoc. reflexivity.
Qed.

Lemma bevRead_loop_transfer (t : Transfer) (more : list byte) (c : ServerConn A)
    (fuel : nat) :
  snd (handle (u8 (command (leading t))) (transfer_body t) (transfer_order flags t) (app c))
  = true ->
  segment_bits flags ->
  valid_transfer flags t ->
  rx c = concat (map (frame flags) (segments t)) ++ more ->
  bev c = true ->
  expectSeg c = false ->
  segBuf c = [] ->
  (length (rx c) < fuel)%nat ->
  exists (fuel' : nat) (c1 : ServerConn A),
    (length more < fuel')%nat
    /\ bevRead_loop flags handle fuel c = bevRead_loop flags handle fuel' c1
    /\ rx c1 = more /\ bev c1 = true /\ expectSeg c1 = false /\ segBuf c1 = []
    /\ in_connections c1 = in_connections c
    /\ read_enabled c1 = read_enabled c
    /\ app c1 = deliver flags handle (app c) t.
Proof.
  intros Halive Hbits Hvalid Hrx Hbev Hexp Hbuf Hfuel.
  unfold deliver, transfer_body, transfer_order in *.
  destruct t as [m rest]. unfold segments, valid_transfer in *.
  cbn [leading trailing] in *.
  cbn [map concat] in Hrx |- *. rewrite <- app_assoc in Hrx.
  assert (Hlen : (8 + length (concat (map (frame flags) rest) ++ more)
                  <= length (rx c))%nat).
  { rewrite Hrx, (length_app (frame flags m)), frame_length. lia. }
  destruct fuel as [|fuel]; [lia|].
  destruct Hvalid as [(-> & Hwhole) | (Hfirst & mids & l & -> & Hmids & Hlast & Hcmd)].
  - cbn [map concat List.app List.last] in Hrx, Halive |- *.
    rewrite app_nil_r in Halive |- *.
    assert (Halive' : snd (handle (u8 (command m)) (segBuf c ++ payload m)
                                  (byte_order flags m) (app c)) = true)
      by (rewrite Hbuf; exact Halive).
    pose proof (bevRead_round_whole c m more Halive' Hwhole Hrx Hexp) as Hround.
    rewrite (bevRead_loop_step fuel c _ Hbev ltac:(lia) Hround).
    cbn [map concat List.app length] in Hlen.
    eexists fuel, _. split; [lia|]. split; [reflexivity|].
    cbn [rx bev expectSeg segBuf in_connections read_enabled app].
    rewrite Hbuf. repeat split.
  - pose proof (bevRead_round_first c m _ Hbits Hfirst Hrx Hexp) as Hround.
    rewrite (bevRead_loop_step fuel c _ Hbev ltac:(lia) Hround).
    match type of Hround with _ = Continue ?c1 => set (c1' := c1) in * end.
    destruct (bevRead_loop_trailing (command m) l more Hbits Hlast Hcmd
                mids c1' fuel)
      as (fuel' & c2 & Hf & Hloop & H1 & H2 & H3 & H4 & H5 & H6 & H7);
      try reflexivity; try assumption.
    { cbn [c1' segBuf app]. rewrite Hbuf. cbn [map concat List.app] in Halive |- *.
      rewrite last_last in Halive. exact Halive. }
    { cbn [c1' rx]. lia. }
    exists fuel', c2. repeat split; try assumption.
    rewrite H7. cbn [c1' segBuf app]. rewrite Hbuf, last_last. reflexivity.
Qed.

Lemma bevRead_loop_transfers (tail : list byte) :
  segment_bits flags ->
  (length tail < 8)%nat ->
  forall (ts : list Transfer) (c : ServerConn A) (fuel : nat),
    kept flags handle ts (app c) ->
    Forall (valid_transfer flags) ts ->
    rx c = wire flags ts ++ tail ->
    bev c = true ->
    expectSeg c = false ->
    segBuf c = [] ->
    (length (rx c) < fuel)%nat ->
    exists c' : ServerConn A,
      bevRead_loop flags handle fuel c = Some c'
      /\ rx c' = tail /\ bev c' = true /\ expectSeg c' = false /\ segBuf c' = []
      /\ in_connections c' = in_connections c
      /\ read_enabled c' = read_enabled c
      /\ app c' = fold_left (deliver flags handle) ts (app c).
Proof.
  intros Hbits Htail ts.
  induction ts as [|t ts IH]; intros c fuel Hkept Hvalid Hrx Hbev Hexp Hbuf Hfuel.
  - cbn in Hrx. destruct fuel as [|fuel]; [lia|].
    cbn [bevRead_loop]. rewrite Hrx.
    replace (8 <=? length tail)%nat with false by (symmetry; apply Nat.leb_gt; exact Htail).
    rewrite andb_false_r. exists c. repeat split; assumption.
  - inversion Hvalid as [|t' ts' Ht Hts]; subst t' ts'.
    unfold wire in Hrx. cbn [map concat] in Hrx.
    rewrite map_app, concat_app, <- app_assoc in Hrx.
    destruct Hkept as (Halive & Hkept).
    destruct (bevRead_loop_transfer t _ c fuel Halive Hbits Ht Hrx Hbev Hexp Hbuf Hfuel)
      as (fuel' & c1 & Hf & Hloop & H1 & H2 & H3 & H4 & H5 & H6 & H7).
    destruct (IH c1 fuel') as (c' & Hloop' & R1 & R2 & R3 & R4 & R5 & R6 & R7);
      try assumption.
    { rewrite H7. exact Hkept. }
    { rewrite H1. lia. }
    exists c'. rewrite Hloop. repeat split; try assumption; try congruence.
    rewrite R7, H7. reflexivity.
Qed.

(** X23: [bevRead] takes the requests of a peer from the input in the order
    in which they were sent, and gives each to one handler call: the command
    is the one of the first segment, the body is the payloads of all its
    segments joined, and the byte order is the one of the last segment. This
    holds of any handlers, for an input on which the handler calls just
    described leave the bufferevent set. Bytes of a header that is not
    complete yet stay in the input, and the connection is kept; reading is
    switched off if the output has reached [0x100000] bytes. *)
Theorem bevRead_transfers (ts : list Transfer) (tail : list byte) (c : ServerConn A) :
  kept flags handle ts (app c) ->
  segment_bits flags ->
  Forall (valid_transfer flags) ts ->
  rx c = wire flags ts ++ tail ->
  (length tail < 8)%nat ->
  bev c = true ->
  expectSeg c = false ->
  segBuf c = [] ->
  exists c' : ServerConn A,
    bevRead flags handle tx_length c = Some c'
    /\ app c' = fold_left (deliver flags handle) ts (app c)
    /\ rx c' = tail
    /\ bev c' = true /\ expectSeg c' = false /\ segBuf c' = []
    /\ in_connections c' = in_connections c
    /\ read_enabled c'
       = read_enabled c && negb (0x100000 <=? tx_length (app c'))%N.
Proof.
  intros Hkept Hbits Hvalid Hrx Htail Hbev Hexp Hbuf.
  destruct (bevRead_loop_transfers tail Hbits Htail ts c (S (length (rx c)))
              Hkept Hvalid Hrx Hbev Hexp Hbuf)
    as (c1 & Hloop & R1 & R2 & R3 & R4 & R5 & R6 & R7); [lia|].
  unfold bevRead. rewrite Hloop, R2. cbn [negb].
  destruct (0x100000 <=? tx_length (app c1))%N eqn:Htx.
  - eexists. split; [reflexivity|].
    cbn [rx bev expectSeg segBuf in_connections read_enabled app].
    rewrite Htx, andb_false_r. repeat split; assumption.
  - exists c1. rewrite Htx, andb_true_r. repeat split; assumption.
Qed.


(** X24: While the payload that a header announces is not complete,
    [bevRead] takes nothing from the input and calls no handler: it asks to
    be called again when the whole payload is there, and keeps the
    connection. *)
Theorem bevRead_incomplete (c : ServerConn A) (m : Message) (missing : list byte) :
  application flags m ->
  bev c = true ->
  frame flags m = rx c ++ missing ->
  (8 <= length (rx c))%nat ->
  missing <> [] ->
  exists c' : ServerConn A,
    bevRead flags handle tx_length c = Some c'
    /\ rx c' = rx c /\ app c' = app c /\ segBuf c' = segBuf c
    /\ expectSeg c' = expectSeg c
    /\ bev c' = true
    /\ in_connections c' = in_connections c
    /\ read_watermark c'
       = (N.of_nat (length (payload m)),
          (N.of_nat (length (payload m)) + tcp_readahead)%N).
Proof.
  intros (Hv & Hs & Hc & Hlen) Hbev Hframe Hhdr Hmissing.
  destruct (from_wire_u32_header (byte_order flags m) _ Hlen)
    as (l0 & l1 & l2 & l3 & Hh & Hw).
  unfold frame in Hframe. rewrite Hh in Hframe.
  assert (Hsize : (length (rx c) < 8 + length (payload m))%nat).
  { apply (f_equal (@length byte)) in Hframe.
    rewrite !length_app in Hframe. cbn [length] in Hframe.
    destruct missing; [contradiction|]. cbn [length] in Hframe. lia. }
  assert (Hrx : rx c = [xca; version m; flags_byte m; command m; l0; l1; l2; l3]
                       ++ firstn (length (rx c) - 8) (payload m)).
  { apply (f_equal (firstn (length (rx c)))) in Hframe.
    rewrite (firstn_app (length (rx c)) (rx c)), firstn_all, Nat.sub_diag, firstn_O,
      app_nil_r in Hframe.
    rewrite <- Hframe at 1.
    rewrite firstn_app. cbn [length].
    rewrite (firstn_all2 (n := length (rx c))) by (cbn [length]; lia).
    reflexivity. }
  unfold bevRead. cbn [bevRead_loop]. rewrite Hbev.
  replace (8 <=? length (rx c))%nat with true by (symmetry; apply Nat.leb_le; exact Hhdr).
  cbn [andb].
  assert (Hround : bevRead_round flags handle c =
    Break {| rx := rx c; bev := bev c; peerBE := byte_order flags m;
             expectSeg := expectSeg c; segCmd := segCmd c; segBuf := segBuf c;
             read_watermark := (N.of_nat (length (payload m)),
                                (N.of_nat (length (payload m)) + tcp_readahead)%N);
             read_enabled := read_enabled c; write_watermark := write_watermark c;
             in_connections := in_connections c; app := app c |}).
  { unfold bevRead_round. rewrite Hrx at 1. cbn [List.app].
    change (u8 xca =? 0xca)%Z with true.
    apply u8_zero in Hv. rewrite Hv, Hs, Hc.
    cbn [negb orb nonzero Z.eqb].
    fold (byte_order flags m). rewrite Hw.
    replace (N.of_nat (length (rx c)) - 8 <? N.of_nat (length (payload m)))%N with true
      by (symmetry; apply N.ltb_lt; lia).
    replace (N.of_nat (length (payload m)) <? SIZE_MAX - tcp_readahead)%N with true
      by (symmetry; apply N.ltb_lt;
          change (SIZE_MAX - tcp_readahead)%N with 18446744073709547519%N;
          change (2 ^ 32)%N with 4294967296%N in Hlen; lia).
    reflexivity. }
  rewrite Hround. cbn [bev]. rewrite Hbev. cbn [negb rx app].
  destruct (0x100000 <=? tx_length (app c))%N.
  - eexists. split; [reflexivity|]. cbn. auto 10.
  - eexists. split; [reflexivity|]. cbn. auto 10.
Qed.

(** X25: A header that does not start with the magic byte, or names
    version 0, or comes from a server, ends the connection: nothing is taken
    from the input, no handler is called, the bufferevent is reset and the
    connection leaves the list of its interface. *)
Theorem bevRead_decode_fault (c : ServerConn A) (h0 h1 h2 : byte) (rest : list byte) :
  bev c = true ->
  rx c = h0 :: h1 :: h2 :: rest ->
  (5 <= length rest)%nat ->
  h0 <> xca \/ h1 = x00 \/ Z.land (u8 h2) (Server flags) <> 0%Z ->
  exists c' : ServerConn A,
    bevRead flags handle tx_length c = Some c'
    /\ bev c' = false
    /\ in_connections c' = false
    /\ rx c' = rx c /\ app c' = app c /\ segBuf c' = segBuf c.
Proof.
  intros Hbev Hrx Hlen Hfault.
  destruct rest as [|h3 [|l0 [|l1 [|l2 [|l3 rest]]]]]; cbn [length] in Hlen; try lia.
  assert (Hcheck : negb (u8 h0 =? 0xca)%Z || (u8 h1 =? 0)%Z
                   || nonzero (Z.land (u8 h2) (Server flags)) = true).
  { destruct Hfault as [H | [H | H]].
    - destruct (u8 h0 =? 0xca)%Z eqn:E; [|reflexivity].
      exfalso. apply H. apply (proj1 (u8_eqb h0 xca)). exact E.
    - subst h1. rewrite orb_true_r. reflexivity.
    - unfold nonzero. apply Z.eqb_neq in H. rewrite H.
      rewrite orb_true_r. reflexivity. }
  unfold bevRead. cbn [bevRead_loop]. rewrite Hbev, Hrx. cbn [length Nat.leb andb].
  unfold bevRead_round. rewrite Hrx, Hcheck.
  cbn [bev negb]. eexists. split; [reflexivity|].
  cbn [cleanup bev in_connections rx app segBuf]. auto.
Qed.

(** X26: A message that breaks the order of segments ends the connection:
    a middle or last segment when no message is open, a new message while
    one is open, or a segment with another command than the open message.
    The handlers are not called, what follows in the input is not read, and
    the connection leaves the list of its interface. *)
Theorem bevRead_segmentation_violation (c : ServerConn A) (m : Message)
    (more : list byte) :
  application flags m ->
  bev c = true ->
  rx c = frame flags m ++ more ->
  (expectSeg c = false /\ Z.land (seg flags m) (SegLast flags) <> 0%Z)
  \/ (expectSeg c = true /\ Z.land (seg flags m) (SegLast flags) = 0%Z)
  \/ (Z.land (seg flags m) (SegLast flags) <> 0%Z /\ u8 (command m) <> segCmd c) ->
  exists c' : ServerConn A,
    bevRead flags handle tx_length c = Some c'
    /\ bev c' = false
    /\ in_connections c' = false
    /\ app c' = app c
    /\ rx c' = more.
Proof.
  intros Happ Hbev Hrx Hviolation.
  assert (Hlen : (8 <= length (rx c))%nat).
  { rewrite Hrx, length_app, frame_length. lia. }
  assert (Hcheck :
    xorb (nonzero (Z.land (seg flags m) (SegLast flags))) (expectSeg c)
    || (nonzero (Z.land (seg flags m) (SegLast flags))
        && negb (u8 (command m) =? segCmd c)%Z) = true).
  { unfold nonzero. destruct Hviolation as [(He & Hl) | [(He & Hl) | (Hl & Hcmd)]].
    - apply Z.eqb_neq in Hl. rewrite Hl, He. reflexivity.
    - rewrite Hl, He. reflexivity.
    - apply Z.eqb_neq in Hl, Hcmd. rewrite Hl, Hcmd. cbn [negb andb].
      apply orb_true_r. }
  unfold bevRead. cbn [bevRead_loop]. rewrite Hbev.
  replace (8 <=? length (rx c))%nat with true by (symmetry; apply Nat.leb_le; exact Hlen).
  cbn [andb].
  rewrite (bevRead_round_application c m more Happ Hrx), Hcheck.
  cbn [bev negb]. eexists. split; [reflexivity|].
  cbn [cleanup bev in_connections rx app]. auto.
Qed.

End ReadProps.

(** A request that its handler cannot decode: the handler resets the
    bufferevent, and the call of [bevRead] is the second case of
    [bevRead_returns]; the same bytes after a request that is in order are
    reached, and end the call in the same way. *)
Example bevRead_truncated_request :
  conn.bevRead conn.pva_flags conn_sample.handle conn_sample.tx_length
    (conn_sample.idle (conn.frame conn.pva_flags conn_sample.truncated)) = None
  /\ conn.bevRead conn.pva_flags conn_sample.handle conn_sample.tx_length
       (conn_sample.idle (conn.frame conn.pva_flags conn_sample.echo
                          ++ conn.frame conn.pva_flags conn_sample.truncated)) = None.
Proof. split; vm_compute; reflexivity. Qed.

Lemma segment_bits_pva : conn.segment_bits conn.pva_flags.
Proof. repeat split; discriminate. Qed.

Ltac sample_facts := repeat split; try discriminate; vm_compute; reflexivity.

Lemma application_echo : conn.application conn.pva_flags conn_sample.echo.
Proof. sample_facts. Qed.

Lemma valid_transfers_sample :
  Forall (conn.valid_transfer conn.pva_flags) conn_sample.transfers.
Proof.
  apply List.Forall_cons; [|apply List.Forall_cons; [|apply List.Forall_cons; [|apply List.Forall_nil]]].
  - left. sample_facts.
  - right. split; [sample_facts|].
    exists [conn_sample.part2], conn_sample.part3.
    split; [reflexivity|]. split; [|split; [|reflexivity]].
    + apply List.Forall_cons; [|apply List.Forall_nil].
      sample_facts.
    + sample_facts.
  - left. sample_facts.
Qed.

Lemma bevRead_transfers_witness :
  exists c',
    conn.bevRead conn.pva_flags conn_sample.handle conn_sample.tx_length
      (conn_sample.idle (conn.wire conn.pva_flags conn_sample.transfers ++ [xca; x02]))
    = Some c'
    /\ conn.app c'
       = [(2%Z, [x01; x02; x03], true);
          (7%Z, [x01; x02; x03; x04; x05], false);
          (3%Z, [x0a; x0b], false)]
    /\ conn.rx c' = [xca; x02].
Proof.
  destruct (bevRead_transfers _ conn.pva_flags conn_sample.handle conn_sample.tx_length
              conn_sample.transfers [xca; x02]
              (conn_sample.idle
                 (conn.wire conn.pva_flags conn_sample.transfers ++ [xca; x02])))
    as (c' & Hread & Happ & Hrx & _).
  - vm_compute. repeat split.
  - exact segment_bits_pva.
  - exact valid_transfers_sample.
  - reflexivity.
  - vm_compute. lia.
  - reflexivity.
  - reflexivity.
  - reflexivity.
  - exists c'. split; [exact Hread|]. split; [exact Happ|exact Hrx].
Defined.

Lemma bevRead_incomplete_witness :
  exists c',
    conn.bevRead conn.pva_flags conn_sample.handle conn_sample.tx_length
      (conn_sample.idle (firstn 10 (conn.frame conn.pva_flags conn_sample.echo)))
    = Some c'
    /\ conn.app c' = []
    /\ conn.read_watermark c' = (3%N, 4099%N).
Proof.
  destruct (bevRead_incomplete _ conn.pva_flags conn_sample.handle conn_sample.tx_length
              (conn_sample.idle (firstn 10 (conn.frame conn.pva_flags conn_sample.echo)))
              conn_sample.echo [x03])
    as (c' & Hread & _ & Happ & _ & _ & _ & _ & Hmark).
  - exact application_echo.
  - reflexivity.
  - reflexivity.
  - vm_compute. lia.
  - discriminate.
  - exists c'. split; [exact Hread|]. split; [exact Happ|exact Hmark].
Defined.

Lemma bevRead_decode_fault_witness :
  exists c',
    conn.bevRead conn.pva_flags conn_sample.handle conn_sample.tx_length
      (conn_sample.idle (xca :: x02 :: x40 :: [x02; x00; x00; x00; x00])) = Some c'
    /\ conn.bev c' = false
    /\ conn.in_connections c' = false.
Proof.
  destruct (bevRead_decode_fault _ conn.pva_flags conn_sample.handle conn_sample.tx_length
              (conn_sample.idle (xca :: x02 :: x40 :: [x02; x00; x00; x00; x00]))
              xca x02 x40 [x02; x00; x00; x00; x00])
    as (c' & Hread & Hbev & Hin & _).
  - reflexivity.
  - reflexivity.
  - vm_compute. lia.
  - right. right. discriminate.
  - exists c'. split; [exact Hread|]. split; [exact Hbev|exact Hin].
Defined.

Lemma bevRead_segmentation_violation_witness :
  exists c',
    conn.bevRead conn.pva_flags conn_sample.handle conn_sample.tx_length
      (conn_sample.idle (conn.frame conn.pva_flags conn_sample.part3
                         ++ conn.frame conn.pva_flags conn_sample.echo)) = Some c'
    /\ conn.bev c' = false
    /\ conn.in_connections c' = false
    /\ conn.app c' = []
    /\ conn.rx c' = conn.frame conn.pva_flags conn_sample.echo.
Proof.
  apply (bevRead_segmentation_violation _ conn.pva_flags conn_sample.handle
           conn_sample.tx_length
           (conn_sample.idle (conn.frame conn.pva_flags conn_sample.part3
                              ++ conn.frame conn.pva_flags conn_sample.echo))
           conn_sample.part3 (conn.frame conn.pva_flags conn_sample.echo)).
  - sample_facts.
  - reflexivity.
  - reflexivity.
  - left. split; [reflexivity|discriminate].
Defined.

(** ** The channel tables *)

Section ChannelProps.

Import chan.

Local Open Scope N_scope.

Variable Handler : Type.
Variable isSuccess : Status.t -> bool.
Variable sources : list (std_string -> result (option Handler)).

Lemma candidates_distinct (next : N) (i j : nat) :
  (N.of_nat i < 2 ^ 32) -> (N.of_nat j < 2 ^ 32) ->
  (next + N.of_nat i) mod 2 ^ 32 = (next + N.of_nat j) mod 2 ^ 32 ->
  i = j.
Proof.
  change (2 ^ 32) with 4294967296. intros Hi Hj H.
  zify. Z.to_euclidean_division_equations. lia.
Qed.

Lemma candidate_succ (next : N) (i : nat) :
  ((next + 1) mod 2 ^ 32 + N.of_nat i) mod 2 ^ 32
  = (next + N.of_nat (S i)) mod 2 ^ 32.
Proof.
  rewrite N.Div0.add_mod_idemp_l. f_equal. lia.
Qed.

(** What the search for an unused id has seen when it ends. *)
Lemma alloc_sid_some (m : gmap N (ServerChannel Handler)) :
  forall (fuel : nat) (next s next' : N),
    next < 2 ^ 32 ->
    alloc_sid fuel next m = Some (s, next') ->
    m !! s = None
    /\ next' = (s + 1) mod 2 ^ 32
    /\ exists k : nat,
         (k < fuel)%nat
         /\ s = (next + N.of_nat k) mod 2 ^ 32
         /\ forall i : nat, (i < k)%nat ->
                            is_Some (m !! ((next + N.of_nat i) mod 2 ^ 32)).
Proof.
  induction fuel as [|fuel IH]; intros next s next' Hnext H; [discriminate|].
  cbn [alloc_sid] in H.
  destruct (m !! next) as [ch|] eqn:E.
  - apply IH in H; [|apply N.mod_upper_bound; discriminate].
    destruct H as (Hfree & Hn & k & Hk & Hs & Hused).
    split; [exact Hfree|]. split; [exact Hn|].
    exists (S k). split; [lia|]. split.
    + rewrite Hs. apply candidate_succ.
    + intros i Hi. destruct i as [|i].
      * rewrite N.add_0_r, N.mod_small by exact Hnext. rewrite E. eauto.
      * rewrite <- candidate_succ. apply Hused. lia.
  - inversion H; subst s next'. split; [exact E|]. split; [reflexivity|].
    exists 0%nat. split; [lia|]. split.
    + rewrite N.add_0_r, N.mod_small by exact Hnext. reflexivity.
    + intros i Hi. lia.
Qed.

Lemma alloc_sid_none (m : gmap N (ServerChannel Handler)) :
  forall (fuel : nat) (next : N),
    next < 2 ^ 32 ->
    alloc_sid fuel next m = None ->
    forall i : nat, (i < fuel)%nat ->
                    is_Some (m !! ((next + N.of_nat i) mod 2 ^ 32)).
Proof.
  induction fuel as [|fuel IH]; intros next Hnext H i Hi; [lia|].
  cbn [alloc_sid] in H.
  destruct (m !! next) as [ch|] eqn:E; [|discriminate].
  destruct i as [|i].
  - rewrite N.add_0_r, N.mod_small by exact Hnext. rewrite E. eauto.
  - rewrite <- candidate_succ. apply IH; [apply N.mod_upper_bound; discriminate|exact H|lia].
Qed.

(** The search ends within one step more than the table has entries:
    among that many ids in a row one is unused. *)
Lemma alloc_sid_finds (m : gmap N (ServerChannel Handler)) (next : N) :
  next < 2 ^ 32 ->
  N.of_nat (size m) < 2 ^ 32 ->
  alloc_sid (S (size m)) next m <> None.
Proof.
  intros Hnext Hsize Hnone.
  pose proof (alloc_sid_none m _ _ Hnext Hnone) as Hused.
  set (cands := (fun i : nat => (next + N.of_nat i) mod 2 ^ 32) <$> seq 0 (S (size m))).
  assert (Hdup : NoDup cands).
  { apply NoDup_fmap_2_strong; [|apply NoDup_seq].
    intros i j Hi Hj Heq. apply elem_of_seq in Hi, Hj.
    apply (candidates_distinct next); [lia|lia|exact Heq]. }
  assert (Hsub : (list_to_set cands : gset N) ⊆ dom m).
  { intros x Hx. apply elem_of_list_to_set in Hx.
    apply list_elem_of_fmap in Hx. destruct Hx as (i & -> & Hi).
    apply elem_of_seq in Hi. apply elem_of_dom. apply Hused. lia. }
  apply subseteq_size in Hsub.
  rewrite size_list_to_set in Hsub by exact Hdup.
  rewrite size_dom in Hsub.
  unfold cands in Hsub. rewrite length_fmap, length_seq in Hsub. lia.
Qed.


Lemma create_refused (t : Tables Handler) (c : N) (nm : std_string) :
  success_of_code isSuccess ->
  full t = true \/ is_Some (chanByCID t !! c) \/ nm = []
  \/ first_handler sources nm = None ->
  exists sts : Status.t,
    create isSuccess sources t c nm
    = Done (t, {| reply_cid := c; reply_sid := 0xffffffff; reply_sts := sts |})
    /\ isSuccess sts = false
    /\ Status.code sts = (if full t then Status.Error else Status.Fatal).
Proof.
  intros Hlaw Hcase. unfold create.
  destruct (full t) eqn:Hfull.
  - destruct (Hlaw "pvx:serv:chanidoverflow:"%string) as (_ & Herr & _).
    rewrite Herr. cbn [andb]. rewrite ?Herr. eauto.
  - destruct (Hlaw ""%string) as (Hok & _ & _). rewrite Hok. cbn [andb].
    destruct (bool_decide (is_Some (chanByCID t !! c))) eqn:Hdup.
    + destruct (Hlaw "pvx:serv:dupcid:"%string) as (_ & _ & Hfatal).
      rewrite Hfatal. cbn [andb]. rewrite ?Hfatal. eauto.
    + rewrite Hok. cbn [andb].
      destruct (Hlaw "pvx:serv:nosource:"%string) as (_ & _ & Hfatal).
      assert (Hnone : (if negb (tool.is_empty nm) then first_handler sources nm else None)
                      = None).
      { destruct Hcase as [H | [H | [H | H]]].
        - discriminate.
        - apply bool_decide_eq_false in Hdup. contradiction.
        - subst nm. reflexivity.
        - rewrite H. destruct (negb (tool.is_empty nm)); reflexivity. }
      rewrite Hnone. eauto.
Qed.

Lemma create_claimed (t : Tables Handler) (c : N) (nm : std_string) (h : Handler) :
  success_of_code isSuccess ->
  bounded t ->
  full t = false ->
  chanByCID t !! c = None ->
  nm <> [] ->
  first_handler sources nm = Some h ->
  exists (s : N) (k : nat),
    (k <= size (chanBySID t))%nat
    /\ s = (nextSID t + N.of_nat k) mod 2 ^ 32
    /\ chanBySID t !! s = None
    /\ (forall i : nat, (i < k)%nat ->
          is_Some (chanBySID t !! ((nextSID t + N.of_nat i) mod 2 ^ 32)))
    /\ create isSuccess sources t c nm
       = Done ({| chanBySID := <[s := {| sid := s; cid := c; name := nm; handler := h |}]>
                                 (chanBySID t);
                  chanByCID := <[c := s]> (chanByCID t);
                  nextSID := (s + 1) mod 2 ^ 32 |},
               {| reply_cid := c; reply_sid := s;
                  reply_sts := {| Status.code := Status.Ok; Status.trace := "" |} |}).
Proof.
  intros Hlaw (Hnext & Hsize) Hfull Hcid Hnm Hsrc. unfold create.
  destruct (Hlaw ""%string) as (Hok & _ & _).
  rewrite Hfull, Hok. cbn [andb].
  rewrite Hcid.
  replace (bool_decide (is_Some (@None N))) with false
    by (symmetry; apply bool_decide_eq_false; intros [x Hx]; discriminate).
  rewrite Hok. cbn [andb].
  destruct nm as [|a nm]; [contradiction|]. cbn [tool.is_empty negb].
  rewrite Hsrc.
  assert (Hroom : N.of_nat (size (chanBySID t)) < 2 ^ 32).
  { change (2 ^ 32) with 4294967296. change 0xffffffff with 4294967295 in Hsize. lia. }
  destruct (alloc_sid (S (size (chanBySID t))) (nextSID t) (chanBySID t))
    as [[s next']|] eqn:Halloc.
  - destruct (alloc_sid_some _ _ _ _ _ Hnext Halloc)
      as (Hfree & -> & k & Hk & Hs & Hused).
    exists s, k. split; [lia|]. split; [exact Hs|]. split; [exact Hfree|].
    split; [exact Hused|].
    unfold emplace. rewrite Hfree, Hcid. reflexivity.
  - exfalso. exact (alloc_sid_finds _ _ Hnext Hroom Halloc).
Qed.


Lemma full_false_room (t : Tables Handler) :
  bounded t -> full t = false ->
  N.of_nat (S (size (chanBySID t))) <= 0xffffffff.
Proof.
  intros (_ & Hsize) Hfull. unfold full in Hfull.
  apply orb_false_elim in Hfull. destruct Hfull as (_ & Hfull).
  apply N.eqb_neq in Hfull. lia.
Qed.

Lemma consistent_insert (t : Tables Handler) (c s : N) (nm : std_string) (h : Handler) :
  consistent t ->
  chanByCID t !! c = None ->
  chanBySID t !! s = None ->
  consistent {| chanBySID := <[s := {| sid := s; cid := c; name := nm; handler := h |}]>
                               (chanBySID t);
                chanByCID := <[c := s]> (chanByCID t);
                nextSID := (s + 1) mod 2 ^ 32 |}.
Proof.
  intros (Hboth & Hsid) Hcid Hfree. split; cbn [chanBySID chanByCID].
  - intros c' s'. split.
    + intros H. destruct (decide (c' = c)) as [->|Hne].
      * rewrite lookup_insert_eq in H. inversion H; subst s'.
        eexists. rewrite lookup_insert_eq. split; reflexivity.
      * rewrite lookup_insert_ne in H by congruence.
        apply Hboth in H. destruct H as (ch & Hch & Hc).
        exists ch. split; [|exact Hc].
        rewrite lookup_insert_ne; [exact Hch|]. intros ->. congruence.
    + intros (ch & Hch & Hc). destruct (decide (s' = s)) as [->|Hne].
      * rewrite lookup_insert_eq in Hch. inversion Hch; subst ch. cbn in Hc. subst c'.
        apply lookup_insert_eq.
      * rewrite lookup_insert_ne in Hch by congruence.
        assert (Hold : chanByCID t !! c' = Some s') by (apply Hboth; eauto).
        rewrite lookup_insert_ne; [exact Hold|]. intros ->. congruence.
  - intros s' ch Hch. destruct (decide (s' = s)) as [->|Hne].
    + rewrite lookup_insert_eq in Hch. inversion Hch. reflexivity.
    + rewrite lookup_insert_ne in Hch by congruence. apply Hsid. exact Hch.
Qed.

Lemma consistent_delete (t : Tables Handler) (s : N) (ch : ServerChannel Handler) :
  consistent t ->
  chanBySID t !! s = Some ch ->
  consistent {| chanBySID := delete s (chanBySID t);
                chanByCID := delete (cid ch) (chanByCID t);
                nextSID := nextSID t |}.
Proof.
  intros (Hboth & Hsid) Hch. split; cbn [chanBySID chanByCID].
  - intros c' s'. split.
    + intros H. apply lookup_delete_Some in H. destruct H as (Hne & H).
      apply Hboth in H. destruct H as (ch' & Hch' & Hc).
      exists ch'. split; [|exact Hc].
      apply lookup_delete_Some. split; [|exact Hch'].
      intros ->. rewrite Hch in Hch'. inversion Hch'; subst ch'. congruence.
    + intros (ch' & Hch' & Hc). apply lookup_delete_Some in Hch'.
      destruct Hch' as (Hne & Hch').
      assert (Hold : chanByCID t !! c' = Some s') by (apply Hboth; eauto).
      apply lookup_delete_Some. split; [|exact Hold].
      intros E. rewrite <- E in Hold.
      assert (Hmine : chanByCID t !! cid ch = Some s) by (apply Hboth; eauto).
      rewrite Hmine in Hold. congruence.
  - intros s' ch' H. apply lookup_delete_Some in H. destruct H as (_ & H).
    apply Hsid. exact H.
Qed.

(** A request to create a channel: what [create] does in each case. *)
Lemma create_cases (t : Tables Handler) (c : N) (nm : std_string) :
  success_of_code isSuccess ->
  bounded t ->
  (exists sts : Status.t,
     create isSuccess sources t c nm
     = Done (t, {| reply_cid := c; reply_sid := 0xffffffff; reply_sts := sts |})
     /\ isSuccess sts = false
     /\ (full t = true \/ is_Some (chanByCID t !! c) \/ nm = []
         \/ first_handler sources nm = None))
  \/ (exists (h : Handler) (s : N) (k : nat),
        full t = false /\ chanByCID t !! c = None /\ nm <> []
        /\ first_handler sources nm = Some h
        /\ (k <= size (chanBySID t))%nat
        /\ s = (nextSID t + N.of_nat k) mod 2 ^ 32
        /\ chanBySID t !! s = None
        /\ (forall i : nat, (i < k)%nat ->
              is_Some (chanBySID t !! ((nextSID t + N.of_nat i) mod 2 ^ 32)))
        /\ create isSuccess sources t c nm
           = Done ({| chanBySID :=
                        <[s := {| sid := s; cid := c; name := nm; handler := h |}]>
                          (chanBySID t);
                      chanByCID := <[c := s]> (chanByCID t);
                      nextSID := (s + 1) mod 2 ^ 32 |},
                   {| reply_cid := c; reply_sid := s;
                      reply_sts := {| Status.code := Status.Ok; Status.trace := "" |} |})).
Proof.
  intros Hlaw Hb.
  destruct (full t) eqn:Hfull.
  { left. destruct (create_refused t c nm Hlaw) as (sts & H1 & H2 & _); [auto|].
    exists sts. auto. }
  destruct (chanByCID t !! c) as [s0|] eqn:Hcid.
  { left. destruct (create_refused t c nm Hlaw) as (sts & H1 & H2 & _).
    - right. left. rewrite Hcid. eauto.
    - exists sts. eauto 10. }
  destruct nm as [|a nm].
  { left. destruct (create_refused t c [] Hlaw) as (sts & H1 & H2 & _); [auto|].
    exists sts. auto 10. }
  destruct (first_handler sources (a :: nm)) as [h|] eqn:Hsrc.
  - right.
    destruct (create_claimed t c (a :: nm) h Hlaw Hb Hfull Hcid ltac:(discriminate) Hsrc)
      as (s & k & H1 & H2 & H3 & H4 & H5).
    exists h, s, k. repeat split; try assumption; discriminate.
  - left. destruct (create_refused t c (a :: nm) Hlaw) as (sts & H1 & H2 & _); [auto|].
    exists sts. auto 10.
Qed.

Lemma create_keeps (t : Tables Handler) (c : N) (nm : std_string) :
  success_of_code isSuccess ->
  bounded t ->
  consistent t ->
  exists (t' : Tables Handler) (r : Reply),
    create isSuccess sources t c nm = Done (t', r)
    /\ bounded t' /\ consistent t'.
Proof.
  intros Hlaw Hb Hc.
  destruct (create_cases t c nm Hlaw Hb)
    as [(sts & Hrun & _) | (h & s & k & Hfull & Hcid & _ & _ & _ & Hs & Hfree & _ & Hrun)].
  - eauto.
  - eexists _, _. split; [exact Hrun|]. split.
    + split; cbn [nextSID chanBySID].
      * apply N.mod_upper_bound. discriminate.
      * rewrite map_size_insert_None by exact Hfree.
        apply full_false_room; assumption.
    + apply consistent_insert; assumption.
Qed.

Lemma create_all_keeps (requests : list (N * std_string)) :
  success_of_code isSuccess ->
  forall t : Tables Handler,
    bounded t ->
    consistent t ->
    exists (t' : Tables Handler) (rs : list Reply),
      create_all isSuccess sources t requests = Done (t', rs)
      /\ bounded t' /\ consistent t'
      /\ map reply_cid rs = map fst requests.
Proof.
  intros Hlaw. induction requests as [|[c nm] rest IH]; intros t Hb Hc.
  - exists t, []. auto.
  - cbn [create_all].
    destruct (create_keeps t c nm Hlaw Hb Hc) as (t1 & r & Hrun & Hb1 & Hc1).
    assert (Hr : reply_cid r = c).
    { destruct (create_cases t c nm Hlaw Hb)
        as [(sts & Hrun' & _) | (h & s & k & _ & _ & _ & _ & _ & _ & _ & _ & Hrun')];
        rewrite Hrun' in Hrun; inversion Hrun; reflexivity. }
    rewrite Hrun.
    destruct (IH t1 Hb1 Hc1) as (t2 & rs & Hrun2 & Hb2 & Hc2 & Hcids).
    rewrite Hrun2. exists t2, (r :: rs). cbn [map fst]. rewrite Hr, Hcids. auto.
Qed.

(** X27: A request to create a channel always gets its reply: the search
    for an id ends and no assertion fails. The reply reports success exactly
    if the tables are not full, the client's id is not in use, the name is
    not empty and a source returns a handler for it. Then the channel is
    entered in both tables under the first id, counting up from [nextSID]
    and around at [2^32], that is not in use; otherwise the tables and
    [nextSID] stay as they are and the reply carries the id [0xffffffff]. *)
Theorem create_reply (t : Tables Handler) (c : N) (nm : std_string) :
  success_of_code isSuccess ->
  bounded t ->
  exists (t' : Tables Handler) (r : Reply),
    create isSuccess sources t c nm = Done (t', r)
    /\ reply_cid r = c
    /\ (isSuccess (reply_sts r) = true
        <-> full t = false /\ chanByCID t !! c = None /\ nm <> []
            /\ is_Some (first_handler sources nm))
    /\ (isSuccess (reply_sts r) = false -> t' = t /\ reply_sid r = 0xffffffff)
    /\ (isSuccess (reply_sts r) = true ->
        exists (k : nat) (h : Handler),
          reply_sid r = (nextSID t + N.of_nat k) mod 2 ^ 32
          /\ (forall i : nat, (i < k)%nat ->
                is_Some (chanBySID t !! ((nextSID t + N.of_nat i) mod 2 ^ 32)))
          /\ chanBySID t !! reply_sid r = None
          /\ first_handler sources nm = Some h
          /\ chanBySID t'
             = <[reply_sid r := {| sid := reply_sid r; cid := c; name := nm;
                                   handler := h |}]> (chanBySID t)
          /\ chanByCID t' = <[c := reply_sid r]> (chanByCID t)
          /\ nextSID t' = (reply_sid r + 1) mod 2 ^ 32).
Proof.
  intros Hlaw Hb.
  destruct (Hlaw ""%string) as (Hok & _ & _).
  destruct (create_cases t c nm Hlaw Hb)
    as [(sts & Hrun & Hsts & Hwhy)
       | (h & s & k & Hfull & Hcid & Hnm & Hsrc & Hk & Hs & Hfree & Hused & Hrun)].
  - eexists _, _. split; [exact Hrun|]. cbn [reply_cid reply_sts reply_sid].
    split; [reflexivity|]. rewrite Hsts. split; [|split].
    + split; [discriminate|].
      intros (H1 & H2 & H3 & H4). exfalso.
      destruct Hwhy as [H | [H | [H | H]]].
      * congruence.
      * rewrite H2 in H. destruct H. discriminate.
      * contradiction.
      * rewrite H in H4. destruct H4. discriminate.
    + auto.
    + discriminate.
  - eexists _, _. split; [exact Hrun|].
    cbn [reply_cid reply_sts reply_sid chanBySID chanByCID nextSID].
    split; [reflexivity|]. rewrite Hok. split; [|split].
    + split; [|reflexivity]. intros _. rewrite Hsrc. eauto.
    + discriminate.
    + intros _. exists k, h. auto 10.
Qed.

(** X28: The two tables always describe the same channels, and the values
    stay in the range of their C++ types: this holds for the tables of a
    new connection and is kept by [handle_CreateChan], with any number of
    requests in the message, and by [handle_DestroyChan]. With tables of
    this kind both handlers return - no assertion fails and the search for
    an id ends -, a [CreateChan] message is answered by one reply for each
    request decoded, in their order, and the bufferevent is reset exactly
    if the body could not be decoded. *)
Theorem handlers_keep_consistent :
  success_of_code isSuccess ->
  (bounded (empty_tables (Handler := Handler)) /\ consistent (empty_tables (Handler := Handler)))
  /\ (forall (t : Tables Handler) (requests : list (N * std_string)) (good : bool),
        bounded t -> consistent t ->
        exists (t' : Tables Handler) (rs : list Reply),
          handle_CreateChan isSuccess sources t requests good = Done (t', rs, good)
          /\ bounded t' /\ consistent t'
          /\ map reply_cid rs = map fst requests)
  /\ (forall (t : Tables Handler) (s c : N) (good : bool),
        bounded t -> consistent t ->
        exists (t' : Tables Handler) (r : option (N * N)),
          handle_DestroyChan t s c good = Done (t', r, good)
          /\ bounded t' /\ consistent t').
Proof.
  intros Hlaw. split; [|split].
  - split.
    + split; cbn; [reflexivity|discriminate].
    + split; cbn [empty_tables chanBySID chanByCID].
      * intros c s. rewrite lookup_empty. split; [discriminate|].
        intros (ch & Hch & _). rewrite lookup_empty in Hch. discriminate.
      * intros s ch Hch. rewrite lookup_empty in Hch. discriminate.
  - intros t requests good Hb Hc. unfold handle_CreateChan.
    destruct (create_all_keeps requests Hlaw t Hb Hc) as (t' & rs & Hrun & H).
    rewrite Hrun. eauto.
  - intros t s c good Hb Hc. unfold handle_DestroyChan.
    destruct good; [|eauto].
    destruct (chanBySID t !! s) as [ch|] eqn:Hch; [|eauto].
    assert (Hmine : chanByCID t !! cid ch = Some s).
    { destruct Hc as (Hboth & _). apply Hboth. eauto. }
    rewrite Hmine. eexists _, _. split; [reflexivity|]. split.
    + destruct Hb as (Hnext & Hsize). split; cbn [nextSID chanBySID]; [exact Hnext|].
      rewrite map_size_delete_Some by eauto. lia.
    + apply consistent_delete; assumption.
Qed.

(** X29: Destroying a channel that was just created gives back the tables
    as they were before; only [nextSID] has moved on. The client's id in the
    request to destroy plays no part: the channel is found by the server's
    id alone, removed under the client's id it was created with, and the
    reply repeats whatever client's id the request named. *)
Theorem create_destroy_round_trip (t t1 : Tables Handler) (c c' : N) (nm : std_string)
    (r : Reply) :
  success_of_code isSuccess ->
  bounded t ->
  create isSuccess sources t c nm = Done (t1, r) ->
  isSuccess (reply_sts r) = true ->
  handle_DestroyChan t1 (reply_sid r) c' true
  = Done ({| chanBySID := chanBySID t; chanByCID := chanByCID t; nextSID := nextSID t1 |},
          Some (c', reply_sid r), true).
Proof.
  intros Hlaw Hb Hrun Hsts.
  destruct (create_cases t c nm Hlaw Hb)
    as [(sts & Hrun' & Hsts' & _)
       | (h & s & k & _ & Hcid & _ & _ & _ & _ & Hfree & _ & Hrun')];
    rewrite Hrun' in Hrun; inversion Hrun; subst t1 r; cbn [reply_sts reply_sid] in *.
  - congruence.
  - unfold handle_DestroyChan. cbn [chanBySID chanByCID nextSID].
    rewrite lookup_insert_eq. cbn [cid]. rewrite lookup_insert_eq.
    rewrite !delete_insert_id by assumption. reflexivity.
Qed.

End ChannelProps.

Lemma success_of_code_sample : chan.success_of_code chan_sample.isSuccess.
Proof. intros tr. repeat split. Qed.

Lemma bounded_one_channel : chan.bounded chan_sample.one_channel.
Proof. split; vm_compute; [reflexivity|discriminate]. Qed.

Lemma create_reply_witness :
  exists (t' : chan.Tables unit) (r : chan.Reply),
    chan.create chan_sample.isSuccess chan_sample.sources chan_sample.one_channel
      8 (lit "pv2") = chan.Done (t', r)
    /\ chan.reply_cid r = 8%N
    /\ (chan_sample.isSuccess (chan.reply_sts r) = false ->
        t' = chan_sample.one_channel /\ chan.reply_sid r = 0xffffffff%N).
Proof.
  destruct (create_reply unit chan_sample.isSuccess chan_sample.sources
              chan_sample.one_channel 8 (lit "pv2"))
    as (t' & r & Hrun & Hcid & _ & Hrefused & _).
  - exact success_of_code_sample.
  - exact bounded_one_channel.
  - exists t', r. auto.
Defined.

Lemma handlers_keep_consistent_witness :
  chan.bounded (chan.empty_tables (Handler := unit))
  /\ chan.consistent (chan.empty_tables (Handler := unit)).
Proof.
  destruct (handlers_keep_consistent unit chan_sample.isSuccess chan_sample.sources)
    as (Hempty & _).
  - exact success_of_code_sample.
  - exact Hempty.
Defined.

Lemma create_destroy_round_trip_witness :
  chan.handle_DestroyChan
    {| chan.chanBySID :=
         <[1%N := {| chan.sid := 1; chan.cid := 8; chan.name := lit "pv2";
                     chan.handler := tt |}]> (chan.chanBySID chan_sample.one_channel);
       chan.chanByCID := <[8%N := 1%N]> (chan.chanByCID chan_sample.one_channel);
       chan.nextSID := 2 |}
    1 99 true
  = chan.Done ({| chan.chanBySID := chan.chanBySID chan_sample.one_channel;
                  chan.chanByCID := chan.chanByCID chan_sample.one_channel;
                  chan.nextSID := 2 |},
               Some (99%N, 1%N), true).
Proof.
  apply (create_destroy_round_trip unit chan_sample.isSuccess chan_sample.sources
           chan_sample.one_channel
           {| chan.chanBySID :=
                <[1%N := {| chan.sid := 1; chan.cid := 8; chan.name := lit "pv2";
                            chan.handler := tt |}]>
                  (chan.chanBySID chan_sample.one_channel);
              chan.chanByCID := <[8%N := 1%N]> (chan.chanByCID chan_sample.one_channel);
              chan.nextSID := 2 |}
           8 99 (lit "pv2")
           {| chan.reply_cid := 8; chan.reply_sid := 1;
              chan.reply_sts := {| Status.code := Status.Ok; Status.trace := "" |} |}).
  - exact success_of_code_sample.
  - exact bounded_one_channel.
  - vm_compute. reflexivity.
  - reflexivity.
Defined.
